(** * Watch-party backend: room registry, sync clock and protocol dispatcher

    A shallow embedding of [src/server.js] (the in-memory room registry, the
    drift-compensated clock, the socket event handlers, the two room routes,
    the heartbeat, the loader of the local environment file, the origin
    setting and the video search proxy) together with the properties its
    specification states.

    Conventions of the embedding.
    - A JavaScript number is a binary64 float ([PrimFloat.float]).
    - A JavaScript string is a [string], one character per code unit; the
      model covers text of code units below 256, on which [trim] and
      [toUpperCase] are JavaScript's but for the three code units whose
      upper case lies outside that range.
    - A value received from a client is a JSON scalar ([JsVal]); a socket
      event carries the fields its listener takes out of the payload, or no
      payload at all ([Bare]).
    - [rooms] (a JS [Map]) is a [gmap] plus the list of its keys in insertion
      order; a room object is reached through its key only, so a write
      through the reference [state] is an update of the map at that key.
    - [Date.now()] and [Math.random()] are read from two sources indexed by
      the number of reads made so far; every read advances its counter.
    - A handler is a computation in a state-and-exception monad over [World];
      everything sent on the wire is appended to [outbox]. *)

From Stdlib Require Import PrimFloat ZArith Ascii String Lia.
From stdpp Require Import gmap strings list.

Local Open Scope string_scope.
Local Open Scope bool_scope.

(** ** JavaScript values and the coercions the server applies *)

Module Js.

Inductive JsVal : Type :=
| JUndefined
| JNull
| JBool (b : bool)
| JNum (x : float)
| JStr (s : string).

Inductive JsError : Type :=
| Error (message : string)
| TypeError (message : string).

(** Truthiness of a number: [0], [-0] and [NaN] are falsy. *)
Definition num_truthy (x : float) : bool :=
  negb (PrimFloat.is_zero x || PrimFloat.is_nan x).

Definition truthy (v : JsVal) : bool :=
  match v with
  | JUndefined | JNull => false
  | JBool b => b
  | JNum x => num_truthy x
  | JStr s => negb (s =? "")
  end.

(** [a || b] *)
Definition or_else (a b : JsVal) : JsVal := if truthy a then a else b.

(** [x || 0] on numbers. *)
Definition num_or_zero (x : float) : float :=
  if num_truthy x then x else PrimFloat.zero.

(** [===] on two numbers is the IEEE comparison. *)
Definition num_strict_eq (x y : float) : bool := PrimFloat.eqb x y.

(** White space removed by [String.prototype.trim] among the code units
    below 256: TAB, LF, VT, FF, CR, SPACE and the no-break space. *)
Definition is_white_space (c : ascii) : bool :=
  let n := nat_of_ascii c in
  ((9 <=? n)%nat && (n <=? 13)%nat) || (n =? 32)%nat || (n =? 160)%nat.

Fixpoint trimStart (s : string) : string :=
  match s with
  | EmptyString => EmptyString
  | String c s' => if is_white_space c then trimStart s' else s
  end.

Fixpoint trimEnd (s : string) : string :=
  match s with
  | EmptyString => EmptyString
  | String c s' =>
      let t := trimEnd s' in
      if is_white_space c && (t =? "") then EmptyString else String c t
  end.

Definition trim (s : string) : string := trimEnd (trimStart s).

(** The code units below 256 whose upper case is another code unit below
    256: [a] to [z], and the Latin-1 letters from 224 to 254 but for the
    division sign.  The micro sign, the sharp s and the y with diaeresis,
    whose upper case lies outside this range, are not among them. *)
Definition is_lower (c : ascii) : bool :=
  let n := nat_of_ascii c in
  ((97 <=? n)%nat && (n <=? 122)%nat)
  || ((224 <=? n)%nat && (n <=? 254)%nat && negb (n =? 247)%nat).

Definition is_upper (c : ascii) : bool :=
  let n := nat_of_ascii c in (65 <=? n)%nat && (n <=? 90)%nat.

Definition is_digit (c : ascii) : bool :=
  let n := nat_of_ascii c in (48 <=? n)%nat && (n <=? 57)%nat.

Definition upper_char (c : ascii) : ascii :=
  if is_lower c then ascii_of_nat (nat_of_ascii c - 32) else c.

Fixpoint toUpperCase (s : string) : string :=
  match s with
  | EmptyString => EmptyString
  | String c s' => String (upper_char c) (toUpperCase s')
  end.

(** [s.slice(0, n)] *)
Definition slice_to (n : nat) (s : string) : string := substring 0 n s.

(** [xs.slice(-n)] on an array: the last [n] elements, all of them when the
    array is shorter. *)
Definition slice_last {A} (n : nat) (xs : list A) : list A :=
  drop (length xs - n) xs.

Fixpoint string_forallb (p : ascii -> bool) (s : string) : bool :=
  match s with
  | EmptyString => true
  | String c s' => p c && string_forallb p s'
  end.

Section Coercions.
(** The two conversions between numbers and strings are the host's; the
    server's behaviour is stated for whatever they compute. *)
Variable StringToNumber : string -> float.
Variable NumberToString : float -> string.

(** [Number(v)] *)
Definition Number (v : JsVal) : float :=
  match v with
  | JUndefined => PrimFloat.nan
  | JNull => PrimFloat.zero
  | JBool b => if b then PrimFloat.one else PrimFloat.zero
  | JNum x => x
  | JStr s => StringToNumber s
  end.

(** [String(v)] *)
Definition ToString (v : JsVal) : string :=
  match v with
  | JUndefined => "undefined"
  | JNull => "null"
  | JBool b => if b then "true" else "false"
  | JNum x => NumberToString x
  | JStr s => s
  end.
End Coercions.

End Js.
Import Js.

(** ** Data model *)

Record ChatMessage : Type := {
  (* the template string `${Date.now()}-${Math.random()...}` is determined
     by the two readings it is built from *)
  m_id : float * Z;
  m_username : string;
  m_text : string;
  m_at : float
}.

Record RoomState : Type := {
  roomCode : string;
  videoId : JsVal;
  isPlaying : bool;
  currentTime : float;
  lastUpdatedAt : float;
  chat : list ChatMessage
}.

(** [socket.data] *)
Record SocketData : Type := {
  sd_roomCode : option string;
  sd_username : option string
}.

Record SyncPayload : Type := {
  sp_isPlaying : bool;
  sp_currentTime : float;
  sp_serverNow : float
}.

(** Who an emission goes to: [socket.emit], [io.to(room).emit],
    [socket.to(room).emit], or the reply of an HTTP route. *)
Inductive Target : Type :=
| ToSocket (sid : nat)
| ToRoom (room : string)
| ToRoomExcept (room : string) (sid : nat)
| HttpReply.

Inductive Message : Type :=
| JoinError (message : string)
| RoomStateMsg (code : string) (video : JsVal) (sync : SyncPayload)
               (history : list ChatMessage)
| SystemMessage (text : string) (at_ : float)
| VideoChanged (video : JsVal) (by_ : option string) (at_ : float)
| SyncEvent (name : string) (sync : SyncPayload)
| ChatEvent (m : ChatMessage)
| HttpMessage (status : nat) (message : string)
| HttpCreated (code : string) (video : JsVal)
| HttpSnapshot (code : string) (video : JsVal) (playing : bool) (time : float).

(** An emission, with the sockets it reached when it was sent. *)
Record Emission : Type := {
  em_target : Target;
  em_recipients : gset nat;
  em_message : Message
}.

Record World : Type := {
  rooms : gmap string RoomState;
  room_order : list string;
  sockets : gmap nat SocketData;
  members : gmap string (gset nat);
  clock_reads : nat;
  random_draws : nat;
  outbox : list Emission
}.

Definition ROOM_CODE_LENGTH : nat := 6.
Definition ROOM_CHARSET : string := "ABCDEFGHJKLMNPQRSTUVWXYZ23456789".

(** The sockets an emission reaches, given the transport's room membership. *)
Definition recipients (mem : gmap string (gset nat)) (t : Target) : gset nat :=
  match t with
  | ToSocket sid => {[ sid ]}
  | ToRoom room => default ∅ (mem !! room)
  | ToRoomExcept room sid => default ∅ (mem !! room) ∖ {[ sid ]}
  | HttpReply => ∅
  end.

(** ** The monad of handlers *)

Inductive Result (A : Type) : Type :=
| Ok (a : A) (w : World)
| Throw (e : JsError) (w : World).
Arguments Ok {A} a w.
Arguments Throw {A} e w.

Definition M (A : Type) : Type := World -> Result A.

Definition ret {A} (a : A) : M A := fun w => Ok a w.

Definition bind {A B} (c : M A) (k : A -> M B) : M B :=
  fun w => match c w with
           | Ok a w' => k a w'
           | Throw e w' => Throw e w'
           end.

Definition throw {A} (e : JsError) : M A := fun w => Throw e w.

(** [try { c } catch { h }] *)
Definition try_catch {A} (c : M A) (h : JsError -> M A) : M A :=
  fun w => match c w with
           | Ok a w' => Ok a w'
           | Throw e w' => h e w'
           end.

Definition gets {A} (f : World -> A) : M A := fun w => Ok (f w) w.
Definition modify (f : World -> World) : M unit := fun w => Ok tt (f w).

Notation "'let*' x ':=' c 'in' k" := (bind c (fun x => k))
  (at level 10, x name, c at level 100, k at level 200).
Notation "c ';;' k" := (bind c (fun _ => k))
  (at level 100, k at level 200, right associativity).

Definition final_world {A} (r : Result A) : World :=
  match r with Ok _ w => w | Throw _ w => w end.

(** ** Field updates *)

Definition with_rooms (f : gmap string RoomState -> gmap string RoomState)
    (w : World) : World :=
  {| rooms := f (rooms w); room_order := room_order w; sockets := sockets w;
     members := members w; clock_reads := clock_reads w;
     random_draws := random_draws w; outbox := outbox w |}.

Definition with_room_order (f : list string -> list string) (w : World) : World :=
  {| rooms := rooms w; room_order := f (room_order w); sockets := sockets w;
     members := members w; clock_reads := clock_reads w;
     random_draws := random_draws w; outbox := outbox w |}.

Definition with_sockets (f : gmap nat SocketData -> gmap nat SocketData)
    (w : World) : World :=
  {| rooms := rooms w; room_order := room_order w; sockets := f (sockets w);
     members := members w; clock_reads := clock_reads w;
     random_draws := random_draws w; outbox := outbox w |}.

Definition with_members (f : gmap string (gset nat) -> gmap string (gset nat))
    (w : World) : World :=
  {| rooms := rooms w; room_order := room_order w; sockets := sockets w;
     members := f (members w); clock_reads := clock_reads w;
     random_draws := random_draws w; outbox := outbox w |}.

Definition tick_clock (w : World) : World :=
  {| rooms := rooms w; room_order := room_order w; sockets := sockets w;
     members := members w; clock_reads := S (clock_reads w);
     random_draws := random_draws w; outbox := outbox w |}.

Definition tick_random (w : World) : World :=
  {| rooms := rooms w; room_order := room_order w; sockets := sockets w;
     members := members w; clock_reads := clock_reads w;
     random_draws := S (random_draws w); outbox := outbox w |}.

Definition send (e : Emission) (w : World) : World :=
  {| rooms := rooms w; room_order := room_order w; sockets := sockets w;
     members := members w; clock_reads := clock_reads w;
     random_draws := random_draws w; outbox := (outbox w ++ [e])%list |}.

Definition set_videoId (v : JsVal) (s : RoomState) : RoomState :=
  {| roomCode := roomCode s; videoId := v; isPlaying := isPlaying s;
     currentTime := currentTime s; lastUpdatedAt := lastUpdatedAt s;
     chat := chat s |}.

Definition set_isPlaying (b : bool) (s : RoomState) : RoomState :=
  {| roomCode := roomCode s; videoId := videoId s; isPlaying := b;
     currentTime := currentTime s; lastUpdatedAt := lastUpdatedAt s;
     chat := chat s |}.

Definition set_currentTime (t : float) (s : RoomState) : RoomState :=
  {| roomCode := roomCode s; videoId := videoId s; isPlaying := isPlaying s;
     currentTime := t; lastUpdatedAt := lastUpdatedAt s; chat := chat s |}.

Definition set_lastUpdatedAt (t : float) (s : RoomState) : RoomState :=
  {| roomCode := roomCode s; videoId := videoId s; isPlaying := isPlaying s;
     currentTime := currentTime s; lastUpdatedAt := t; chat := chat s |}.

Definition set_chat (l : list ChatMessage) (s : RoomState) : RoomState :=
  {| roomCode := roomCode s; videoId := videoId s; isPlaying := isPlaying s;
     currentTime := currentTime s; lastUpdatedAt := lastUpdatedAt s;
     chat := l |}.

(** ** Room codes *)

(** [String(value || "").trim().toUpperCase()] *)
Definition normalizeRoomCode (NumberToString : float -> string)
    (value : JsVal) : string :=
  toUpperCase (trim (Js.ToString NumberToString (or_else value (JStr "")))).

(** [/^[A-Z0-9]{6}$/.test(code)] *)
Definition isValidRoomCode (code : string) : bool :=
  (String.length code =? 6)%nat
  && string_forallb (fun c => is_upper c || is_digit c) code.

(** [Math.random()] returns a binary64 in the half-open interval from 0 to 1.
    Every such value is [n / 2^1074] for one integer [0 <= n < 2^1074]; the
    random source gives that numerator. *)
Definition RANDOM_SCALE : Z := 2 ^ 1074.

Definition random_ok (n : Z) : Prop := (0 <= n < RANDOM_SCALE)%Z.

(** [Math.floor(r * ROOM_CHARSET.length)]: the charset has 32 symbols, and a
    product by a power of two is exact in binary64, so the floor is the
    integer quotient below. *)
Definition charset_index (n : Z) : Z :=
  (n * Z.of_nat (String.length ROOM_CHARSET) / RANDOM_SCALE)%Z.

(** [ROOM_CHARSET[index]]; [undefined] outside the string. *)
Definition charset_at (index : Z) : option ascii :=
  if (index <? 0)%Z then None else String.get (Z.to_nat index) ROOM_CHARSET.

(** [output += ROOM_CHARSET[index]] *)
Definition append_symbol (output : string) (index : Z) : string :=
  match charset_at index with
  | Some c => output ++ String c EmptyString
  | None => output ++ "undefined"
  end.

(** ** The server *)

(** What the server takes from its host: the successive readings of
    [Date.now()] and of [Math.random()], and the two conversions between
    numbers and strings. *)
Class Host : Type := {
  date_source : nat -> float;
  random_source : nat -> Z;
  StringToNumber : string -> float;
  NumberToString : float -> string
}.

Section Server.
Context {host : Host}.

Definition Date_now : M float :=
  fun w => Ok (date_source (clock_reads w)) (tick_clock w).

Definition Math_random : M Z :=
  fun w => Ok (random_source (random_draws w)) (tick_random w).

Definition emit (t : Target) (m : Message) : M unit :=
  modify (fun w =>
    send {| em_target := t; em_recipients := recipients (members w) t;
            em_message := m |} w).

(** [rooms.has(code)] *)
Definition rooms_has (code : string) : M bool :=
  gets (fun w => bool_decide (is_Some (rooms w !! code))).

(** [rooms.set(code, state)]: a new key goes to the end of the iteration
    order, an existing key keeps its place. *)
Definition rooms_set (code : string) (state : RoomState) : M unit :=
  modify (fun w =>
    with_rooms (insert code state)
      (if bool_decide (is_Some (rooms w !! code)) then w
       else with_room_order (fun o => (o ++ [code])%list) w)).

(** [state.field = v] on the room object stored under [code]; gives back the
    object as it is after the write. *)
Definition assign (code : string) (state : RoomState)
    (f : RoomState -> RoomState) : M RoomState :=
  modify (with_rooms (insert code (f state))) ;; ret (f state).

Definition getOrCreateRoom (code : string) : M RoomState :=
  let* found := gets (fun w => rooms w !! code) in
  match found with
  | Some state => ret state
  | None =>
      let* now := Date_now in
      let state := {| roomCode := code; videoId := JStr "dQw4w9WgXcQ";
                      isPlaying := false; currentTime := PrimFloat.zero;
                      lastUpdatedAt := now; chat := [] |} in
      rooms_set code state ;; ret state
  end.

(** The loop of [generateRoomCode]; [left] is [ROOM_CODE_LENGTH - i]. *)
Fixpoint generateRoomCode_loop (left : nat) (output : string) : M string :=
  match left with
  | O => ret output
  | S left' =>
      let* r := Math_random in
      generateRoomCode_loop left' (append_symbol output (charset_index r))
  end.

Definition generateRoomCode : M string :=
  generateRoomCode_loop ROOM_CODE_LENGTH "".

(** The loop of [getUniqueRoomCode]: [left] is [1000 - attempts]. *)
Fixpoint getUniqueRoomCode_loop (left : nat) : M string :=
  match left with
  | O => throw (Error "Could not generate unique room code")
  | S left' =>
      let* code := generateRoomCode in
      let* taken := rooms_has code in
      if negb taken then ret code else getUniqueRoomCode_loop left'
  end.

Definition getUniqueRoomCode : M string := getUniqueRoomCode_loop 1000.

Definition getSyncedTime (state : RoomState) : M float :=
  if negb (isPlaying state) then ret (currentTime state)
  else
    let* now := Date_now in
    let elapsed := ((now - lastUpdatedAt state) / 1000)%float in
    ret (currentTime state + elapsed)%float.

Definition buildSyncPayload (state : RoomState) : M SyncPayload :=
  let* time := getSyncedTime state in
  let* now := Date_now in
  ret {| sp_isPlaying := isPlaying state; sp_currentTime := time;
         sp_serverNow := now |}.

(** ** The socket handlers *)

(** A property of [socket.data] read as a JavaScript value, and the string it
    holds once it is known to be truthy. *)
Definition js_opt (o : option string) : JsVal :=
  match o with Some s => JStr s | None => JUndefined end.

Definition prop_str (o : option string) : string := default "" o.

Definition socket_data (sid : nat) : M SocketData :=
  gets (fun w =>
    default {| sd_roomCode := None; sd_username := None |} (sockets w !! sid)).

Definition set_socket_data (sid : nat) (d : SocketData) : M unit :=
  modify (with_sockets (insert sid d)).

(** [socket.join(room)] *)
Definition socket_join (sid : nat) (room : string) : M unit :=
  modify (with_members
    (fun mem => <[room := {[ sid ]} ∪ default ∅ (mem !! room)]> mem)).

(** [text?.trim()]: [undefined] on a nullish receiver, a [TypeError] on a
    receiver without a [trim] method. *)
Definition optional_trim (text : JsVal) : M (option string) :=
  match text with
  | JUndefined | JNull => ret None
  | JStr s => ret (Some (trim s))
  | JBool _ | JNum _ => throw (TypeError "text?.trim is not a function")
  end.

Definition on_join_room (sid : nat) (roomCode_in username_in : JsVal) : M unit :=
  let normalizedCode := normalizeRoomCode NumberToString roomCode_in in
  let cleanName := trim (ToString NumberToString (or_else username_in (JStr ""))) in
  if negb (truthy (JStr cleanName)) || negb (isValidRoomCode normalizedCode) then
    emit (ToSocket sid) (JoinError "Invalid room code or username")
  else
    let* has := rooms_has normalizedCode in
    if negb has then
      emit (ToSocket sid) (JoinError "Room does not exist")
    else
      set_socket_data sid {| sd_roomCode := Some normalizedCode;
                             sd_username := Some cleanName |} ;;
      socket_join sid normalizedCode ;;
      let* state := getOrCreateRoom normalizedCode in
      let* sync := buildSyncPayload state in
      emit (ToSocket sid)
        (RoomStateMsg normalizedCode (videoId state) sync
           (slice_last 50 (chat state))) ;;
      let* now := Date_now in
      emit (ToRoom normalizedCode) (SystemMessage (cleanName ++ " joined") now).

Definition on_set_video (sid : nat) (videoId_in : JsVal) : M unit :=
  let* data := socket_data sid in
  if negb (truthy (js_opt (sd_roomCode data))) || negb (truthy videoId_in) then
    ret tt
  else
    let code := prop_str (sd_roomCode data) in
    let* state := getOrCreateRoom code in
    let* state := assign code state (set_videoId videoId_in) in
    let* state := assign code state (set_currentTime PrimFloat.zero) in
    let* state := assign code state (set_isPlaying false) in
    let* now := Date_now in
    let* state := assign code state (set_lastUpdatedAt now) in
    let* at_ := Date_now in
    emit (ToRoom code) (VideoChanged videoId_in (sd_username data) at_).

(** The three sync handlers differ in the event name and in what they write
    to [isPlaying]: [Some b] for play and pause, nothing for seek. *)
Definition on_sync (name : string) (playing : option bool)
    (sid : nat) (currentTime_in : JsVal) : M unit :=
  let* data := socket_data sid in
  if negb (truthy (js_opt (sd_roomCode data))) then ret tt
  else
    let code := prop_str (sd_roomCode data) in
    let* state := getOrCreateRoom code in
    let* state :=
      match playing with
      | Some b => assign code state (set_isPlaying b)
      | None => ret state
      end in
    let* state :=
      assign code state
        (set_currentTime (num_or_zero (Number StringToNumber currentTime_in))) in
    let* now := Date_now in
    let* state := assign code state (set_lastUpdatedAt now) in
    let* sync := buildSyncPayload state in
    emit (ToRoomExcept code sid) (SyncEvent name sync).

Definition on_sync_play : nat -> JsVal -> M unit := on_sync "sync-play" (Some true).
Definition on_sync_pause : nat -> JsVal -> M unit := on_sync "sync-pause" (Some false).
Definition on_sync_seek : nat -> JsVal -> M unit := on_sync "sync-seek" None.

Definition on_chat_message (sid : nat) (text : JsVal) : M unit :=
  let* data := socket_data sid in
  if negb (truthy (js_opt (sd_roomCode data))) then ret tt
  else if negb (truthy (js_opt (sd_username data))) then ret tt
  else
    let* trimmed := optional_trim text in
    if negb (truthy (js_opt trimmed)) then ret tt
    else
      let code := prop_str (sd_roomCode data) in
      let* state := getOrCreateRoom code in
      let* id_time := Date_now in
      let* id_random := Math_random in
      let* at_ := Date_now in
      let message := {| m_id := (id_time, id_random);
                        m_username := prop_str (sd_username data);
                        m_text := slice_to 500 (prop_str trimmed);
                        m_at := at_ |} in
      let* state := assign code state (set_chat (chat state ++ [message])%list) in
      let* state :=
        if (200 <? length (chat state))%nat
        then assign code state (set_chat (slice_last 200 (chat state)))
        else ret state in
      emit (ToRoom code) (ChatEvent message).

Definition on_disconnect (sid : nat) : M unit :=
  let* data := socket_data sid in
  if negb (truthy (js_opt (sd_roomCode data)))
     || negb (truthy (js_opt (sd_username data))) then ret tt
  else
    let* now := Date_now in
    emit (ToRoom (prop_str (sd_roomCode data)))
      (SystemMessage (prop_str (sd_username data) ++ " left") now).

(** ** The two room routes and the heartbeat *)

(** [POST /api/rooms/create]; the argument is [req.body?.videoId]. *)
Definition post_rooms_create (body_videoId : JsVal) : M unit :=
  try_catch
    (let* code := getUniqueRoomCode in
     let requestedVideoId :=
       trim (ToString NumberToString (or_else body_videoId (JStr ""))) in
     let* state := getOrCreateRoom code in
     let* state :=
       if truthy (JStr requestedVideoId) then
         let* state := assign code state (set_videoId (JStr requestedVideoId)) in
         let* state := assign code state (set_currentTime PrimFloat.zero) in
         let* state := assign code state (set_isPlaying false) in
         let* now := Date_now in
         assign code state (set_lastUpdatedAt now)
       else ret state in
     emit HttpReply (HttpCreated code (videoId state)))
    (fun _ => emit HttpReply (HttpMessage 500 "Failed to create room")).

(** [GET /api/rooms/:roomCode]; a path parameter is always a string. *)
Definition get_rooms (param : string) : M unit :=
  let code := normalizeRoomCode NumberToString (JStr param) in
  if negb (isValidRoomCode code) then
    emit HttpReply (HttpMessage 400 "Invalid room code format")
  else
    let* has := rooms_has code in
    if negb has then emit HttpReply (HttpMessage 404 "Room not found")
    else
      let* state := getOrCreateRoom code in
      let* time := getSyncedTime state in
      emit HttpReply (HttpSnapshot code (videoId state) (isPlaying state) time).

(** One tick of the [setInterval] callback: the rooms in insertion order. *)
Fixpoint heartbeat_loop (codes : list string) : M unit :=
  match codes with
  | [] => ret tt
  | code :: rest =>
      let* found := gets (fun w => rooms w !! code) in
      match found with
      | Some state =>
          let* sync := buildSyncPayload state in
          emit (ToRoom code) (SyncEvent "sync-state" sync)
      | None => ret tt
      end ;;
      heartbeat_loop rest
  end.

Definition heartbeat : M unit :=
  let* order := gets room_order in heartbeat_loop order.

(** ** Events *)

(** The socket events whose listener takes its fields out of the payload:
    [({ roomCode, username }) => ...], [({ videoId }) => ...],
    [({ currentTime }) => ...], [({ text }) => ...]. *)
Inductive Listener : Type :=
| OnJoinRoom
| OnSetVideo
| OnSyncPlay
| OnSyncPause
| OnSyncSeek
| OnChatMessage.

(** The first field the parameter pattern of a listener names. *)
Definition first_field (listener : Listener) : string :=
  match listener with
  | OnJoinRoom => "roomCode"
  | OnSetVideo => "videoId"
  | OnSyncPlay | OnSyncPause | OnSyncSeek => "currentTime"
  | OnChatMessage => "text"
  end.

(** A socket event with a payload carries the fields its listener reads, a
    field the payload lacks being [undefined].  [Bare sid listener] is the
    event emitted with no payload at all (or with [null]). *)
Inductive Event : Type :=
| Connect (sid : nat)
| JoinRoom (sid : nat) (roomCode_in username_in : JsVal)
| SetVideo (sid : nat) (videoId_in : JsVal)
| SyncPlay (sid : nat) (currentTime_in : JsVal)
| SyncPause (sid : nat) (currentTime_in : JsVal)
| SyncSeek (sid : nat) (currentTime_in : JsVal)
| ChatMessageEv (sid : nat) (text : JsVal)
| Disconnect (sid : nat)
| PostRoomsCreate (body_videoId : JsVal)
| GetRooms (param : string)
| Heartbeat
| Bare (sid : nat) (listener : Listener).

(** A handler runs only on a connected socket. *)
Definition connected (sid : nat) (c : M unit) : M unit :=
  let* found := gets (fun w => sockets w !! sid) in
  match found with Some _ => c | None => ret tt end.

(** The transport's part of a disconnection: the socket has left its rooms
    when the handler runs, and is gone afterwards. *)
Definition leave_all (sid : nat) : M unit :=
  modify (with_members (fmap (fun s : gset nat => s ∖ {[ sid ]}))).

(** A listener called without a payload: its parameter pattern destructures
    [undefined] before the body, and so before any guard, and that throws
    (for [null] the message names [null]). *)
Definition on_bare (listener : Listener) : M unit :=
  throw (TypeError ("Cannot destructure property '" ++ first_field listener
                    ++ "' of 'undefined' as it is undefined.")).

Definition handle (e : Event) : M unit :=
  match e with
  | Connect sid =>
      let* found := gets (fun w => sockets w !! sid) in
      match found with
      | Some _ => ret tt
      | None => set_socket_data sid {| sd_roomCode := None; sd_username := None |}
      end
  | JoinRoom sid c u => connected sid (on_join_room sid c u)
  | SetVideo sid v => connected sid (on_set_video sid v)
  | SyncPlay sid t => connected sid (on_sync_play sid t)
  | SyncPause sid t => connected sid (on_sync_pause sid t)
  | SyncSeek sid t => connected sid (on_sync_seek sid t)
  | ChatMessageEv sid t => connected sid (on_chat_message sid t)
  | Disconnect sid =>
      connected sid
        (leave_all sid ;; on_disconnect sid ;;
         modify (with_sockets (delete sid)))
  | PostRoomsCreate v => post_rooms_create v
  | GetRooms p => get_rooms p
  | Heartbeat => heartbeat
  | Bare sid listener => connected sid (on_bare listener)
  end.

(** The world after an event; an exception leaves the world as it was when
    it was raised.  Nothing catches the exception of a socket listener, so
    the process ends there; the worlds of a run that goes on past it are a
    superset of the worlds the server can be in. *)
Definition step (w : World) (e : Event) : World := final_world (handle e w).

Definition run (w : World) (es : list Event) : World := foldl step w es.

End Server.

Definition empty_world : World :=
  {| rooms := ∅; room_order := []; sockets := ∅; members := ∅;
     clock_reads := 0; random_draws := 0; outbox := [] |}.


(** ** Vocabulary of the statements *)

Section Vocabulary.
Context {host : Host}.

(** The world after [n] more readings of the clock. *)
Definition ticks (n : nat) (w : World) : World := Nat.iter n tick_clock w.

(** What [buildSyncPayload] returns for [state] when the clock has been read
    [reads] times, and how many readings it makes. *)
Definition sync_payload_at (state : RoomState) (reads : nat) : SyncPayload :=
  if isPlaying state then
    {| sp_isPlaying := true;
       sp_currentTime :=
         (currentTime state
          + (date_source reads - lastUpdatedAt state) / 1000)%float;
       sp_serverNow := date_source (S reads) |}
  else
    {| sp_isPlaying := false; sp_currentTime := currentTime state;
       sp_serverNow := date_source reads |}.

Definition payload_reads (state : RoomState) : nat :=
  if isPlaying state then 2 else 1.

(** A participant is joined when its [socket.data] names a room. *)
Definition joined (data : SocketData) : bool := truthy (js_opt (sd_roomCode data)).

Definition joined_at (w : World) (sid : nat) : bool :=
  match sockets w !! sid with Some data => joined data | None => false end.

(** [String(username || "").trim()], the display name a join request asks for. *)
Definition clean_name (username_in : JsVal) : string :=
  trim (Js.ToString NumberToString (or_else username_in (JStr ""))).

(** A chat text is missing when it is absent or blank. *)
Definition text_missing (text : JsVal) : bool :=
  match text with
  | JUndefined | JNull => true
  | JStr s => trim s =? ""
  | JBool _ | JNum _ => false
  end.

(** The precondition column of the protocol table. *)
Definition precondition (w : World) (e : Event) : bool :=
  match e with
  | JoinRoom sid c u =>
      negb (clean_name u =? "")
      && isValidRoomCode (normalizeRoomCode NumberToString c)
      && bool_decide (is_Some (rooms w !! normalizeRoomCode NumberToString c))
  | SetVideo sid v => joined_at w sid && truthy v
  | SyncPlay sid _ | SyncPause sid _ | SyncSeek sid _ => joined_at w sid
  | ChatMessageEv sid text => joined_at w sid && negb (text_missing text)
  | Disconnect sid => joined_at w sid
  | Connect _ | PostRoomsCreate _ | GetRooms _ | Heartbeat => true
  | Bare _ _ => false
  end.

Definition mutating (e : Event) : bool :=
  match e with
  | SetVideo _ _ | SyncPlay _ _ | SyncPause _ _ | SyncSeek _ _
  | ChatMessageEv _ _ => true
  | Bare _ listener =>
      match listener with OnJoinRoom => false | _ => true end
  | _ => false
  end.

(** Whether the event came with a payload for its listener to destructure. *)
Definition carries_payload (e : Event) : bool :=
  match e with
  | Bare _ _ => false
  | _ => true
  end.

(** The world after [n] more draws from the random source. *)
Definition draws (n : nat) (w : World) : World := Nat.iter n tick_random w.

(** What the loop of [generateRoomCode] appends to [output] in [len]
    iterations when the random source has been drawn [start] times. *)
Fixpoint symbols (start len : nat) (output : string) : string :=
  match len with
  | O => output
  | S len' =>
      symbols (S start) len'
        (append_symbol output (charset_index (random_source start)))
  end.

(** The code tried at attempt [k] of [getUniqueRoomCode]. *)
Definition candidate (w : World) (k : nat) : string :=
  symbols (random_draws w + ROOM_CODE_LENGTH * k) ROOM_CODE_LENGTH "".

(** The message the chat handler builds from a text when the clock has been
    read [reads] times and the random source drawn [drawn] times. *)
Definition chat_message_at (data : SocketData) (text : string)
    (reads drawn : nat) : ChatMessage :=
  {| m_id := (date_source reads, random_source drawn);
     m_username := prop_str (sd_username data);
     m_text := slice_to 500 (trim text);
     m_at := date_source (S reads) |}.

(** A post is a chat message event: who sends it and what text it carries.
    The messages built from a sequence of posts handled one after another,
    given the data of the connected sockets. *)
Fixpoint chat_messages_at (socks : gmap nat SocketData)
    (posts : list (nat * string)) (reads drawn : nat) : list ChatMessage :=
  match posts with
  | [] => []
  | (sid, text) :: rest =>
      chat_message_at
        (default {| sd_roomCode := None; sd_username := None |} (socks !! sid))
        text reads drawn
      :: chat_messages_at socks rest (2 + reads) (S drawn)
  end.

(** A post meets the precondition of [chat-message] for the room [code]: its
    sender is joined to that room and its text is not blank. *)
Definition may_post (socks : gmap nat SocketData) (code : string)
    (post : nat * string) : Prop :=
  exists data name,
    socks !! post.1 = Some data /\
    sd_roomCode data = Some code /\
    sd_username data = Some name /\ name <> "" /\
    trim post.2 <> "".

Definition post_event (post : nat * string) : Event :=
  ChatMessageEv post.1 (JStr post.2).

End Vocabulary.

(** [log.push(m)] followed by the cap of the chat handler. *)
Definition chat_push (log : list ChatMessage) (m : ChatMessage) : list ChatMessage :=
  if (200 <? length (log ++ [m]))%nat then slice_last 200 (log ++ [m])%list
  else (log ++ [m])%list.

(** A join error, sent to the requesting socket alone. *)
Definition join_error (sid : nat) (message : string) : Emission :=
  {| em_target := ToSocket sid; em_recipients := {[ sid ]};
     em_message := JoinError message |}.

Definition http_reply (m : Message) : Emission :=
  {| em_target := HttpReply; em_recipients := ∅; em_message := m |}.

(** How one event may change the registry: not at all, or by writing one
    room whose chat log is the old one, possibly with one message pushed. *)
Definition rooms_step (w w' : World) : Prop :=
  rooms w' = rooms w \/
  exists code st',
    rooms w' = <[code := st']> (rooms w) /\
    (chat st' = default [] (chat <$> rooms w !! code) \/
     exists m, chat st' = chat_push (default [] (chat <$> rooms w !! code)) m).

(** How an event may change the connections: not at all; a [join-room]
    writes the data of its socket, which is joined from then on; a connection
    adds a socket with empty data; a disconnection drops its socket. *)
Definition sockets_step (w : World) (e : Event) (w' : World) : Prop :=
  sockets w' = sockets w \/
  (exists sid c u data,
     e = JoinRoom sid c u /\ joined data = true /\
     sockets w' = <[sid := data]> (sockets w)) \/
  (exists sid,
     e = Connect sid /\ sockets w !! sid = None /\
     sockets w' = <[sid := {| sd_roomCode := None; sd_username := None |}]>
                    (sockets w)) \/
  exists sid, e = Disconnect sid /\ sockets w' = delete sid (sockets w).

Definition chat_bounded (w : World) : Prop :=
  forall code st, rooms w !! code = Some st -> length (chat st) <= 200.

(** What is left after [trimStart] does not begin with white space. *)
Definition starts_clean (s : string) : Prop :=
  match s with
  | EmptyString => True
  | String c _ => is_white_space c = false
  end.

(** A string of white space only. *)
Definition all_white (s : string) : bool := string_forallb is_white_space s.

Fixpoint string_mem (c : ascii) (s : string) : bool :=
  match s with
  | EmptyString => false
  | String c' s' => Ascii.eqb c c' || string_mem c s'
  end.

(** Membership in the 32-symbol alphabet of generated codes. *)
Definition in_charset (c : ascii) : bool := string_mem c ROOM_CHARSET.

(** ** A host to run the model on

    The clock advances by one second at every reading; the random source
    cycles through the 32 symbol indexes; no string reads as a number. *)

Fixpoint float_of_nat (n : nat) : float :=
  match n with
  | O => PrimFloat.zero
  | S k => (float_of_nat k + 1)%float
  end.

Definition sample_host : Host :=
  {| date_source := fun n => (1700000000000 + 1000 * float_of_nat n)%float;
     random_source := fun n => (Z.of_nat (n mod 32) * (RANDOM_SCALE / 32))%Z;
     StringToNumber := fun _ => PrimFloat.nan;
     NumberToString := fun _ => "NaN" |}.

(** A host whose random source is stuck: every generated code is the same. *)
Definition stuck_host : Host :=
  {| date_source := fun n => float_of_nat n;
     random_source := fun _ => 0%Z;
     StringToNumber := fun _ => PrimFloat.nan;
     NumberToString := fun _ => "NaN" |}.

(** ** A sample session

    Two rooms are created (the sample host names them [ABCDEF] and
    [GHJKLM]), two sockets connect, and the first joins [ABCDEF]. *)

Definition sample_room : World :=
  run (host := sample_host) empty_world
    [PostRoomsCreate (JStr "v1"); PostRoomsCreate JUndefined;
     Connect 1; Connect 2; JoinRoom 1 (JStr " abcdef ") (JStr "Ann")].

Definition sample_data : SocketData :=
  {| sd_roomCode := Some "ABCDEF"; sd_username := Some "Ann" |}.

Definition sample_state : RoomState :=
  {| roomCode := "ABCDEF"; videoId := JStr "v1"; isPlaying := false;
     currentTime := PrimFloat.zero; lastUpdatedAt := 1700000001000%float;
     chat := [] |}.

(** ** Invariants of the reachable worlds *)

(** Every room is stored under its own code. *)
Definition keyed (w : World) : Prop :=
  forall code st, rooms w !! code = Some st -> roomCode st = code.

(** The iteration order lists every registered code once, and nothing else. *)
Definition ordered (w : World) : Prop :=
  NoDup (room_order w) /\
  forall code, code ∈ room_order w <-> is_Some (rooms w !! code).

(** A socket whose data names a room names a registered room by a
    well-formed code, has a user name, and is in the transport's room. *)
Definition grounded (w : World) : Prop :=
  forall sid data code,
    sockets w !! sid = Some data ->
    sd_roomCode data = Some code ->
    isValidRoomCode code = true /\
    is_Some (rooms w !! code) /\
    (exists name, sd_username data = Some name /\ name <> "") /\
    sid ∈ default ∅ (members w !! code).

(** The transport's rooms hold connected sockets only. *)
Definition members_connected (w : World) : Prop :=
  forall code sid,
    sid ∈ default ∅ (members w !! code) -> is_Some (sockets w !! sid).

Definition consistent (w : World) : Prop :=
  keyed w /\ ordered w /\ grounded w /\ members_connected w.

(** Every registered code is made of six symbols of the alphabet. *)
Definition codes_generated (w : World) : Prop :=
  forall code, is_Some (rooms w !! code) ->
    String.length code = 6 /\ string_forallb in_charset code = true.

(** The room [getOrCreateRoom] makes for an unknown code. *)
Definition fresh_room (code : string) (now : float) : RoomState :=
  {| roomCode := code; videoId := JStr "dQw4w9WgXcQ"; isPlaying := false;
     currentTime := PrimFloat.zero; lastUpdatedAt := now; chat := [] |}.

(** Two worlds with the same registry, connections and transport rooms. *)
Definition same_core (w w' : World) : Prop :=
  rooms w' = rooms w /\ room_order w' = room_order w /\
  sockets w' = sockets w /\ members w' = members w.

(** The join handler accepts a request when it answers the socket with the
    room's state, which the notice to the room follows; the snapshot route
    accepts a lookup when it answers with a snapshot. *)
Definition join_accepted (sid : nat) (w w' : World) : Prop :=
  exists code vid sync history notice,
    outbox w' =
      (outbox w ++
       [{| em_target := ToSocket sid; em_recipients := {[ sid ]};
           em_message := RoomStateMsg code vid sync history |};
        notice])%list.

Definition lookup_accepted (w w' : World) : Prop :=
  exists code vid playing time,
    outbox w' =
      (outbox w ++ [http_reply (HttpSnapshot code vid playing time)])%list.

(** Six symbols of the 32-symbol alphabet. *)
Definition in_alphabet (code : string) : Prop :=
  String.length code = 6 /\ string_forallb in_charset code = true.

(** The socket an event comes from. *)
Definition event_sender (e : Event) : option nat :=
  match e with
  | Connect sid | JoinRoom sid _ _ | SetVideo sid _ | SyncPlay sid _
  | SyncPause sid _ | SyncSeek sid _ | ChatMessageEv sid _ | Disconnect sid
  | Bare sid _ =>
      Some sid
  | PostRoomsCreate _ | GetRooms _ | Heartbeat => None
  end.

Section Steps.
Context {host : Host}.

(** What an event can do to the registry, the connections and the
    transport's rooms. *)
Inductive core_step (w : World) (e : Event) (w' : World) : Prop :=
| CSame :
    same_core w w' -> core_step w e w'
| CStore (sid : nat) (data : SocketData) (code : string) (st st' : RoomState) :
    mutating e = true ->
    event_sender e = Some sid ->
    sockets w !! sid = Some data ->
    sd_roomCode data = Some code ->
    rooms w !! code = Some st ->
    roomCode st' = roomCode st ->
    rooms w' = <[code := st']> (rooms w) ->
    room_order w' = room_order w ->
    sockets w' = sockets w ->
    members w' = members w ->
    core_step w e w'
| CCreate (v : JsVal) (code : string) (st' : RoomState) (k : nat) :
    e = PostRoomsCreate v ->
    code = candidate w k ->
    rooms w !! code = None ->
    roomCode st' = code ->
    rooms w' = <[code := st']> (rooms w) ->
    room_order w' = (room_order w ++ [code])%list ->
    sockets w' = sockets w ->
    members w' = members w ->
    core_step w e w'
| CConnect (sid : nat) :
    e = Connect sid ->
    sockets w !! sid = None ->
    rooms w' = rooms w ->
    room_order w' = room_order w ->
    sockets w' = <[sid := {| sd_roomCode := None; sd_username := None |}]>
                   (sockets w) ->
    members w' = members w ->
    core_step w e w'
| CJoin (sid : nat) (c u : JsVal) (code name : string) :
    e = JoinRoom sid c u ->
    code = normalizeRoomCode NumberToString c ->
    name = clean_name u ->
    name <> "" ->
    isValidRoomCode code = true ->
    is_Some (rooms w !! code) ->
    is_Some (sockets w !! sid) ->
    rooms w' = rooms w ->
    room_order w' = room_order w ->
    sockets w' = <[sid := {| sd_roomCode := Some code;
                             sd_username := Some name |}]> (sockets w) ->
    members w' = <[code := {[ sid ]} ∪ default ∅ (members w !! code)]> (members w) ->
    core_step w e w'
| CDisconnect (sid : nat) :
    e = Disconnect sid ->
    is_Some (sockets w !! sid) ->
    rooms w' = rooms w ->
    room_order w' = room_order w ->
    sockets w' = delete sid (sockets w) ->
    members w' = (fun s : gset nat => s ∖ {[ sid ]}) <$> members w ->
    core_step w e w'.

(** One beat per listed room that is registered: to the whole room, with the
    room's flag, and with a time that is the stored one for a paused room and
    the stored one plus the time elapsed at some reading of this tick for a
    playing one. *)
Definition beat_of (w : World) (code : string) (e : Emission) : Prop :=
  exists st sync,
    rooms w !! code = Some st /\
    e = {| em_target := ToRoom code;
           em_recipients := default ∅ (members w !! code);
           em_message := SyncEvent "sync-state" sync |} /\
    sp_isPlaying sync = isPlaying st /\
    (isPlaying st = false -> sp_currentTime sync = currentTime st) /\
    (isPlaying st = true ->
     exists reads, clock_reads w <= reads /\
       sp_currentTime sync =
         (currentTime st + (date_source reads - lastUpdatedAt st) / 1000)%float).

(** The worlds the server can be in: those some sequence of events leads to
    from the empty one. *)
Definition reachable (w : World) : Prop := exists es, w = run empty_world es.

End Steps.

(** ** Configuration: the front-end origin and the local environment file *)

Definition is_slash (c : ascii) : bool := Ascii.eqb c "/".

(** [text.replace(/\/+$/, "")]: the text without its trailing slashes. *)
Fixpoint stripTrailingSlashes (s : string) : string :=
  match s with
  | EmptyString => EmptyString
  | String c s' =>
      let t := stripTrailingSlashes s' in
      if is_slash c && (t =? "") then EmptyString else String c t
  end.

Definition normalizeOrigin (NumberToString : float -> string)
    (value : JsVal) : string :=
  let text := trim (Js.ToString NumberToString (or_else value (JStr ""))) in
  if negb (truthy (JStr text)) || (text =? "*") then "*"
  else stripTrailingSlashes text.

(** [s.indexOf("=")]; [None] stands for -1. *)
Fixpoint indexOfEq (s : string) : option nat :=
  match s with
  | EmptyString => None
  | String c s' =>
      if Ascii.eqb c "=" then Some 0
      else match indexOfEq s' with Some i => Some (S i) | None => None end
  end.

(** [s.startsWith("#")] *)
Definition startsWithHash (s : string) : bool :=
  match s with
  | String c _ => Ascii.eqb c "#"
  | EmptyString => false
  end.

(** [s.slice(n)] *)
Fixpoint slice_from (n : nat) (s : string) : string :=
  match n, s with
  | O, _ => s
  | S n', String _ s' => slice_from n' s'
  | S _, EmptyString => EmptyString
  end.

(** [text.split(/\r?\n/)]: a line ends at a line feed, and a carriage return
    right before it belongs to the separator. *)
Fixpoint splitLines (s : string) : list string :=
  match s with
  | EmptyString => [EmptyString]
  | String c s' =>
      if Ascii.eqb c "010" then EmptyString :: splitLines s'
      else if Ascii.eqb c "013"
              && match s' with String c' _ => Ascii.eqb c' "010" | _ => false end
      then splitLines s'
      else match splitLines s' with
           | line :: rest => String c line :: rest
           | [] => [String c EmptyString]
           end
  end.

(** The names [process.env] inherits from [Object.prototype]: reading one
    that is not a variable of the environment gives a function or an object,
    which is truthy. *)
Definition inherited_names : list string :=
  ["constructor"; "__defineGetter__"; "__defineSetter__"; "hasOwnProperty";
   "__lookupGetter__"; "__lookupSetter__"; "isPrototypeOf";
   "propertyIsEnumerable"; "toString"; "valueOf"; "__proto__";
   "toLocaleString"].

(** Whether [process.env[key]] is truthy: the variable is set to a non-empty
    string, or it is not set and the name is an inherited one. *)
Definition env_truthy (env : gmap string string) (key : string) : bool :=
  match env !! key with
  | Some v => negb (v =? "")
  | None => existsb (String.eqb key) inherited_names
  end.

(** The body of the inner loop of [loadLocalEnvFile], for one line. *)
Definition applyEnvLine (env : gmap string string) (line : string)
    : gmap string string :=
  let trimmed := trim line in
  if negb (truthy (JStr trimmed)) || startsWithHash trimmed then env
  else
    match indexOfEq trimmed with
    | None | Some O => env
    | Some eqIndex =>
        let key := trim (slice_to eqIndex trimmed) in
        let rawValue := trim (slice_from (S eqIndex) trimmed) in
        if negb (truthy (JStr key)) || env_truthy env key then env
        else <[key := rawValue]> env
    end.

(** One candidate file: skipped when it does not exist. *)
Definition loadEnvFile (env : gmap string string) (file : option string)
    : gmap string string :=
  match file with
  | None => env
  | Some content => foldl applyEnvLine env (splitLines content)
  end.

(** [loadLocalEnvFile], given what the candidate paths hold. *)
Definition loadLocalEnvFile (env : gmap string string)
    (files : list (option string)) : gmap string string :=
  foldl loadEnvFile env files.

(** The last character of a string. *)
Fixpoint last_char (s : string) : option ascii :=
  match s with
  | EmptyString => None
  | String c EmptyString => Some c
  | String _ s' => last_char s'
  end.

(** Whether a character occurs in a string is [string_mem]; a key holds no
    equals sign. *)
Definition no_equals (s : string) : bool := negb (string_mem "=" s).

(** ** The video search proxy

    What the upstream API sends back is a JSON value; reading a property
    that is not there gives [undefined].  The names read here ([id],
    [videoId], [snippet], [items], ...) are no properties of arrays, strings,
    numbers or booleans, nor inherited by objects. *)

#[local] Unset Elimination Schemes.
Inductive Json : Type :=
| JsUndefined
| JsNull
| JsBool (b : bool)
| JsNumber (x : float)
| JsString (s : string)
| JsArray (items : list Json)
| JsObject (fields : list (string * Json)).
#[local] Set Elimination Schemes.

Definition json_truthy (v : Json) : bool :=
  match v with
  | JsUndefined | JsNull => false
  | JsBool b => b
  | JsNumber x => num_truthy x
  | JsString s => negb (s =? "")
  | JsArray _ | JsObject _ => true
  end.

(** [a || b] *)
Definition json_or (a b : Json) : Json := if json_truthy a then a else b.

Fixpoint assoc (name : string) (fields : list (string * Json)) : Json :=
  match fields with
  | [] => JsUndefined
  | (name', v) :: rest => if name =? name' then v else assoc name rest
  end.

(** [v?.name] *)
Definition prop (v : Json) (name : string) : Json :=
  match v with
  | JsObject fields => assoc name fields
  | _ => JsUndefined
  end.

(** [v.name], a [TypeError] ([None]) on [null] and [undefined]. *)
Definition prop_strict (v : Json) (name : string) : option Json :=
  match v with
  | JsUndefined | JsNull => None
  | _ => Some (prop v name)
  end.

(** [v?.[0]] *)
Definition index0 (v : Json) : Json :=
  match v with
  | JsArray (x :: _) => x
  | JsString (String c _) => JsString (String c EmptyString)
  | JsObject fields => assoc "0" fields
  | _ => JsUndefined
  end.

(** The receiver of [.map]: an array, anything else being a [TypeError]. *)
Definition as_array (v : Json) : option (list Json) :=
  match v with
  | JsArray items => Some items
  | _ => None
  end.

Record VideoItem : Type := {
  vi_videoId : Json;
  vi_channelId : Json;
  vi_title : Json;
  vi_channelTitle : Json;
  vi_thumbnail : Json
}.

Definition mapItem (item : Json) : VideoItem :=
  {| vi_videoId := prop (prop item "id") "videoId";
     vi_channelId := json_or (prop (prop item "snippet") "channelId") (JsString "");
     vi_title := json_or (prop (prop item "snippet") "title") (JsString "");
     vi_channelTitle :=
       json_or (prop (prop item "snippet") "channelTitle") (JsString "");
     vi_thumbnail :=
       json_or
         (prop (prop (prop (prop item "snippet") "thumbnails") "medium") "url")
         (json_or
            (prop (prop (prop (prop item "snippet") "thumbnails") "default") "url")
            (JsString "")) |}.

Definition mapYouTubeItems (items : list Json) : list VideoItem :=
  List.filter (fun item => json_truthy (vi_videoId item)) (List.map mapItem items).

(** A request to the upstream API and what comes back: the fetch is
    rejected, or a response arrives with a status and a body ([None] when
    the body is not JSON). *)
Record Request : Type := {
  rq_url : string;
  rq_params : list (string * Json)
}.

Inductive Upstream : Type :=
| Rejected
| Responded (status : nat) (body : option Json).

(** [response.ok] *)
Definition status_ok (status : nat) : bool :=
  (200 <=? status)%nat && (status <=? 299)%nat.

Inductive Reply : Type :=
| ReplyMessage (status : nat) (message : Json)
| ReplyResults (results : list VideoItem) (source : option string).

(** [try { ... } catch { 502 }]: [None] is a thrown exception. *)
Definition or_unavailable (r : list Request * option Reply)
    : list Request * Reply :=
  (r.1, default (ReplyMessage 502 (JsString "YouTube API unavailable")) r.2).

(** The reply to an upstream response that is not ok. *)
Definition upstream_error (status : nat) (body : option Json)
    (fallback : string) : Reply :=
  let errorData := default (JsObject []) body in
  ReplyMessage (if (status =? 403)%nat then 429 else 502)
    (json_or (prop (prop errorData "error") "message") (JsString fallback)).

(** [mapYouTubeItems(data.items || [])] on the body of an ok response. *)
Definition items_of (body : option Json) : option (list VideoItem) :=
  match body with
  | None => None
  | Some data =>
      match prop_strict data "items" with
      | None => None
      | Some items =>
          match as_array (json_or items (JsArray [])) with
          | None => None
          | Some arr => Some (mapYouTubeItems arr)
          end
      end
  end.

(** [item.videoId !== videoId] *)
Definition other_video (videoId : string) (item : VideoItem) : bool :=
  match vi_videoId item with
  | JsString s => negb (s =? videoId)
  | _ => true
  end.

Definition search_request (q key : string) : Request :=
  {| rq_url := "https://www.googleapis.com/youtube/v3/search";
     rq_params := [("part", JsString "snippet"); ("type", JsString "video");
                   ("maxResults", JsString "12"); ("q", JsString q);
                   ("key", JsString key)] |}.

Definition details_request (videoId key : string) : Request :=
  {| rq_url := "https://www.googleapis.com/youtube/v3/videos";
     rq_params := [("part", JsString "snippet"); ("id", JsString videoId);
                   ("key", JsString key)] |}.

Definition channel_request (channelId : Json) (key : string) : Request :=
  {| rq_url := "https://www.googleapis.com/youtube/v3/search";
     rq_params := [("part", JsString "snippet"); ("type", JsString "video");
                   ("maxResults", JsString "20"); ("channelId", channelId);
                   ("order", JsString "date"); ("key", JsString key)] |}.

Definition related_request (videoId key : string) : Request :=
  {| rq_url := "https://www.googleapis.com/youtube/v3/search";
     rq_params := [("part", JsString "snippet"); ("type", JsString "video");
                   ("maxResults", JsString "20");
                   ("relatedToVideoId", JsString videoId);
                   ("key", JsString key)] |}.

Section Proxy.
Context {host : Host}.
(** [YOUTUBE_API_KEY], and the upstream's answer to each request. *)
Variable YOUTUBE_API_KEY : option string.
Variable fetch : Request -> Upstream.

(** [GET /api/youtube/search]: the requests made and the reply.  A query
    parameter is a string, or absent. *)
Definition get_youtube_search (query_q : option string) : list Request * Reply :=
  let q :=
    trim (Js.ToString NumberToString (or_else (js_opt query_q) (JStr ""))) in
  if negb (truthy (JStr q)) then
    ([], ReplyMessage 400 (JsString "Query is required"))
  else if negb (truthy (js_opt YOUTUBE_API_KEY)) then
    ([], ReplyMessage 500 (JsString "YOUTUBE_API_KEY is missing on backend"))
  else
    let endpoint := search_request q (prop_str YOUTUBE_API_KEY) in
    or_unavailable
      ([endpoint],
       match fetch endpoint with
       | Rejected => None
       | Responded status body =>
           if negb (status_ok status) then
             Some (upstream_error status body "YouTube API request failed")
           else
             match items_of body with
             | None => None
             | Some results => Some (ReplyResults results None)
             end
       end).

(** The first step of the related route: the channel to look into. *)
Definition related_channel (videoId requestedChannelId : string)
    : list Request * option Json :=
  if truthy (JStr requestedChannelId) then ([], Some (JsString requestedChannelId))
  else
    let endpoint := details_request videoId (prop_str YOUTUBE_API_KEY) in
    ([endpoint],
     match fetch endpoint with
     | Rejected => None
     | Responded status body =>
         if status_ok status then
           match body with
           | None => None
           | Some data =>
               Some (json_or
                       (prop (prop (index0 (prop data "items")) "snippet")
                          "channelId")
                       (JsString ""))
           end
         else Some (JsString requestedChannelId)
     end).

(** The second step: the channel's videos; [Some None] when there is
    nothing to return from this step. *)
Definition related_from_channel (videoId : string) (channelId : Json)
    : list Request * option (option Reply) :=
  if json_truthy channelId then
    let endpoint := channel_request channelId (prop_str YOUTUBE_API_KEY) in
    ([endpoint],
     match fetch endpoint with
     | Rejected => None
     | Responded status body =>
         if status_ok status then
           match items_of body with
           | None => None
           | Some results =>
               let channelResults := List.filter (other_video videoId) results in
               if (0 <? length channelResults)%nat
               then Some (Some (ReplyResults channelResults (Some "channel")))
               else Some None
           end
         else Some None
     end)
  else ([], Some None).

(** The fallback. *)
Definition related_fallback (videoId : string) : list Request * option Reply :=
  let endpoint := related_request videoId (prop_str YOUTUBE_API_KEY) in
  ([endpoint],
   match fetch endpoint with
   | Rejected => None
   | Responded status body =>
       if negb (status_ok status) then
         Some (upstream_error status body "YouTube related API failed")
       else
         match items_of body with
         | None => None
         | Some results =>
             Some (ReplyResults (List.filter (other_video videoId) results)
                     (Some "related-fallback"))
         end
   end).

(** [GET /api/youtube/related] *)
Definition get_youtube_related (query_videoId query_channelId : option string)
    : list Request * Reply :=
  let videoId :=
    trim (Js.ToString NumberToString
            (or_else (js_opt query_videoId) (JStr ""))) in
  let requestedChannelId :=
    trim (Js.ToString NumberToString
            (or_else (js_opt query_channelId) (JStr ""))) in
  if negb (truthy (JStr videoId)) then
    ([], ReplyMessage 400 (JsString "videoId is required"))
  else if negb (truthy (js_opt YOUTUBE_API_KEY)) then
    ([], ReplyMessage 500 (JsString "YOUTUBE_API_KEY is missing on backend"))
  else
    or_unavailable
      (let (requests1, channel) := related_channel videoId requestedChannelId in
       match channel with
       | None => (requests1, None)
       | Some channelId =>
           let (requests2, found) := related_from_channel videoId channelId in
           match found with
           | None => ((requests1 ++ requests2)%list, None)
           | Some (Some reply) => ((requests1 ++ requests2)%list, Some reply)
           | Some None =>
               let (requests3, reply) := related_fallback videoId in
               ((requests1 ++ requests2 ++ requests3)%list, reply)
           end
       end).

End Proxy.

(** ** Samples for the proxy and the configuration *)

Definition sample_video (id channel : string) : Json :=
  JsObject
    [("id", JsObject [("kind", JsString "youtube#video"); ("videoId", JsString id)]);
     ("snippet",
      JsObject
        [("channelId", JsString channel); ("title", JsString "A title");
         ("thumbnails",
          JsObject [("default", JsObject [("url", JsString "d.jpg")])])])].

(** A listing of two videos, with an entry that is no video in between. *)
Definition sample_items : list Json :=
  [sample_video "v1" "c1"; JsObject [("id", JsObject [])]; sample_video "v2" "c1"].

(** An upstream that lists the same videos whatever it is asked. *)
Definition sample_fetch (_ : Request) : Upstream :=
  Responded 200 (Some (JsObject [("items", JsArray sample_items)])).

(** An upstream that is out of quota for channel listings. *)
Definition quota_fetch (r : Request) : Upstream :=
  if json_truthy (assoc "channelId" (rq_params r)) then Responded 403 None
  else Responded 200 (Some (JsObject [("items", JsArray sample_items)])).

Definition sample_env : gmap string string := {[ "PORT" := "4000" ]}.

(** Two lines: ["PORT=9"] and ["KEY=v"]. *)
Definition sample_env_file : string := "PORT=9" ++ String "010" "KEY=v".

(** * Properties *)

(** ** Characters and strings *)

Ltac bool_to_prop :=
  repeat match goal with
  | H : _ && _ = true |- _ => apply andb_prop in H; destruct H
  | H : _ || _ = true |- _ => apply orb_prop in H; destruct H
  | H : (_ <=? _)%nat = true |- _ => apply Nat.leb_le in H
  | H : (_ =? _)%nat = true |- _ => apply Nat.eqb_eq in H
  end.

Lemma code_char_not_white (c : ascii) :
  is_upper c || is_digit c = true -> is_white_space c = false.
Proof.
  unfold is_upper, is_digit, is_white_space. intros H.
  apply not_true_iff_false. intros W. bool_to_prop; lia.
Qed.

Lemma code_char_not_lower (c : ascii) :
  is_upper c || is_digit c = true -> is_lower c = false.
Proof.
  unfold is_upper, is_digit, is_lower. intros H.
  apply not_true_iff_false. intros W. bool_to_prop; lia.
Qed.

Lemma truthy_JStr (s : string) : s <> "" -> truthy (JStr s) = true.
Proof.
  intros H. simpl. destruct (String.eqb_spec s ""); [contradiction | reflexivity].
Qed.

Lemma string_forallb_impl (p q : ascii -> bool) (s : string) :
  (forall c, p c = true -> q c = true) ->
  string_forallb p s = true -> string_forallb q s = true.
Proof.
  intros Hpq. induction s as [|c s IH]; simpl; [reflexivity|].
  intros H. apply andb_prop in H as [Hc Hs].
  rewrite (Hpq _ Hc), (IH Hs). reflexivity.
Qed.

Lemma trimEnd_fixed (s : string) :
  string_forallb (fun c => negb (is_white_space c)) s = true -> trimEnd s = s.
Proof.
  induction s as [|c s IH]; simpl; [reflexivity|].
  intros H. apply andb_prop in H as [Hc Hs].
  apply negb_true_iff in Hc. rewrite Hc, (IH Hs). reflexivity.
Qed.

Lemma trimStart_fixed (s : string) :
  string_forallb (fun c => negb (is_white_space c)) s = true -> trimStart s = s.
Proof.
  destruct s as [|c s]; simpl; [reflexivity|].
  intros H. apply andb_prop in H as [Hc _].
  apply negb_true_iff in Hc. rewrite Hc. reflexivity.
Qed.

Lemma toUpperCase_fixed (s : string) :
  string_forallb (fun c => negb (is_lower c)) s = true -> toUpperCase s = s.
Proof.
  induction s as [|c s IH]; simpl; [reflexivity|].
  intros H. apply andb_prop in H as [Hc Hs].
  apply negb_true_iff in Hc. unfold upper_char. rewrite Hc, (IH Hs). reflexivity.
Qed.

Lemma valid_code_chars (code : string) :
  isValidRoomCode code = true ->
  string_forallb (fun c => is_upper c || is_digit c) code = true.
Proof. unfold isValidRoomCode. intros H. apply andb_prop in H as [_ H]. exact H. Qed.

Lemma valid_code_length (code : string) :
  isValidRoomCode code = true -> String.length code = 6.
Proof.
  unfold isValidRoomCode. intros H. apply andb_prop in H as [H _].
  apply Nat.eqb_eq in H. exact H.
Qed.

Lemma valid_code_nonempty (code : string) : isValidRoomCode code = true -> code <> "".
Proof. intros H E. apply valid_code_length in H. subst code. discriminate H. Qed.

(** A well-formed code is a fixed point of the normalisation. *)
Lemma normalize_valid (n2s : float -> string) (code : string) :
  isValidRoomCode code = true -> normalizeRoomCode n2s (JStr code) = code.
Proof.
  intros H. unfold normalizeRoomCode, or_else.
  rewrite (truthy_JStr _ (valid_code_nonempty _ H)). simpl Js.ToString.
  pose proof (valid_code_chars _ H) as Hc.
  unfold trim. rewrite trimStart_fixed, trimEnd_fixed, toUpperCase_fixed; try reflexivity.
  - eapply string_forallb_impl; [|exact Hc].
    intros c Hcc. rewrite (code_char_not_lower _ Hcc). reflexivity.
  - eapply string_forallb_impl; [|exact Hc].
    intros c Hcc. rewrite (code_char_not_white _ Hcc). reflexivity.
  - eapply string_forallb_impl; [|exact Hc].
    intros c Hcc. rewrite (code_char_not_white _ Hcc). reflexivity.
Qed.

Section Facts.
Context {host : Host}.

(** C1. For every room state and every reading [now] of the clock, the sync
    clock returns [currentTime] unchanged (and does not read the clock) when
    the room is paused, and [currentTime + (now - lastUpdatedAt) / 1000]
    (the elapsed milliseconds turned into seconds) when it is playing. *)
Theorem getSyncedTime_effective (state : RoomState) (w : World) :
  let now := date_source (clock_reads w) in
  getSyncedTime state w =
    if isPlaying state
    then Ok (currentTime state + (now - lastUpdatedAt state) / 1000)%float
            (tick_clock w)
    else Ok (currentTime state) w.
Proof.
  unfold getSyncedTime. destruct (isPlaying state); reflexivity.
Qed.

Lemma num_or_zero_eq (t : float) :
  PrimFloat.is_nan t = false ->
  num_strict_eq t (num_or_zero t) = true /\
  (PrimFloat.is_zero t = false -> num_or_zero t = t).
Proof.
  intros Hnan. unfold num_or_zero, num_truthy, num_strict_eq.
  rewrite Hnan, orb_false_r.
  destruct (PrimFloat.is_zero t) eqn:Hz; simpl.
  - split; [exact Hz | discriminate].
  - split; [|reflexivity].
    unfold PrimFloat.is_nan in Hnan. apply negb_false_iff in Hnan. exact Hnan.
Qed.

(** ** The sync clock and the sync handlers *)

Lemma buildSyncPayload_run (state : RoomState) (w : World) :
  buildSyncPayload state w =
    Ok (sync_payload_at state (clock_reads w)) (ticks (payload_reads state) w).
Proof.
  unfold buildSyncPayload, getSyncedTime, sync_payload_at, payload_reads, bind.
  destruct (isPlaying state); reflexivity.
Qed.

Lemma getOrCreateRoom_present (code : string) (st : RoomState) (w : World) :
  rooms w !! code = Some st -> getOrCreateRoom code w = Ok st w.
Proof. intros H. unfold getOrCreateRoom, bind, gets. rewrite H. reflexivity. Qed.

(** What a sync event from a joined participant does, in terms of the room
    and the world [getOrCreateRoom] hands back. *)
Lemma on_sync_joined (name : string) (playing : option bool) (sid : nat)
    (v : JsVal) (w : World) (data : SocketData) (code : string) :
  sockets w !! sid = Some data ->
  sd_roomCode data = Some code ->
  code <> "" ->
  exists st0 w0 w',
    getOrCreateRoom code w = Ok st0 w0 /\
    on_sync name playing sid v w = Ok tt w' /\
    let st1 := match playing with Some b => set_isPlaying b st0 | None => st0 end in
    let st' := set_lastUpdatedAt (date_source (clock_reads w0))
                 (set_currentTime (num_or_zero (Number StringToNumber v)) st1) in
    rooms w' = <[code := st']> (rooms w0) /\
    room_order w' = room_order w0 /\
    sockets w' = sockets w0 /\
    members w' = members w0 /\
    random_draws w' = random_draws w0 /\
    clock_reads w' = S (payload_reads st' + clock_reads w0) /\
    outbox w' =
      (outbox w0 ++
       [{| em_target := ToRoomExcept code sid;
           em_recipients := default ∅ (members w0 !! code) ∖ {[ sid ]};
           em_message := SyncEvent name
                           (sync_payload_at st' (S (clock_reads w0))) |}])%list.
Proof.
  intros Hs Hc Hne.
  destruct (getOrCreateRoom code w) as [st0 w0|e w0] eqn:Hg.
  2:{ exfalso. revert Hg. unfold getOrCreateRoom, bind, gets.
      destruct (rooms w !! code); discriminate. }
  exists st0, w0. unfold on_sync, socket_data, bind at 1, gets.
  rewrite Hs. cbn [default from_option id]. rewrite Hc.
  cbn [js_opt prop_str default from_option id]. rewrite (truthy_JStr _ Hne).
  cbn [negb]. unfold bind at 1. rewrite Hg.
  assert (Hp : forall s : RoomState, payload_reads s = if isPlaying s then 2 else 1)
    by reflexivity.
  destruct playing as [[|]|]; [| |destruct (isPlaying st0) eqn:Hp0];
    cbv beta iota zeta delta [bind assign modify ret Date_now emit];
    rewrite buildSyncPayload_run; eexists; (split; [reflexivity|]);
    (split; [reflexivity|]); rewrite !Hp; cbn -[sync_payload_at];
    rewrite ?Hp0; cbn -[sync_payload_at]; rewrite ?insert_insert_eq;
    repeat split.
Qed.

Lemma connected_run (sid : nat) (data : SocketData) (c : M unit) (w : World) :
  sockets w !! sid = Some data -> connected sid c w = c w.
Proof. intros H. unfold connected, bind, gets. rewrite H. reflexivity. Qed.

Lemma rooms_has_run (code : string) (w : World) :
  rooms_has code w = Ok (bool_decide (is_Some (rooms w !! code))) w.
Proof. reflexivity. Qed.

(** C2. A joined participant pauses at a numeric time [t] (a payload whose
    numeric coercion is not NaN).  The room read right afterwards is paused
    and holds [t]; the sync clock returns that value with no elapsed term,
    at whatever instant it is read, and the snapshot route replies with
    it. *)
Theorem sync_pause_snapshot (w : World) (sid : nat) (data : SocketData)
    (code : string) (v : JsVal) :
  sockets w !! sid = Some data ->
  sd_roomCode data = Some code ->
  isValidRoomCode code = true ->
  PrimFloat.is_nan (Number StringToNumber v) = false ->
  let t := Number StringToNumber v in
  let w1 := step w (SyncPause sid v) in
  exists st,
    rooms w1 !! code = Some st /\
    isPlaying st = false /\
    num_strict_eq t (currentTime st) = true /\
    (PrimFloat.is_zero t = false -> currentTime st = t) /\
    (forall w2, getSyncedTime st w2 = Ok (currentTime st) w2) /\
    handle (GetRooms code) w1 =
      Ok tt (send {| em_target := HttpReply; em_recipients := ∅;
                     em_message := HttpSnapshot code (videoId st) false
                                     (currentTime st) |} w1).
Proof.
  intros Hs Hc Hv Hnan t w1.
  pose proof (valid_code_nonempty _ Hv) as Hne.
  pose proof (num_or_zero_eq _ Hnan) as [Heq Hz].
  destruct (on_sync_joined "sync-pause" (Some false) sid v w data code Hs Hc Hne)
    as (st0 & w0 & w' & _ & Hrun & Hrooms & _).
  assert (Hw1 : w1 = w').
  { unfold w1, step. simpl handle. rewrite (connected_run _ _ _ _ Hs).
    unfold on_sync_pause. rewrite Hrun. reflexivity. }
  cbv zeta in Hrooms.
  eexists. rewrite Hw1.
  assert (Hr1 : rooms w' !! code = Some (set_lastUpdatedAt (date_source (clock_reads w0))
     (set_currentTime (num_or_zero (Number StringToNumber v))
        (set_isPlaying false st0)))) by (rewrite Hrooms; apply lookup_insert_eq).
  split; [exact Hr1|].
  split; [reflexivity|]. split; [exact Heq|]. split; [exact Hz|].
  split; [reflexivity|].
  simpl handle. unfold get_rooms. rewrite (normalize_valid _ _ Hv), Hv.
  cbn [negb]. unfold bind. rewrite rooms_has_run.
  rewrite bool_decide_true by (rewrite Hr1; eauto).
  cbn [negb]. rewrite (getOrCreateRoom_present _ _ _ Hr1). reflexivity.
Qed.

(** C9. A seek by a joined participant writes the coerced time and the
    current clock reading into the participant's room and nothing else:
    [isPlaying], [videoId], the chat log, the other rooms, the sockets and
    the transport's membership are as before.  The one emission is the sync
    payload of the updated room, and it reaches exactly the members of the
    room other than the sender. *)
Theorem sync_seek_frame (w : World) (sid : nat) (data : SocketData)
    (code : string) (st : RoomState) (v : JsVal) :
  sockets w !! sid = Some data ->
  sd_roomCode data = Some code ->
  code <> "" ->
  rooms w !! code = Some st ->
  let now := date_source (clock_reads w) in
  exists w' st' e,
    handle (SyncSeek sid v) w = Ok tt w' /\
    rooms w' = <[code := st']> (rooms w) /\
    currentTime st' = num_or_zero (Number StringToNumber v) /\
    lastUpdatedAt st' = now /\
    isPlaying st' = isPlaying st /\
    videoId st' = videoId st /\
    chat st' = chat st /\
    roomCode st' = roomCode st /\
    sockets w' = sockets w /\
    members w' = members w /\
    outbox w' = (outbox w ++ [e])%list /\
    em_message e = SyncEvent "sync-seek" (sync_payload_at st' (S (clock_reads w))) /\
    em_target e = ToRoomExcept code sid /\
    forall s, s ∈ em_recipients e <-> s ∈ default ∅ (members w !! code) /\ s <> sid.
Proof.
  intros Hs Hc Hne Hr now.
  destruct (on_sync_joined "sync-seek" None sid v w data code Hs Hc Hne)
    as (st0 & w0 & w' & Hg & Hrun & Hrooms & _ & Hsock & Hmem & _ & _ & Hout).
  rewrite (getOrCreateRoom_present _ _ _ Hr) in Hg. injection Hg as <- <-.
  cbv zeta in Hrooms, Hout.
  exists w'. eexists. eexists.
  split. { simpl handle. rewrite (connected_run _ _ _ _ Hs). exact Hrun. }
  split; [exact Hrooms|].
  do 6 (split; [reflexivity|]).
  split; [exact Hsock|]. split; [exact Hmem|]. split; [exact Hout|].
  split; [reflexivity|]. split; [reflexivity|].
  intros s. cbn [em_recipients]. set_solver.
Qed.

(** ** Joining a room *)

Lemma truthy_JStr_eqb (s : string) : negb (truthy (JStr s)) = (s =? "").
Proof. simpl. apply negb_involutive. Qed.

Lemma on_join_invalid (sid : nat) (c u : JsVal) (w : World) :
  (clean_name u =? "") || negb (isValidRoomCode (normalizeRoomCode NumberToString c)) = true ->
  on_join_room sid c u w =
    Ok tt (send (join_error sid "Invalid room code or username") w).
Proof.
  intros H. unfold on_join_room. rewrite truthy_JStr_eqb.
  fold (clean_name u). rewrite H. reflexivity.
Qed.

Lemma on_join_missing (sid : nat) (c u : JsVal) (w : World) :
  (clean_name u =? "") = false ->
  isValidRoomCode (normalizeRoomCode NumberToString c) = true ->
  rooms w !! normalizeRoomCode NumberToString c = None ->
  on_join_room sid c u w = Ok tt (send (join_error sid "Room does not exist") w).
Proof.
  intros Hn Hv Hr. unfold on_join_room. rewrite truthy_JStr_eqb.
  fold (clean_name u). rewrite Hn, Hv. cbn [negb orb].
  unfold bind. rewrite rooms_has_run.
  rewrite bool_decide_false by (rewrite Hr; apply is_Some_None). reflexivity.
Qed.

Lemma on_join_success (sid : nat) (c u : JsVal) (w : World) (st : RoomState) :
  (clean_name u =? "") = false ->
  isValidRoomCode (normalizeRoomCode NumberToString c) = true ->
  rooms w !! normalizeRoomCode NumberToString c = Some st ->
  let code := normalizeRoomCode NumberToString c in
  exists w',
    on_join_room sid c u w = Ok tt w' /\
    rooms w' = rooms w /\
    room_order w' = room_order w /\
    sockets w' = <[sid := {| sd_roomCode := Some code;
                             sd_username := Some (clean_name u) |}]> (sockets w) /\
    members w' = <[code := {[ sid ]} ∪ default ∅ (members w !! code)]> (members w) /\
    outbox w' =
      (outbox w ++
        [{| em_target := ToSocket sid; em_recipients := {[ sid ]};
            em_message := RoomStateMsg code (videoId st)
                            (sync_payload_at st (clock_reads w))
                            (slice_last 50 (chat st)) |};
         {| em_target := ToRoom code;
            em_recipients := {[ sid ]} ∪ default ∅ (members w !! code);
            em_message := SystemMessage (clean_name u ++ " joined")
                            (date_source (payload_reads st + clock_reads w)) |}])%list.
Proof.
  intros Hn Hv Hr code. subst code. unfold on_join_room. rewrite truthy_JStr_eqb.
  fold (clean_name u). rewrite Hn, Hv. cbn [negb orb].
  unfold bind at 1. rewrite rooms_has_run.
  rewrite bool_decide_true by (rewrite Hr; eauto).
  cbn [negb].
  cbv beta iota zeta delta [bind set_socket_data socket_join modify].
  rewrite (getOrCreateRoom_present _ st) by exact Hr.
  rewrite buildSyncPayload_run.
  eexists. split; [reflexivity|].
  unfold payload_reads. destruct (isPlaying st); cbn;
    rewrite lookup_insert_eq, <- app_assoc; repeat split.
Qed.

(** C7, as the code has it.  Joining with a code that is not in the registry
    changes nothing but the requester's outbox: no room is created, no
    socket data and no membership is written, and the single emission is a
    join error sent to the requesting socket alone.  For a well-formed code
    and a non-blank user name the error is the not-found one; for a code
    that is not well-formed, or a blank user name, it is the invalid-input
    one, the format and the name being checked before the registry. *)
Theorem join_unknown_room (w : World) (sid : nat) (data : SocketData)
    (c u : JsVal) :
  sockets w !! sid = Some data ->
  rooms w !! normalizeRoomCode NumberToString c = None ->
  exists message,
    handle (JoinRoom sid c u) w = Ok tt (send (join_error sid message) w) /\
    rooms (send (join_error sid message) w) = rooms w /\
    room_order (send (join_error sid message) w) = room_order w /\
    (forall s, s ∈ em_recipients (join_error sid message) <-> s = sid) /\
    (isValidRoomCode (normalizeRoomCode NumberToString c) = true ->
     clean_name u <> "" ->
     message = "Room does not exist") /\
    (isValidRoomCode (normalizeRoomCode NumberToString c) = false \/
     clean_name u = "" ->
     message = "Invalid room code or username").
Proof.
  intros Hs Hr. simpl handle. rewrite (connected_run _ _ _ _ Hs).
  destruct ((clean_name u =? "")
            || negb (isValidRoomCode (normalizeRoomCode NumberToString c))) eqn:Hbad.
  - exists "Invalid room code or username".
    rewrite (on_join_invalid _ _ _ _ Hbad).
    split; [reflexivity|]. split; [reflexivity|]. split; [reflexivity|].
    split; [intros s; cbn; set_solver|].
    split; [|reflexivity].
    intros Hv Hn. exfalso. rewrite Hv in Hbad. cbn in Hbad.
    rewrite orb_false_r in Hbad. apply String.eqb_eq in Hbad. contradiction.
  - apply orb_false_elim in Hbad as [Hn Hv]. apply negb_false_iff in Hv.
    exists "Room does not exist".
    rewrite (on_join_missing _ _ _ _ Hn Hv Hr).
    split; [reflexivity|]. split; [reflexivity|]. split; [reflexivity|].
    split; [intros s; cbn; set_solver|]. split; [reflexivity|].
    intros [Hv'|Hn']; [congruence|].
    rewrite Hn' in Hn. discriminate Hn.
Qed.

(** ** Normalisation and validation of room codes *)








Lemma trimEnd_idem (s : string) : trimEnd (trimEnd s) = trimEnd s.
Proof.
  induction s as [|c s IH]; simpl; [reflexivity|].
  destruct (is_white_space c && (trimEnd s =? "")) eqn:E; simpl; [reflexivity|].
  rewrite IH, E. reflexivity.
Qed.

Lemma trimStart_clean (s : string) : starts_clean (trimStart s).
Proof.
  induction s as [|c s IH]; simpl; [exact I|].
  destruct (is_white_space c) eqn:E; [exact IH | exact E].
Qed.

Lemma trimStart_of_clean (s : string) : starts_clean s -> trimStart s = s.
Proof. destruct s as [|c s]; simpl; [reflexivity|]. intros ->. reflexivity. Qed.

Lemma trimEnd_clean (s : string) : starts_clean s -> starts_clean (trimEnd s).
Proof.
  destruct s as [|c s]; simpl; [intros _; exact I|].
  intros E. rewrite E. exact E.
Qed.




Lemma trimStart_pad (pad s : string) :
  all_white pad = true -> trimStart (pad ++ s) = trimStart s.
Proof.
  induction pad as [|c pad IH]; simpl; [reflexivity|].
  intros H. apply andb_prop in H as [Hc Hp]. rewrite Hc. exact (IH Hp).
Qed.





(** ** The format check *)

Lemma charset_chars_valid (c : ascii) :
  in_charset c = true -> is_upper c || is_digit c = true.
Proof.
  destruct c as [[] [] [] [] [] [] [] []]; vm_compute; intros H;
    solve [reflexivity | discriminate H].
Qed.

Lemma charset_code_valid (code : string) :
  String.length code = 6 ->
  string_forallb in_charset code = true ->
  isValidRoomCode code = true.
Proof.
  intros Hl Hc. unfold isValidRoomCode. rewrite Hl. simpl.
  eapply string_forallb_impl; [|exact Hc]. exact charset_chars_valid.
Qed.

(** The two rejections.  A request whose normalised code fails the format
    check is rejected as invalid, by the join handler and by the snapshot
    route (status 400); a request whose normalised code passes the check and
    names no room is rejected as not found. *)
Lemma format_check_replies (w : World) (sid : nat) (data : SocketData)
    (raw : string) (u : JsVal) :
  sockets w !! sid = Some data ->
  let code := normalizeRoomCode NumberToString (JStr raw) in
  (isValidRoomCode code = true <->
     String.length code = 6 /\
     string_forallb (fun c => is_upper c || is_digit c) code = true) /\
  (String.length code = 6 -> string_forallb in_charset code = true ->
     isValidRoomCode code = true) /\
  (isValidRoomCode code = false ->
     handle (JoinRoom sid (JStr raw) u) w =
       Ok tt (send (join_error sid "Invalid room code or username") w) /\
     handle (GetRooms raw) w =
       Ok tt (send (http_reply (HttpMessage 400 "Invalid room code format")) w)) /\
  (isValidRoomCode code = true -> rooms w !! code = None ->
     clean_name u <> "" ->
     handle (JoinRoom sid (JStr raw) u) w =
       Ok tt (send (join_error sid "Room does not exist") w) /\
     handle (GetRooms raw) w =
       Ok tt (send (http_reply (HttpMessage 404 "Room not found")) w)).
Proof.
  intros Hs code. split; [|split; [|split]].
  - unfold isValidRoomCode. rewrite andb_true_iff, Nat.eqb_eq. reflexivity.
  - apply charset_code_valid.
  - intros Hv. split.
    + simpl handle. rewrite (connected_run _ _ _ _ Hs).
      apply on_join_invalid. fold code. rewrite Hv. apply orb_true_r.
    + simpl handle. unfold get_rooms. fold code. rewrite Hv. reflexivity.
  - intros Hv Hr Hn. split.
    + simpl handle. rewrite (connected_run _ _ _ _ Hs).
      apply on_join_missing; try assumption.
      destruct (String.eqb_spec (clean_name u) ""); [contradiction|reflexivity].
    + simpl handle. unfold get_rooms. fold code. rewrite Hv. cbn [negb].
      unfold bind. rewrite rooms_has_run.
      rewrite bool_decide_false by (rewrite Hr; apply is_Some_None).
      reflexivity.
Qed.

(** ** Guards of the mutating handlers *)

Lemma unjoined_set_video (w : World) (sid : nat) (v : JsVal) :
  joined_at w sid && truthy v = false ->
  connected sid (on_set_video sid v) w = Ok tt w.
Proof.
  unfold joined_at, joined, connected, bind, gets.
  destruct (sockets w !! sid) as [data|] eqn:Hs; [|reflexivity].
  intros H. unfold on_set_video, socket_data, bind, gets. rewrite Hs.
  cbn [default from_option id].
  destruct (truthy (js_opt (sd_roomCode data))), (truthy v);
    try discriminate H; reflexivity.
Qed.

Lemma unjoined_sync (name : string) (playing : option bool) (w : World)
    (sid : nat) (v : JsVal) :
  joined_at w sid = false ->
  connected sid (on_sync name playing sid v) w = Ok tt w.
Proof.
  unfold joined_at, joined, connected, bind, gets.
  destruct (sockets w !! sid) as [data|] eqn:Hs; [|reflexivity].
  intros H. unfold on_sync, socket_data, bind, gets. rewrite Hs.
  cbn [default from_option id]. rewrite H. reflexivity.
Qed.

Lemma unjoined_chat (w : World) (sid : nat) (text : JsVal) :
  joined_at w sid && negb (text_missing text) = false ->
  connected sid (on_chat_message sid text) w = Ok tt w.
Proof.
  unfold joined_at, joined, connected, bind, gets.
  destruct (sockets w !! sid) as [data|] eqn:Hs; [|reflexivity].
  intros H. unfold on_chat_message, socket_data, bind, gets. rewrite Hs.
  cbn [default from_option id].
  destruct (truthy (js_opt (sd_roomCode data))); [|reflexivity].
  cbn [negb]. destruct (truthy (js_opt (sd_username data))); [|reflexivity].
  cbn [negb andb] in *. apply negb_false_iff in H.
  destruct text as [| |b|x|s]; try discriminate H; try reflexivity.
  cbn [text_missing] in H. cbn [optional_trim ret js_opt].
  rewrite truthy_JStr_eqb, H. reflexivity.
Qed.

Lemma unjoined_disconnect (w : World) (sid : nat) :
  joined_at w sid = false ->
  let w' := step w (Disconnect sid) in
  rooms w' = rooms w /\ room_order w' = room_order w /\ outbox w' = outbox w.
Proof.
  intros H w'.
  assert (Hrun : w' = w \/
            w' = with_sockets (delete sid)
                   (with_members (fmap (fun s : gset nat => s ∖ {[ sid ]})) w)).
  { subst w'. revert H. unfold joined_at, joined, step. simpl handle.
    destruct (sockets w !! sid) as [data|] eqn:Hs.
    - intros H. right. rewrite (connected_run _ _ _ _ Hs).
      cbv beta iota zeta delta
        [bind leave_all modify on_disconnect socket_data gets].
      cbn [sockets with_members]. rewrite Hs. cbn [default from_option id].
      rewrite H. reflexivity.
    - intros _. left. unfold connected, bind, gets. rewrite Hs. reflexivity. }
  destruct Hrun as [-> | ->]; repeat split.
Qed.

(** C8, as the code has it.  An event that comes with a payload and whose
    precondition fails never changes a room (an event emitted with no
    payload is [Bare], whose listener throws before its guard; nothing is
    stated about it here).  When the event is one of the five mutating ones
    (the participant is not joined, the video id of [set-video] is missing,
    or the text of [chat-message] is absent or blank) the handler returns
    with the world exactly as it was and nothing emitted; a failed
    disconnection emits nothing either.  A failed [join-room] is the one
    that is not silent: it emits a join error, to the requesting socket
    only. *)
Theorem failed_precondition (w : World) (e : Event) :
  carries_payload e = true ->
  precondition w e = false ->
  rooms (step w e) = rooms w /\
  room_order (step w e) = room_order w /\
  (mutating e = true -> handle e w = Ok tt w) /\
  (forall sid, e = Disconnect sid -> outbox (step w e) = outbox w) /\
  (forall sid c u, e = JoinRoom sid c u -> is_Some (sockets w !! sid) ->
     exists message, handle e w = Ok tt (send (join_error sid message) w)).
Proof.
  intros Hpayload Hpre.
  destruct e as [sid|sid c u|sid v|sid t|sid t|sid t|sid text|sid|v|p| |sid l];
    cbn [precondition] in Hpre; try discriminate Hpre;
    try discriminate Hpayload.
  - (* join-room *)
    assert (Hrun : sockets w !! sid = None /\ handle (JoinRoom sid c u) w = Ok tt w
                   \/ exists message,
                        handle (JoinRoom sid c u) w
                        = Ok tt (send (join_error sid message) w)).
    { simpl handle.
      destruct (sockets w !! sid) as [data|] eqn:Hs;
        [right; rewrite (connected_run _ _ _ _ Hs)
        |left; split; [reflexivity|];
         unfold connected, bind, gets; rewrite Hs; reflexivity].
      destruct ((clean_name u =? "")
                || negb (isValidRoomCode (normalizeRoomCode NumberToString c))) eqn:Hbad.
      - eexists. apply on_join_invalid, Hbad.
      - apply orb_false_elim in Hbad as [Hn Hv]. apply negb_false_iff in Hv.
        rewrite Hn, Hv in Hpre. cbn in Hpre.
        apply bool_decide_eq_false in Hpre.
        eexists. apply on_join_missing; try assumption.
        destruct (rooms w !! normalizeRoomCode NumberToString c) eqn:Hr;
          [exfalso; apply Hpre; eauto | reflexivity]. }
    unfold step.
    destruct Hrun as [[Hnone Hrun]|[message Hrun]]; rewrite Hrun;
      (split; [reflexivity|]); (split; [reflexivity|]);
      (split; [discriminate|]); (split; [discriminate|]).
    + intros sid' c' u' [= <- <- <-] [d Hd]. congruence.
    + intros sid' c' u' [= <- <- <-] _. eauto.
  - (* set-video *)
    pose proof (unjoined_set_video _ _ _ Hpre) as Hrun.
    unfold step. simpl handle. rewrite Hrun.
    repeat split; discriminate.
  - pose proof (unjoined_sync "sync-play" (Some true) _ _ t Hpre) as Hrun.
    unfold step. simpl handle. unfold on_sync_play. rewrite Hrun.
    repeat split; discriminate.
  - pose proof (unjoined_sync "sync-pause" (Some false) _ _ t Hpre) as Hrun.
    unfold step. simpl handle. unfold on_sync_pause. rewrite Hrun.
    repeat split; discriminate.
  - pose proof (unjoined_sync "sync-seek" None _ _ t Hpre) as Hrun.
    unfold step. simpl handle. unfold on_sync_seek. rewrite Hrun.
    repeat split; discriminate.
  - pose proof (unjoined_chat _ _ _ Hpre) as Hrun.
    unfold step. simpl handle. rewrite Hrun.
    repeat split; discriminate.
  - destruct (unjoined_disconnect _ _ Hpre) as (Hr & Ho & Hout).
    split; [exact Hr|]. split; [exact Ho|]. split; [discriminate|].
    split; [intros sid' [= <-]; exact Hout | discriminate].
Qed.

(** ** Code generation *)

Lemma draws_random (n : nat) (w : World) :
  random_draws (draws n w) = n + random_draws w.
Proof. induction n as [|n IH]; simpl; [reflexivity | rewrite IH; reflexivity]. Qed.

Lemma draws_rooms (n : nat) (w : World) : rooms (draws n w) = rooms w.
Proof. induction n as [|n IH]; simpl; [reflexivity | exact IH]. Qed.

Lemma draws_add (n m : nat) (w : World) : draws n (draws m w) = draws (n + m) w.
Proof. unfold draws. rewrite Nat.iter_add. reflexivity. Qed.

Lemma draws_succ_tick (n : nat) (w : World) :
  draws n (tick_random w) = draws (S n) w.
Proof. rewrite <- Nat.add_1_r. rewrite <- draws_add. reflexivity. Qed.

Lemma generateRoomCode_loop_run (left : nat) (output : string) (w : World) :
  generateRoomCode_loop left output w =
    Ok (symbols (random_draws w) left output) (draws left w).
Proof.
  revert output w. induction left as [|left IH]; intros output w; [reflexivity|].
  cbn [generateRoomCode_loop symbols]. unfold bind, Math_random.
  rewrite IH. cbn [random_draws tick_random]. rewrite draws_succ_tick. reflexivity.
Qed.

Lemma generateRoomCode_run (w : World) :
  generateRoomCode w = Ok (candidate w 0) (draws ROOM_CODE_LENGTH w).
Proof.
  unfold generateRoomCode, candidate. rewrite generateRoomCode_loop_run.
  rewrite Nat.mul_0_r, Nat.add_0_r. reflexivity.
Qed.

Lemma candidate_shift (w : World) (k : nat) :
  candidate (draws ROOM_CODE_LENGTH w) k = candidate w (S k).
Proof.
  unfold candidate. rewrite draws_random. f_equal. lia.
Qed.

(** The outcome of the retry loop: the first candidate that is free, or the
    error once [left] candidates in a row were taken. *)
Lemma getUniqueRoomCode_loop_run (left : nat) (w : World) :
  match getUniqueRoomCode_loop left w with
  | Ok code w' =>
      exists k, k < left /\ code = candidate w k /\
        rooms w !! code = None /\
        (forall j, j < k -> is_Some (rooms w !! candidate w j)) /\
        w' = draws (ROOM_CODE_LENGTH * S k) w
  | Throw e w' =>
      e = Error "Could not generate unique room code" /\
      (forall j, j < left -> is_Some (rooms w !! candidate w j)) /\
      w' = draws (ROOM_CODE_LENGTH * left) w
  end.
Proof.
  revert w. induction left as [|left IH]; intros w.
  - cbn. split; [reflexivity|]. split; [intros j Hj; lia | reflexivity].
  - cbn [getUniqueRoomCode_loop]. unfold bind at 1. rewrite generateRoomCode_run.
    unfold bind. rewrite rooms_has_run, draws_rooms.
    destruct (rooms w !! candidate w 0) as [st|] eqn:Hr.
    + rewrite bool_decide_true by eauto. cbn [negb].
      specialize (IH (draws ROOM_CODE_LENGTH w)).
      destruct (getUniqueRoomCode_loop left (draws ROOM_CODE_LENGTH w))
        as [code w'|e w'].
      * destruct IH as (k & Hk & Hcode & Hfree & Htaken & Hw').
        rewrite candidate_shift in Hcode. rewrite draws_rooms in Hfree.
        exists (S k). split; [lia|]. split; [exact Hcode|]. split; [exact Hfree|].
        split.
        -- intros [|j] Hj; [rewrite Hr; eauto|].
           specialize (Htaken j ltac:(lia)).
           rewrite candidate_shift, draws_rooms in Htaken. exact Htaken.
        -- rewrite Hw', draws_add. f_equal. lia.
      * destruct IH as (He & Htaken & Hw'). split; [exact He|]. split.
        -- intros [|j] Hj; [rewrite Hr; eauto|].
           specialize (Htaken j ltac:(lia)).
           rewrite candidate_shift, draws_rooms in Htaken. exact Htaken.
        -- rewrite Hw', draws_add. f_equal. lia.
    + rewrite bool_decide_false by apply is_Some_None. cbn [negb ret].
      exists 0. split; [lia|]. split; [reflexivity|]. split; [exact Hr|].
      split; [intros j Hj; lia|]. f_equal.
Qed.

Lemma string_app_assoc' (s t u : string) : (s ++ t) ++ u = s ++ (t ++ u).
Proof.
  induction s as [|c s IH]; [reflexivity|].
  change (String c ((s ++ t) ++ u) = String c (s ++ (t ++ u))).
  f_equal. exact IH.
Qed.

Lemma string_app_empty (s : string) : s ++ "" = s.
Proof.
  induction s as [|c s IH]; [reflexivity|].
  change (String c (s ++ "") = String c s). f_equal. exact IH.
Qed.

Lemma charset_length : Z.of_nat (String.length ROOM_CHARSET) = 32%Z.
Proof. reflexivity. Qed.

Lemma RANDOM_SCALE_pos : (0 < RANDOM_SCALE)%Z.
Proof. unfold RANDOM_SCALE. apply Z.pow_pos_nonneg; lia. Qed.

Lemma charset_index_range (n : Z) :
  random_ok n -> (0 <= charset_index n < 32)%Z.
Proof.
  unfold random_ok, charset_index. rewrite charset_length.
  pose proof RANDOM_SCALE_pos as Hpos. generalize dependent RANDOM_SCALE.
  intros scale Hpos [Hlo Hhi]. split.
  - apply Z.div_pos; lia.
  - apply Z.div_lt_upper_bound; lia.
Qed.

Lemma charset_at_range (i : Z) :
  (0 <= i < 32)%Z -> exists c, charset_at i = Some c /\ in_charset c = true.
Proof.
  intros [Hlo Hhi]. unfold charset_at.
  destruct (Z.ltb_spec i 0) as [Hneg|_]; [lia|].
  assert (Hk : Z.to_nat i < 32) by lia.
  generalize dependent (Z.to_nat i). intros k Hk.
  do 32 (destruct k as [|k]; [eexists; split; reflexivity|]).
  lia.
Qed.

Lemma symbols_wf (len start : nat) (output : string) :
  (forall n, random_ok (random_source n)) ->
  exists s, symbols start len output = output ++ s /\
            String.length s = len /\
            string_forallb in_charset s = true.
Proof.
  intros Hok. revert start output.
  induction len as [|len IH]; intros start output.
  - exists "". cbn [symbols]. rewrite string_app_empty. repeat split.
  - cbn [symbols].
    destruct (charset_at_range _ (charset_index_range _ (Hok start)))
      as (c & Hc & Hin).
    unfold append_symbol. rewrite Hc.
    destruct (IH (S start) (output ++ String c "")) as (s & Hs & Hl & Hf).
    exists (String c s). rewrite Hs, string_app_assoc'.
    cbn [String.length string_forallb]. rewrite Hl, Hin, Hf. repeat split.
Qed.

Lemma candidate_wf (w : World) (k : nat) :
  (forall n, random_ok (random_source n)) ->
  String.length (candidate w k) = 6 /\
  string_forallb in_charset (candidate w k) = true.
Proof.
  intros Hok. unfold candidate.
  destruct (symbols_wf ROOM_CODE_LENGTH (random_draws w + ROOM_CODE_LENGTH * k) "" Hok)
    as (s & Hs & Hl & Hf).
  rewrite Hs. cbn [append]. split; assumption.
Qed.

(** C6. With a random source that stays in the unit interval, the code the
    generator returns has exactly six characters, all of the 32-symbol
    alphabet, and names no registered room; it is the first free one among
    the candidates drawn.  The loop is bounded: when the first thousand
    candidates are all taken the generator throws its error.  Either way the
    registry is left as it was. *)
Theorem getUniqueRoomCode_spec (w : World) :
  (forall n, random_ok (random_source n)) ->
  match getUniqueRoomCode w with
  | Ok code w' =>
      String.length code = 6 /\
      string_forallb in_charset code = true /\
      rooms w !! code = None /\
      rooms w' = rooms w /\
      exists k, k < 1000 /\ code = candidate w k /\
        forall j, j < k -> is_Some (rooms w !! candidate w j)
  | Throw e w' =>
      e = Error "Could not generate unique room code" /\
      rooms w' = rooms w /\
      random_draws w' = 6 * 1000 + random_draws w /\
      forall j, j < 1000 -> is_Some (rooms w !! candidate w j)
  end.
Proof.
  intros Hok. unfold getUniqueRoomCode.
  pose proof (getUniqueRoomCode_loop_run 1000 w) as H.
  destruct (getUniqueRoomCode_loop 1000 w) as [code w'|e w'].
  - destruct H as (k & Hk & Hcode & Hfree & Htaken & Hw').
    destruct (candidate_wf w k Hok) as [Hl Hf]. rewrite <- Hcode in Hl, Hf.
    split; [exact Hl|]. split; [exact Hf|]. split; [exact Hfree|].
    split; [rewrite Hw'; apply draws_rooms|].
    exists k. split; [exact Hk|]. split; [exact Hcode | exact Htaken].
  - destruct H as (He & Htaken & Hw').
    split; [exact He|]. split; [rewrite Hw'; apply draws_rooms|].
    split; [rewrite Hw', draws_random; reflexivity | exact Htaken].
Qed.

(** ** The chat log *)

Lemma slice_last_short {A} (n : nat) (l : list A) :
  length l <= n -> slice_last n l = l.
Proof.
  intros H. unfold slice_last. replace (length l - n) with 0 by lia. reflexivity.
Qed.

Lemma slice_last_length {A} (n : nat) (l : list A) :
  length (slice_last n l) = Nat.min n (length l).
Proof. unfold slice_last. rewrite length_drop. lia. Qed.

Lemma slice_last_snoc {A} (n : nat) (l : list A) (x : A) :
  0 < n -> slice_last n (slice_last n l ++ [x]) = slice_last n (l ++ [x]).
Proof.
  intros Hn. destruct (Nat.le_gt_cases (length l) n) as [Hle|Hgt].
  - rewrite (slice_last_short n l Hle). reflexivity.
  - unfold slice_last.
    set (k := length l - n).
    assert (Hl : length (drop k l ++ [x]) - n = 1)
      by (rewrite length_app, length_drop; cbn [length]; lia).
    assert (Hr : length (l ++ [x]) - n = S k)
      by (rewrite length_app; cbn [length]; lia).
    rewrite Hl, Hr.
    rewrite (drop_app_le (drop k l)) by (rewrite length_drop; lia).
    rewrite drop_drop, (drop_app_le l) by lia.
    f_equal. f_equal. lia.
Qed.

Lemma chat_push_slice (log : list ChatMessage) (m : ChatMessage) :
  length log <= 200 -> chat_push log m = slice_last 200 (log ++ [m]).
Proof.
  intros H. unfold chat_push.
  destruct (Nat.ltb_spec 200 (length (log ++ [m]))) as [Hgt|Hle];
    [reflexivity | symmetry; apply slice_last_short; exact Hle].
Qed.

Lemma chat_push_bounded (log : list ChatMessage) (m : ChatMessage) :
  length log <= 200 -> length (chat_push log m) <= 200.
Proof.
  intros H. rewrite (chat_push_slice _ _ H), slice_last_length. lia.
Qed.

(** What a chat message from a joined participant does, in terms of the
    room and the world [getOrCreateRoom] hands back. *)
Lemma on_chat_joined (w : World) (sid : nat) (data : SocketData)
    (code name text : string) :
  sockets w !! sid = Some data ->
  sd_roomCode data = Some code -> code <> "" ->
  sd_username data = Some name -> name <> "" ->
  trim text <> "" ->
  exists st0 w0 w',
    getOrCreateRoom code w = Ok st0 w0 /\
    on_chat_message sid (JStr text) w = Ok tt w' /\
    let m := chat_message_at data text (clock_reads w0) (random_draws w0) in
    rooms w' = <[code := set_chat (chat_push (chat st0) m) st0]> (rooms w0) /\
    room_order w' = room_order w0 /\
    sockets w' = sockets w0 /\
    members w' = members w0 /\
    clock_reads w' = 2 + clock_reads w0 /\
    random_draws w' = S (random_draws w0) /\
    outbox w' =
      (outbox w0 ++
       [{| em_target := ToRoom code;
           em_recipients := default ∅ (members w0 !! code);
           em_message := ChatEvent m |}])%list.
Proof.
  intros Hs Hc Hne Hu Hnn Ht.
  destruct (getOrCreateRoom code w) as [st0 w0|e w0] eqn:Hg.
  2:{ exfalso. revert Hg. unfold getOrCreateRoom, bind, gets.
      destruct (rooms w !! code); discriminate. }
  exists st0, w0.
  unfold on_chat_message, socket_data, bind at 1, gets.
  rewrite Hs. cbn [default from_option id]. rewrite Hc, Hu.
  cbn [js_opt prop_str default from_option id].
  rewrite (truthy_JStr _ Hne), (truthy_JStr _ Hnn). cbn [negb].
  cbn [optional_trim]. unfold bind at 1, ret at 1. cbn [js_opt].
  rewrite (truthy_JStr _ Ht). cbn [negb].
  unfold bind at 1. rewrite Hg.
  cbv beta iota zeta delta [bind Date_now Math_random assign modify ret].
  cbn [chat set_chat clock_reads random_draws tick_clock tick_random].
  unfold chat_message_at, chat_push. rewrite Hu.
  cbn [prop_str default from_option id].
  set (m := {| m_id := _; m_username := name; m_text := _; m_at := _ |}).
  destruct (200 <? length (chat st0 ++ [m]))%nat; eexists;
    (split; [reflexivity|]); (split; [reflexivity|]);
    cbn; rewrite ?insert_insert_eq; repeat split.
Qed.

(** ** The effect of every event on the registry and on the connections *)

Lemma ticks_rooms (n : nat) (w : World) : rooms (ticks n w) = rooms w.
Proof. induction n as [|n IH]; [reflexivity | exact IH]. Qed.

Lemma ticks_sockets (n : nat) (w : World) : sockets (ticks n w) = sockets w.
Proof. induction n as [|n IH]; [reflexivity | exact IH]. Qed.

Lemma draws_sockets (n : nat) (w : World) : sockets (draws n w) = sockets w.
Proof. induction n as [|n IH]; [reflexivity | exact IH]. Qed.

Lemma getOrCreateRoom_run (code : string) (w : World) :
  exists st0 w0,
    getOrCreateRoom code w = Ok st0 w0 /\
    rooms w0 = <[code := st0]> (rooms w) /\
    sockets w0 = sockets w /\
    chat st0 = default [] (chat <$> rooms w !! code).
Proof.
  unfold getOrCreateRoom, bind, gets.
  destruct (rooms w !! code) as [st|] eqn:Hr.
  - exists st, w. split; [reflexivity|].
    split; [symmetry; apply insert_id, Hr|]. split; reflexivity.
  - eexists _, _. split; [reflexivity|]. cbn.
    rewrite bool_decide_false by (rewrite Hr; apply is_Some_None).
    repeat split.
Qed.

Lemma on_sync_effect (name : string) (playing : option bool) (sid : nat)
    (v : JsVal) (w : World) :
  let w' := final_world (connected sid (on_sync name playing sid v) w) in
  rooms_step w w' /\ sockets w' = sockets w.
Proof.
  intros w'. subst w'.
  destruct (joined_at w sid) eqn:Hj.
  2:{ rewrite (unjoined_sync _ _ _ _ _ Hj). split; [left|]; reflexivity. }
  unfold joined_at in Hj. destruct (sockets w !! sid) as [data|] eqn:Hs; [|discriminate].
  unfold joined in Hj. destruct (sd_roomCode data) as [code|] eqn:Hc; [|discriminate].
  assert (Hne : code <> "") by (intros ->; discriminate Hj).
  rewrite (connected_run _ _ _ _ Hs).
  destruct (on_sync_joined name playing sid v w data code Hs Hc Hne)
    as (st0 & w0 & w' & Hg & Hrun & Hrooms & _ & Hsock & _).
  destruct (getOrCreateRoom_run code w) as (st0' & w0' & Hg' & Hr0 & Hs0 & Hchat).
  rewrite Hg in Hg'. injection Hg' as <- <-.
  rewrite Hrun. cbn [final_world]. cbv zeta in Hrooms. split.
  - right. rewrite Hr0, insert_insert_eq in Hrooms.
    match type of Hrooms with _ = <[_ := ?s]> _ => exists code, s end.
    split; [exact Hrooms|].
    left. rewrite <- Hchat. destruct playing; reflexivity.
  - rewrite Hsock. exact Hs0.
Qed.

Lemma on_set_video_joined (sid : nat) (v : JsVal) (w : World)
    (data : SocketData) :
  sockets w !! sid = Some data ->
  joined data = true ->
  truthy v = true ->
  let code := prop_str (sd_roomCode data) in
  exists st0 w0 w',
    getOrCreateRoom code w = Ok st0 w0 /\
    on_set_video sid v w = Ok tt w' /\
    rooms w' =
      <[code := set_lastUpdatedAt (date_source (clock_reads w0))
                  (set_isPlaying false
                     (set_currentTime PrimFloat.zero (set_videoId v st0)))]>
        (rooms w0) /\
    room_order w' = room_order w0 /\
    sockets w' = sockets w0 /\
    members w' = members w0 /\
    outbox w' =
      (outbox w0 ++
       [{| em_target := ToRoom code;
           em_recipients := default ∅ (members w0 !! code);
           em_message := VideoChanged v (sd_username data)
                           (date_source (S (clock_reads w0))) |}])%list.
Proof.
  intros Hs Hj Hv code. unfold joined in Hj.
  destruct (getOrCreateRoom_run code w) as (st0 & w0 & Hg & _).
  exists st0, w0.
  unfold on_set_video, socket_data, bind at 1, gets.
  rewrite Hs. cbn [default from_option id]. rewrite Hj, Hv. cbn [negb orb].
  fold code. unfold bind at 1. rewrite Hg.
  cbv beta iota zeta delta [bind assign modify ret Date_now emit].
  eexists. split; [reflexivity|]. split; [reflexivity|].
  cbn. rewrite !insert_insert_eq. repeat split.
Qed.

Lemma on_set_video_effect (sid : nat) (v : JsVal) (w : World) :
  let w' := final_world (connected sid (on_set_video sid v) w) in
  rooms_step w w' /\ sockets w' = sockets w.
Proof.
  intros w'. subst w'.
  destruct (joined_at w sid && truthy v) eqn:Hj.
  2:{ rewrite (unjoined_set_video _ _ _ Hj). split; [left|]; reflexivity. }
  apply andb_prop in Hj as [Hj Hv].
  unfold joined_at in Hj. destruct (sockets w !! sid) as [data|] eqn:Hs; [|discriminate].
  rewrite (connected_run _ _ _ _ Hs).
  destruct (on_set_video_joined sid v w data Hs Hj Hv)
    as (st0 & w0 & w' & Hg & Hrun & Hrooms & _ & Hsock & _).
  destruct (getOrCreateRoom_run (prop_str (sd_roomCode data)) w)
    as (st0' & w0' & Hg' & Hr0 & Hs0 & Hchat).
  rewrite Hg in Hg'. injection Hg' as <- <-.
  rewrite Hrun. cbn [final_world]. split; [|rewrite Hsock; exact Hs0].
  right. rewrite Hr0, insert_insert_eq in Hrooms.
  match type of Hrooms with _ = <[?c := ?s]> _ => exists c, s end.
  split; [exact Hrooms|]. left. exact Hchat.
Qed.

Lemma on_chat_effect (sid : nat) (text : JsVal) (w : World) :
  let w' := final_world (connected sid (on_chat_message sid text) w) in
  rooms_step w w' /\ sockets w' = sockets w.
Proof.
  intros w'. subst w'.
  destruct (joined_at w sid && negb (text_missing text)) eqn:Hj.
  2:{ rewrite (unjoined_chat _ _ _ Hj). split; [left|]; reflexivity. }
  apply andb_prop in Hj as [Hj Ht]. apply negb_true_iff in Ht.
  unfold joined_at in Hj. destruct (sockets w !! sid) as [data|] eqn:Hs; [|discriminate].
  unfold joined in Hj. destruct (sd_roomCode data) as [code|] eqn:Hc; [|discriminate].
  assert (Hne : code <> "") by (intros ->; discriminate Hj).
  rewrite (connected_run _ _ _ _ Hs).
  destruct (truthy (js_opt (sd_username data))) eqn:Hu.
  2:{ assert (E : final_world (on_chat_message sid text w) = w).
      { unfold on_chat_message, socket_data, bind at 1, gets.
        rewrite Hs. cbn [default from_option id]. rewrite Hc, Hu.
        cbn [js_opt]. rewrite (truthy_JStr _ Hne). reflexivity. }
      rewrite E. split; [left|]; reflexivity. }
  destruct (sd_username data) as [name|] eqn:Hn; [|discriminate].
  assert (Hnn : name <> "") by (intros ->; discriminate Hu).
  destruct text as [| |b|x|s]; try discriminate Ht.
  - (* a boolean has no trim *)
    assert (E : final_world (on_chat_message sid (JBool b) w) = w).
    { unfold on_chat_message, socket_data, bind at 1, gets.
      rewrite Hs. cbn [default from_option id]. rewrite Hc, Hn.
      cbn [js_opt]. rewrite (truthy_JStr _ Hne), (truthy_JStr _ Hnn).
      reflexivity. }
    rewrite E. split; [left|]; reflexivity.
  - assert (E : final_world (on_chat_message sid (JNum x) w) = w).
    { unfold on_chat_message, socket_data, bind at 1, gets.
      rewrite Hs. cbn [default from_option id]. rewrite Hc, Hn.
      cbn [js_opt]. rewrite (truthy_JStr _ Hne), (truthy_JStr _ Hnn).
      reflexivity. }
    rewrite E. split; [left|]; reflexivity.
  - cbn [text_missing] in Ht. apply String.eqb_neq in Ht.
    destruct (on_chat_joined w sid data code name s Hs Hc Hne Hn Hnn Ht)
      as (st0 & w0 & w' & Hg & Hrun & Hrooms & _ & Hsock & _).
    destruct (getOrCreateRoom_run code w) as (st0' & w0' & Hg' & Hr0 & Hs0 & Hchat).
    rewrite Hg in Hg'. injection Hg' as <- <-.
    rewrite Hrun. cbn [final_world]. split; [|rewrite Hsock; exact Hs0].
    right. rewrite Hr0, insert_insert_eq in Hrooms.
    match type of Hrooms with _ = <[?c := ?s]> _ => exists c, s end.
    split; [exact Hrooms|]. right. eexists. cbn [chat set_chat].
    rewrite <- Hchat. reflexivity.
Qed.

Lemma on_join_effect (sid : nat) (c u : JsVal) (w : World) :
  let w' := final_world (on_join_room sid c u w) in
  rooms w' = rooms w /\
  (sockets w' = sockets w \/
   exists data, joined data = true /\ sockets w' = <[sid := data]> (sockets w)).
Proof.
  intros w'. subst w'.
  destruct ((clean_name u =? "")
            || negb (isValidRoomCode (normalizeRoomCode NumberToString c))) eqn:Hbad.
  { rewrite (on_join_invalid _ _ _ _ Hbad). split; [|left]; reflexivity. }
  apply orb_false_elim in Hbad as [Hn Hv]. apply negb_false_iff in Hv.
  destruct (rooms w !! normalizeRoomCode NumberToString c) as [st|] eqn:Hr.
  - destruct (on_join_success sid c u w st Hn Hv Hr)
      as (w' & Hrun & Hrooms & _ & Hsock & _).
    rewrite Hrun. cbn [final_world]. split; [exact Hrooms|]. right.
    eexists. split; [|exact Hsock].
    unfold joined. cbn [sd_roomCode js_opt].
    apply truthy_JStr, valid_code_nonempty, Hv.
  - rewrite (on_join_missing _ _ _ _ Hn Hv Hr). split; [|left]; reflexivity.
Qed.

Lemma get_rooms_run (param : string) (w : World) :
  exists e n, get_rooms param w = Ok tt (send e (ticks n w)).
Proof.
  unfold get_rooms.
  destruct (isValidRoomCode (normalizeRoomCode NumberToString (JStr param)));
    [|exists (http_reply (HttpMessage 400 "Invalid room code format")), 0;
      reflexivity].
  cbn [negb]. unfold bind at 1. rewrite rooms_has_run.
  destruct (rooms w !! normalizeRoomCode NumberToString (JStr param))
    as [st|] eqn:Hr.
  - rewrite bool_decide_true by eauto. cbn [negb].
    unfold bind at 1. rewrite (getOrCreateRoom_present _ _ _ Hr).
    unfold bind, getSyncedTime.
    destruct (isPlaying st); [eexists _, 1 | eexists _, 0]; reflexivity.
  - rewrite bool_decide_false by apply is_Some_None.
    exists (http_reply (HttpMessage 404 "Room not found")), 0. reflexivity.
Qed.

Lemma get_rooms_effect (param : string) (w : World) :
  let w' := final_world (get_rooms param w) in
  rooms w' = rooms w /\ sockets w' = sockets w.
Proof.
  intros w'. subst w'. destruct (get_rooms_run param w) as (e & n & ->).
  cbn [final_world rooms sockets send]. split; [apply ticks_rooms | apply ticks_sockets].
Qed.

Lemma heartbeat_loop_effect (codes : list string) (w : World) :
  exists w', heartbeat_loop codes w = Ok tt w' /\
             rooms w' = rooms w /\ sockets w' = sockets w.
Proof.
  revert w. induction codes as [|code rest IH]; intros w;
    [exists w; repeat split|].
  cbn [heartbeat_loop]. unfold bind, gets.
  destruct (rooms w !! code) as [st|].
  - rewrite buildSyncPayload_run. unfold emit, modify.
    match goal with |- context [heartbeat_loop rest ?w1] =>
      destruct (IH w1) as (w' & Hrun & Hr & Hs) end.
    exists w'. split; [exact Hrun|].
    split; [rewrite Hr | rewrite Hs]; cbn [rooms sockets send];
      [apply ticks_rooms | apply ticks_sockets].
  - unfold ret. apply IH.
Qed.

Lemma getUniqueRoomCode_frame (w : World) :
  rooms (final_world (getUniqueRoomCode w)) = rooms w /\
  sockets (final_world (getUniqueRoomCode w)) = sockets w.
Proof.
  unfold getUniqueRoomCode.
  pose proof (getUniqueRoomCode_loop_run 1000 w) as Hloop.
  destruct (getUniqueRoomCode_loop 1000 w) as [code w1|e w1]; cbn [final_world].
  - destruct Hloop as (k & _ & _ & _ & _ & ->).
    split; [apply draws_rooms | apply draws_sockets].
  - destruct Hloop as (_ & _ & ->).
    split; [apply draws_rooms | apply draws_sockets].
Qed.

(** The body of the creation route, for any way of picking the code that
    leaves the registry and the connections alone. *)
Lemma create_room_effect (pick : M string) (v : JsVal) (w : World) :
  rooms (final_world (pick w)) = rooms w ->
  sockets (final_world (pick w)) = sockets w ->
  exists w',
    try_catch
      (let* code := pick in
       let requestedVideoId :=
         trim (Js.ToString NumberToString (or_else v (JStr ""))) in
       let* state := getOrCreateRoom code in
       let* state :=
         if truthy (JStr requestedVideoId) then
           let* state := assign code state (set_videoId (JStr requestedVideoId)) in
           let* state := assign code state (set_currentTime PrimFloat.zero) in
           let* state := assign code state (set_isPlaying false) in
           let* now := Date_now in
           assign code state (set_lastUpdatedAt now)
         else ret state in
       emit HttpReply (HttpCreated code (videoId state)))
      (fun _ => emit HttpReply (HttpMessage 500 "Failed to create room")) w
    = Ok tt w' /\
    rooms_step w w' /\ sockets w' = sockets w.
Proof.
  intros Hrooms Hsock. unfold try_catch. unfold bind at 1.
  destruct (pick w) as [code w1|e w1]; cbn [final_world] in Hrooms, Hsock.
  - destruct (getOrCreateRoom_run code w1) as (st0 & w0 & Hg & Hr0 & Hs0 & Hchat).
    rewrite Hrooms in Hr0, Hchat. rewrite Hsock in Hs0.
    unfold bind at 1. rewrite Hg.
    destruct (truthy (JStr (trim (Js.ToString NumberToString (or_else v (JStr ""))))));
      cbv beta iota zeta delta [bind assign modify ret Date_now emit];
      eexists; (split; [reflexivity|]); (split; [|exact Hs0]); right;
      cbn [rooms with_rooms send tick_clock];
      rewrite ?insert_insert_eq, Hr0, ?insert_insert_eq;
      match goal with |- exists _ _, <[?c := ?s]> _ = _ /\ _ => exists c, s end;
      (split; [reflexivity|]); left; exact Hchat.
  - eexists. split; [reflexivity|]. cbn [rooms sockets send].
    split; [left; exact Hrooms | exact Hsock].
Qed.

Lemma post_rooms_create_effect (v : JsVal) (w : World) :
  exists w', post_rooms_create v w = Ok tt w' /\
             rooms_step w w' /\ sockets w' = sockets w.
Proof.
  destruct (getUniqueRoomCode_frame w) as [Hrooms Hsock].
  exact (create_room_effect getUniqueRoomCode v w Hrooms Hsock).
Qed.

Lemma disconnect_effect (sid : nat) (data : SocketData) (w : World) :
  sockets w !! sid = Some data ->
  exists w', handle (Disconnect sid) w = Ok tt w' /\
             rooms w' = rooms w /\ sockets w' = delete sid (sockets w).
Proof.
  intros Hs. simpl handle. rewrite (connected_run _ _ _ _ Hs).
  cbv beta iota zeta delta [bind leave_all modify on_disconnect socket_data gets].
  cbn [sockets with_members]. rewrite Hs. cbn [default from_option id].
  destruct (negb (truthy (js_opt (sd_roomCode data)))
            || negb (truthy (js_opt (sd_username data))));
    eexists; (split; [reflexivity|]); split; reflexivity.
Qed.

(** Every event changes the registry and the connections in one of the ways
    [rooms_step] and [sockets_step] list. *)
Lemma step_effect (w : World) (e : Event) :
  rooms_step w (step w e) /\ sockets_step w e (step w e).
Proof.
  unfold step.
  destruct e as [sid|sid c u|sid v|sid t|sid t|sid t|sid text|sid|v|p| |sid l].
  - (* connection *)
    simpl handle. unfold bind, gets.
    destruct (sockets w !! sid) as [data|] eqn:Hs.
    + split; left; reflexivity.
    + split; [left; reflexivity|]. right. right. left.
      exists sid. repeat split. exact Hs.
  - simpl handle. destruct (sockets w !! sid) as [data|] eqn:Hs.
    + rewrite (connected_run _ _ _ _ Hs).
      destruct (on_join_effect sid c u w) as [Hr [Hk|(d & Hd & Hk)]];
        (split; [left; exact Hr|]); [left; exact Hk|].
      right. left. exists sid, c, u, d. repeat split; assumption.
    + unfold connected, bind, gets. rewrite Hs. split; left; reflexivity.
  - simpl handle. destruct (on_set_video_effect sid v w) as [Hr Hk].
    split; [exact Hr | left; exact Hk].
  - simpl handle. destruct (on_sync_effect "sync-play" (Some true) sid t w) as [Hr Hk].
    split; [exact Hr | left; exact Hk].
  - simpl handle. destruct (on_sync_effect "sync-pause" (Some false) sid t w) as [Hr Hk].
    split; [exact Hr | left; exact Hk].
  - simpl handle. destruct (on_sync_effect "sync-seek" None sid t w) as [Hr Hk].
    split; [exact Hr | left; exact Hk].
  - simpl handle. destruct (on_chat_effect sid text w) as [Hr Hk].
    split; [exact Hr | left; exact Hk].
  - destruct (sockets w !! sid) as [data|] eqn:Hs.
    + destruct (disconnect_effect sid data w Hs) as (w' & Hrun & Hr & Hk).
      rewrite Hrun. cbn [final_world].
      split; [left; exact Hr|]. right. right. right. exists sid.
      split; [reflexivity | exact Hk].
    + simpl handle. unfold connected, bind, gets. rewrite Hs.
      split; left; reflexivity.
  - simpl handle. destruct (post_rooms_create_effect v w) as (w' & Hrun & Hr & Hk).
    rewrite Hrun. split; [exact Hr | left; exact Hk].
  - simpl handle. destruct (get_rooms_effect p w) as [Hr Hk].
    split; [left; exact Hr | left; exact Hk].
  - simpl handle. unfold heartbeat, bind, gets.
    destruct (heartbeat_loop_effect (room_order w) w) as (w' & Hrun & Hr & Hk).
    rewrite Hrun. split; [left; exact Hr | left; exact Hk].
  - (* no payload *)
    simpl handle. unfold connected, bind, gets.
    destruct (sockets w !! sid); split; left; reflexivity.
Qed.

Lemma rooms_step_bounded (w w' : World) :
  rooms_step w w' -> chat_bounded w -> chat_bounded w'.
Proof.
  intros [Hsame|(code & st' & Hrooms & Hchat)] Hb code' st Hl.
  - rewrite Hsame in Hl. exact (Hb _ _ Hl).
  - rewrite Hrooms in Hl. destruct (decide (code = code')) as [<-|Hne].
    + rewrite lookup_insert_eq in Hl. injection Hl as <-.
      assert (Hold : length (default [] (chat <$> rooms w !! code)) <= 200).
      { destruct (rooms w !! code) as [st0|] eqn:H0; cbn; [exact (Hb _ _ H0) | lia]. }
      destruct Hchat as [-> | [m ->]]; [exact Hold | apply chat_push_bounded, Hold].
    + rewrite lookup_insert_ne in Hl by exact Hne. exact (Hb _ _ Hl).
Qed.

Lemma run_bounded (es : list Event) (w : World) :
  chat_bounded w -> chat_bounded (run w es).
Proof.
  revert w. induction es as [|e es IH]; intros w Hb; [exact Hb|].
  cbn [run foldl]. apply IH.
  exact (rooms_step_bounded _ _ (proj1 (step_effect w e)) Hb).
Qed.

(** ** The chat log under a sequence of messages *)

Lemma chat_sequence (socks : gmap nat SocketData) (code : string)
    (posts : list (nat * string)) :
  code <> "" ->
  Forall (may_post socks code) posts ->
  forall (w : World) (st : RoomState) (sent : list ChatMessage),
    sockets w = socks ->
    rooms w !! code = Some st ->
    chat st = slice_last 200 sent ->
    exists st',
      rooms (run w (map post_event posts)) !! code = Some st' /\
      chat st' =
        slice_last 200
          (sent ++ chat_messages_at socks posts (clock_reads w) (random_draws w)).
Proof.
  intros Hne Hposts.
  induction Hposts as [|[sid text] posts Hpost _ IH]; intros w st sent Hsocks Hr Hchat.
  - exists st. cbn. rewrite app_nil_r. split; assumption.
  - destruct Hpost as (data & name & Hs & Hc & Hu & Hnn & Htext).
    cbn [fst snd] in Hs, Htext. rewrite <- Hsocks in Hs.
    cbn [map run foldl chat_messages_at].
    change (post_event (sid, text)) with (ChatMessageEv sid (JStr text)).
    destruct (on_chat_joined w sid data code name text Hs Hc Hne Hu Hnn Htext)
      as (st0 & w0 & w' & Hg & Hrun & Hrooms & _ & Hsock & _ & Hclock & Hrand & _).
    rewrite (getOrCreateRoom_present _ _ _ Hr) in Hg. injection Hg as <- <-.
    cbv zeta in Hrooms.
    assert (Hstep : step w (ChatMessageEv sid (JStr text)) = w').
    { unfold step. simpl handle. rewrite (connected_run _ _ _ _ Hs), Hrun.
      reflexivity. }
    rewrite Hstep. rewrite <- Hsocks, Hs. cbn [default from_option id].
    set (m := chat_message_at data text (clock_reads w) (random_draws w)) in *.
    assert (Hlen : length (chat st) <= 200)
      by (rewrite Hchat, slice_last_length; lia).
    destruct (IH w' (set_chat (chat_push (chat st) m) st) (sent ++ [m])%list)
      as (st' & Hr' & Hchat').
    + rewrite Hsock. exact Hsocks.
    + rewrite Hrooms. apply lookup_insert_eq.
    + cbn [chat set_chat]. rewrite (chat_push_slice _ _ Hlen), Hchat.
      apply slice_last_snoc. lia.
    + exists st'. split; [exact Hr'|].
      rewrite Hchat', Hclock, Hrand, <- app_assoc, Hsocks. reflexivity.
Qed.

Lemma chat_messages_length (socks : gmap nat SocketData)
    (posts : list (nat * string)) (reads drawn : nat) :
  length (chat_messages_at socks posts reads drawn) = length posts.
Proof.
  revert reads drawn. induction posts as [|[sid text] posts IH];
    intros reads drawn; [reflexivity|]. cbn. rewrite IH. reflexivity.
Qed.

(** C3. No sequence of events makes a chat log longer than 200 entries.
    When participants joined to a room send it a sequence of non-blank
    messages, the log that results is the last 200 entries of the old log
    followed by the new messages, in the order they were sent.  Starting from
    an empty log, 250 messages leave exactly messages 50 to 249, in order. *)
Theorem chat_log_capped :
  (forall es, chat_bounded (run empty_world es)) /\
  (forall w es, chat_bounded w -> chat_bounded (run w es)) /\
  (forall w code st posts,
     code <> "" ->
     rooms w !! code = Some st ->
     length (chat st) <= 200 ->
     Forall (may_post (sockets w) code) posts ->
     let sent :=
       chat_messages_at (sockets w) posts (clock_reads w) (random_draws w) in
     exists st',
       rooms (run w (map post_event posts)) !! code = Some st' /\
       chat st' = slice_last 200 (chat st ++ sent) /\
       length (chat st') <= 200 /\
       (chat st = [] -> length posts = 250 ->
        chat st' = drop 50 sent /\
        length (chat st') = 200 /\
        forall i, i < 200 -> chat st' !! i = sent !! (50 + i))).
Proof.
  split; [|split].
  - intros es. apply run_bounded. intros code st Hl.
    cbn in Hl. rewrite lookup_empty in Hl. discriminate.
  - intros w es. apply run_bounded.
  - intros w code st posts Hne Hr Hlen Hposts sent.
    destruct (chat_sequence (sockets w) code posts Hne Hposts
                w st (chat st) eq_refl Hr) as (st' & Hr' & Hchat').
    { symmetry. apply slice_last_short, Hlen. }
    fold sent in Hchat'.
    exists st'. split; [exact Hr'|]. split; [exact Hchat'|].
    split; [rewrite Hchat', slice_last_length; lia|].
    intros Hempty H250.
    assert (Hsent : length sent = 250)
      by (unfold sent; rewrite chat_messages_length; exact H250).
    assert (Hdrop : chat st' = drop 50 sent).
    { rewrite Hchat', Hempty. cbn [app]. unfold slice_last. rewrite Hsent.
      reflexivity. }
    split; [exact Hdrop|]. split.
    + rewrite Hdrop, length_drop, Hsent. reflexivity.
    + intros i _. rewrite Hdrop. apply lookup_drop.
Qed.

(** ** Room membership of a connection *)

(** C5, as the code has it.  A joined participant stays joined for as long
    as its connection lasts, and only a [join-room] event on that very
    connection changes its socket data.  Such an event is not refused: when
    it names an existing room with a well-formed code and a non-blank user
    name, the participant's membership becomes that room, whatever room it
    was in before. *)
Theorem join_membership (w : World) (sid : nat) (data : SocketData) :
  sockets w !! sid = Some data ->
  joined data = true ->
  (forall e data',
     sockets (step w e) !! sid = Some data' ->
     joined data' = true /\
     (data' <> data -> exists c u, e = JoinRoom sid c u)) /\
  (forall c u st,
     clean_name u <> "" ->
     isValidRoomCode (normalizeRoomCode NumberToString c) = true ->
     rooms w !! normalizeRoomCode NumberToString c = Some st ->
     sockets (step w (JoinRoom sid c u)) !! sid =
       Some {| sd_roomCode := Some (normalizeRoomCode NumberToString c);
               sd_username := Some (clean_name u) |}).
Proof.
  intros Hs Hj. split.
  - intros e data' Hs'.
    destruct (step_effect w e) as [_ Hstep].
    destruct Hstep as [Hsame|[(sid0 & c & u & d & He & Hd & Hk)
                             |[(sid0 & He & Hnone & Hk)|(sid0 & He & Hk)]]].
    + rewrite Hsame, Hs in Hs'. injection Hs' as <-.
      split; [exact Hj | intros Hne; contradiction].
    + rewrite Hk in Hs'. destruct (decide (sid0 = sid)) as [->|Hne].
      * rewrite lookup_insert_eq in Hs'. injection Hs' as <-.
        split; [exact Hd | intros _; eauto].
      * rewrite lookup_insert_ne in Hs' by exact Hne. rewrite Hs in Hs'.
        injection Hs' as <-. split; [exact Hj | intros Hn; contradiction].
    + rewrite Hk in Hs'. destruct (decide (sid0 = sid)) as [->|Hne];
        [congruence|].
      rewrite lookup_insert_ne in Hs' by exact Hne. rewrite Hs in Hs'.
      injection Hs' as <-. split; [exact Hj | intros Hn; contradiction].
    + rewrite Hk in Hs'. destruct (decide (sid0 = sid)) as [->|Hne].
      * rewrite lookup_delete_eq in Hs'. discriminate.
      * rewrite lookup_delete_ne in Hs' by exact Hne. rewrite Hs in Hs'.
        injection Hs' as <-. split; [exact Hj | intros Hn; contradiction].
  - intros c u st Hn Hv Hr.
    assert (Hn' : (clean_name u =? "") = false)
      by (destruct (String.eqb_spec (clean_name u) ""); [contradiction|reflexivity]).
    destruct (on_join_success sid c u w st Hn' Hv Hr)
      as (w' & Hrun & _ & _ & Hsock & _).
    unfold step. simpl handle. rewrite (connected_run _ _ _ _ Hs), Hrun.
    cbn [final_world]. rewrite Hsock. apply lookup_insert_eq.
Qed.

End Facts.

(** * The sample session *)

Lemma sample_random_ok : forall n, random_ok (random_source (Host := sample_host) n).
Proof.
  intros n. unfold random_ok. cbn [random_source sample_host].
  assert (Hscale : RANDOM_SCALE = (32 * (RANDOM_SCALE / 32))%Z)
    by (vm_compute; reflexivity).
  pose proof RANDOM_SCALE_pos as Hpos.
  pose proof (Nat.mod_upper_bound n 32 ltac:(lia)) as Hmod.
  set (q := (RANDOM_SCALE / 32)%Z) in *. set (k := n mod 32) in *.
  rewrite Hscale. nia.
Qed.

Example sample_room_socket : sockets sample_room !! 1 = Some sample_data.
Proof. vm_compute. reflexivity. Qed.

Example sample_room_state : rooms sample_room !! "ABCDEF" = Some sample_state.
Proof. vm_compute. reflexivity. Qed.

(** The scenario of the specification: Ann starts playback at 10 s; Bo joins
    three clock readings (three seconds) later and is told 13 s, playing. *)
Example late_joiner_catches_up :
  let w := run (host := sample_host) sample_room
             [SyncPlay 1 (JNum 10); JoinRoom 2 (JStr "ABCDEF") (JStr "Bo")] in
  exists now1 now2 history,
    outbox w !! 5 =
      Some {| em_target := ToSocket 2; em_recipients := {[ 2 ]};
              em_message :=
                RoomStateMsg "ABCDEF" (JStr "v1")
                  {| sp_isPlaying := true; sp_currentTime := 13;
                     sp_serverNow := now1 |} history |} /\
    outbox w !! 6 =
      Some {| em_target := ToRoom "ABCDEF"; em_recipients := {[ 1; 2 ]};
              em_message := SystemMessage "Bo joined" now2 |}.
Proof. eexists _, _, _. split; vm_compute; reflexivity. Qed.

(** A generator whose random source is stuck runs out of attempts once its
    only code is taken, and the creation route answers 500. *)
Example stuck_generator_gives_up :
  let w1 := step (host := stuck_host) empty_world (PostRoomsCreate JUndefined) in
  let w2 := step (host := stuck_host) w1 (PostRoomsCreate JUndefined) in
  map em_message (outbox w2) =
    [HttpCreated "AAAAAA" (JStr "dQw4w9WgXcQ");
     HttpMessage 500 "Failed to create room"] /\
  rooms w2 = rooms w1 /\
  random_draws w2 = 6 + 6 * 1000.
Proof. repeat split; vm_compute; reflexivity. Qed.

(** A chat text that is neither absent nor a string has no [trim]: the
    handler of a joined participant throws, with the world as it was. *)
Example chat_text_without_trim_throws :
  handle (host := sample_host) (ChatMessageEv 1 (JNum 3)) sample_room
    = Throw (TypeError "text?.trim is not a function") sample_room.
Proof. vm_compute. reflexivity. Qed.

(** A [sync-play] emitted with no payload throws before its guard, also
    when it comes from a participant that never joined. *)
Example sync_play_without_payload_throws :
  joined_at sample_room 2 = false /\
  handle (host := sample_host) (Bare 2 OnSyncPlay) sample_room
    = Throw (TypeError
               "Cannot destructure property 'currentTime' of 'undefined' as it is undefined.")
        sample_room.
Proof. split; vm_compute; reflexivity. Qed.

(** A sync event without a time is not refused: the time is read as 0. *)
Example sync_play_without_time :
  exists st,
    rooms (step (host := sample_host) sample_room (SyncPlay 1 JUndefined))
      !! "ABCDEF" = Some st /\
    isPlaying st = true /\ currentTime st = PrimFloat.zero.
Proof. eexists. split; [vm_compute; reflexivity | split; reflexivity]. Qed.

(** ** Inputs on which the specification's wording fails *)

(** C4, counterexample.  [ABCDE0] contains [0], which is not in the 32-symbol
    alphabet, yet it passes the format check, and a join with it is answered
    "Room does not exist", not "Invalid room code or username".  And a join
    is accepted for [" ghjklm "], which is neither upper case nor six
    characters long as it is supplied. *)
Lemma code_with_zero_not_invalid :
  join_accepted 2 sample_room
    (step (host := sample_host) sample_room
       (JoinRoom 2 (JStr " ghjklm ") (JStr "Bo"))) /\
  in_charset "0" = false /\
  isValidRoomCode
    (normalizeRoomCode (NumberToString (Host := sample_host)) (JStr "ABCDE0")) = true /\
  handle (host := sample_host) (JoinRoom 2 (JStr "ABCDE0") (JStr "Bo")) sample_room
    = Ok tt (send (join_error 2 "Room does not exist") sample_room) /\
  handle (host := sample_host) (JoinRoom 2 (JStr "ABCDE0") (JStr "Bo")) sample_room
    <> Ok tt (send (join_error 2 "Invalid room code or username") sample_room).
Proof.
  split.
  { assert (E : exists st, rooms sample_room !! "GHJKLM" = Some st)
      by (vm_compute; eexists; reflexivity).
    destruct E as [st E].
    destruct (on_join_success (host := sample_host) 2 (JStr " ghjklm ")
                (JStr "Bo") sample_room st
                ltac:(vm_compute; reflexivity) ltac:(vm_compute; reflexivity) E)
      as (w' & Hrun & _ & _ & _ & _ & Hout).
    unfold step. simpl handle.
    rewrite (connected_run 2 {| sd_roomCode := None; sd_username := None |}
               _ sample_room ltac:(vm_compute; reflexivity)).
    rewrite Hrun. cbn [final_world]. do 5 eexists. exact Hout. }
  split; [reflexivity|]. split; [reflexivity|].
  assert (H : handle (host := sample_host)
                (JoinRoom 2 (JStr "ABCDE0") (JStr "Bo")) sample_room
              = Ok tt (send (join_error 2 "Room does not exist") sample_room))
    by (vm_compute; reflexivity).
  split; [exact H|]. rewrite H. intros E.
  apply (f_equal (fun r => map em_message (outbox (final_world r)))) in E.
  vm_compute in E. discriminate E.
Qed.

(** C7, counterexample.  No room is registered under [ZZ], yet a join with
    [zz] is answered with the invalid-input error, not the not-found one;
    and so is a join with the well-formed code [ZZZZZZ], which names no room
    either, when the user name is blank. *)
Lemma absent_code_answered_invalid :
  rooms sample_room
    !! normalizeRoomCode (NumberToString (Host := sample_host)) (JStr "zz") = None /\
  rooms sample_room !! "ZZZZZZ" = None /\
  handle (host := sample_host) (JoinRoom 2 (JStr "zz") (JStr "Bo")) sample_room
    = Ok tt (send (join_error 2 "Invalid room code or username") sample_room) /\
  handle (host := sample_host) (JoinRoom 2 (JStr "ZZZZZZ") (JStr "  ")) sample_room
    = Ok tt (send (join_error 2 "Invalid room code or username") sample_room) /\
  join_error 2 "Invalid room code or username" <> join_error 2 "Room does not exist".
Proof.
  split; [vm_compute; reflexivity|]. split; [vm_compute; reflexivity|].
  split; [vm_compute; reflexivity|]. split; [vm_compute; reflexivity|].
  intros E. apply (f_equal em_message) in E. discriminate E.
Qed.

(** C5, counterexample.  Socket 1 is joined to [ABCDEF]; a second
    [join-room] on the same connection moves it to [GHJKLM]. *)
Lemma rejoin_changes_room :
  let w' := step (host := sample_host) sample_room
              (JoinRoom 1 (JStr "GHJKLM") (JStr "Ann")) in
  sd_roomCode <$> (sockets sample_room !! 1) = Some (Some "ABCDEF") /\
  sd_roomCode <$> (sockets w' !! 1) = Some (Some "GHJKLM").
Proof. split; vm_compute; reflexivity. Qed.

(** C8, counterexample.  A [join-room] with a blank user name fails its
    precondition and is not silent: a join error is emitted. *)
Lemma failed_join_is_not_silent :
  let e := JoinRoom 2 (JStr "ABCDEF") (JStr "  ") in
  precondition (host := sample_host) sample_room e = false /\
  handle (host := sample_host) e sample_room
    = Ok tt (send (join_error 2 "Invalid room code or username") sample_room) /\
  length (outbox (step (host := sample_host) sample_room e))
    = S (length (outbox sample_room)).
Proof. repeat split; vm_compute; reflexivity. Qed.

(** ** The theorems at work on the sample session *)

Lemma sync_pause_snapshot_witness :
  exists st,
    rooms (step (host := sample_host) sample_room (SyncPause 1 (JNum 42)))
      !! "ABCDEF" = Some st /\
    isPlaying st = false /\ currentTime st = 42%float.
Proof.
  destruct (sync_pause_snapshot (host := sample_host) sample_room 1 sample_data
              "ABCDEF" (JNum 42)
              ltac:(vm_compute; reflexivity) ltac:(reflexivity)
              ltac:(vm_compute; reflexivity) ltac:(vm_compute; reflexivity))
    as (st & Hr & Hp & _ & Ht & _).
  exists st. split; [exact Hr|]. split; [exact Hp|].
  apply Ht. vm_compute. reflexivity.
Defined.

Lemma sample_posts_allowed (n : nat) :
  Forall (may_post (sockets sample_room) "ABCDEF") (replicate n (1, " hi ")).
Proof.
  apply Forall_forall. intros post Hin.
  apply elem_of_replicate in Hin as [-> _].
  exists sample_data, "Ann". cbn [fst snd].
  split; [vm_compute; reflexivity|]. split; [reflexivity|].
  split; [reflexivity|]. split; [discriminate | vm_compute; discriminate].
Qed.

Lemma chat_log_capped_witness :
  exists st',
    rooms (run (host := sample_host) sample_room
             (map post_event (replicate 250 (1, " hi "))))
      !! "ABCDEF" = Some st' /\
    length (chat st') = 200.
Proof.
  destruct (proj2 (proj2 (chat_log_capped (host := sample_host)))
              sample_room "ABCDEF" sample_state (replicate 250 (1, " hi "))
              ltac:(discriminate) ltac:(vm_compute; reflexivity)
              ltac:(vm_compute; lia) (sample_posts_allowed 250))
    as (st' & Hr & _ & _ & Hlast).
  exists st'. split; [exact Hr|].
  apply Hlast; vm_compute; reflexivity.
Defined.

Lemma join_membership_witness :
  sockets (step (host := sample_host) sample_room
             (JoinRoom 1 (JStr "ghjklm") (JStr " Ann ")))
    !! 1 = Some {| sd_roomCode := Some "GHJKLM"; sd_username := Some "Ann" |}.
Proof.
  apply (proj2 (join_membership (host := sample_host) sample_room 1 sample_data
                  ltac:(vm_compute; reflexivity) ltac:(vm_compute; reflexivity))
           (JStr "ghjklm") (JStr " Ann ")
           {| roomCode := "GHJKLM"; videoId := JStr "dQw4w9WgXcQ";
              isPlaying := false; currentTime := PrimFloat.zero;
              lastUpdatedAt := 1700000002000%float; chat := [] |}).
  - vm_compute. discriminate.
  - vm_compute. reflexivity.
  - vm_compute. reflexivity.
Defined.

Lemma getUniqueRoomCode_spec_witness :
  exists code w',
    getUniqueRoomCode (host := sample_host) sample_room = Ok code w' /\
    String.length code = 6 /\
    string_forallb in_charset code = true /\
    rooms sample_room !! code = None.
Proof.
  pose proof (getUniqueRoomCode_spec (host := sample_host) sample_room
                sample_random_ok) as H.
  destruct (getUniqueRoomCode (host := sample_host) sample_room)
    as [code w'|e w'] eqn:E.
  - exists code, w'. destruct H as (Hl & Hc & Hf & _).
    split; [reflexivity|]. split; [exact Hl|]. split; [exact Hc | exact Hf].
  - exfalso. vm_compute in E. discriminate E.
Defined.

Lemma join_unknown_room_witness :
  exists message,
    handle (host := sample_host) (JoinRoom 2 (JStr "ZZZZZZ") (JStr "Bo")) sample_room
      = Ok tt (send (join_error 2 message) sample_room) /\
    message = "Room does not exist".
Proof.
  destruct (join_unknown_room (host := sample_host) sample_room 2
              {| sd_roomCode := None; sd_username := None |}
              (JStr "ZZZZZZ") (JStr "Bo")
              ltac:(vm_compute; reflexivity) ltac:(vm_compute; reflexivity))
    as (message & Hrun & _ & _ & _ & Hmsg & _).
  exists message. split; [exact Hrun|].
  apply Hmsg; [vm_compute; reflexivity | vm_compute; discriminate].
Defined.

Lemma failed_precondition_witness :
  handle (host := sample_host) (SetVideo 2 (JStr "v2")) sample_room
    = Ok tt sample_room /\
  handle (host := sample_host) (ChatMessageEv 1 (JStr "   ")) sample_room
    = Ok tt sample_room.
Proof.
  split.
  - apply (proj1 (proj2 (proj2 (failed_precondition (host := sample_host)
             sample_room (SetVideo 2 (JStr "v2"))
             ltac:(reflexivity) ltac:(vm_compute; reflexivity))))).
    reflexivity.
  - apply (proj1 (proj2 (proj2 (failed_precondition (host := sample_host)
             sample_room (ChatMessageEv 1 (JStr "   "))
             ltac:(reflexivity) ltac:(vm_compute; reflexivity))))).
    reflexivity.
Defined.

Lemma sync_seek_frame_witness :
  exists w' st',
    handle (host := sample_host) (SyncSeek 1 (JNum 30)) sample_room = Ok tt w' /\
    rooms w' !! "ABCDEF" = Some st' /\
    currentTime st' = 30%float /\
    isPlaying st' = false /\
    videoId st' = JStr "v1".
Proof.
  destruct (sync_seek_frame (host := sample_host) sample_room 1 sample_data
              "ABCDEF" sample_state (JNum 30)
              ltac:(vm_compute; reflexivity) ltac:(reflexivity)
              ltac:(discriminate) ltac:(vm_compute; reflexivity))
    as (w' & st' & e & Hrun & Hrooms & Ht & _ & Hp & Hv & _).
  exists w', st'. split; [exact Hrun|].
  split; [rewrite Hrooms; apply lookup_insert_eq|].
  split; [rewrite Ht; vm_compute; reflexivity|].
  split; [rewrite Hp; reflexivity | rewrite Hv; reflexivity].
Defined.


(** * More of the server *)

Section Registry.
Context {host : Host}.

Lemma same_core_refl (w : World) : same_core w w.
Proof. repeat split. Qed.

Lemma same_core_trans (w1 w2 w3 : World) :
  same_core w1 w2 -> same_core w2 w3 -> same_core w1 w3.
Proof.
  intros (A1 & A2 & A3 & A4) (B1 & B2 & B3 & B4).
  repeat split; congruence.
Qed.

Lemma same_core_ticks (n : nat) (w : World) : same_core w (ticks n w).
Proof. induction n as [|n IH]; [apply same_core_refl | exact IH]. Qed.

Lemma same_core_draws (n : nat) (w : World) : same_core w (draws n w).
Proof. induction n as [|n IH]; [apply same_core_refl | exact IH]. Qed.

Lemma same_core_send (e : Emission) (w : World) : same_core w (send e w).
Proof. repeat split. Qed.

Lemma same_core_consistent (w w' : World) :
  same_core w w' -> consistent w -> consistent w'.
Proof.
  intros (Hr & Ho & Hs & Hm) (Hk & Hord & Hg & Hmc).
  unfold consistent, keyed, ordered, grounded, members_connected.
  rewrite Hr, Ho, Hs, Hm. split; [exact Hk|]. split; [exact Hord|].
  split; [exact Hg | exact Hmc].
Qed.

Lemma getOrCreateRoom_absent (code : string) (w : World) :
  rooms w !! code = None ->
  getOrCreateRoom code w =
    Ok (fresh_room code (date_source (clock_reads w)))
       (with_rooms (insert code (fresh_room code (date_source (clock_reads w))))
          (with_room_order (fun o => (o ++ [code])%list) (tick_clock w))).
Proof.
  intros Hr. unfold getOrCreateRoom, bind, gets. rewrite Hr.
  unfold Date_now, rooms_set, modify, ret. cbn [rooms tick_clock].
  rewrite bool_decide_false by (rewrite Hr; apply is_Some_None). reflexivity.
Qed.

Lemma draws_outbox (n : nat) (w : World) : outbox (draws n w) = outbox w.
Proof. induction n as [|n IH]; [reflexivity | exact IH]. Qed.

Lemma draws_clock (n : nat) (w : World) : clock_reads (draws n w) = clock_reads w.
Proof. induction n as [|n IH]; [reflexivity | exact IH]. Qed.

Lemma ticks_outbox (n : nat) (w : World) : outbox (ticks n w) = outbox w.
Proof. induction n as [|n IH]; [reflexivity | exact IH]. Qed.

Lemma ticks_members (n : nat) (w : World) : members (ticks n w) = members w.
Proof. induction n as [|n IH]; [reflexivity | exact IH]. Qed.

Lemma ticks_clock (n : nat) (w : World) : clock_reads (ticks n w) = n + clock_reads w.
Proof. induction n as [|n IH]; simpl; [reflexivity | rewrite IH; reflexivity]. Qed.

(** The outcome of the code generator: a code that names no room, or the
    error, after some draws that touch nothing else. *)
Lemma getUniqueRoomCode_outcome (w : World) :
  match getUniqueRoomCode w with
  | Ok code w1 =>
      rooms w !! code = None /\
      exists k, k < 1000 /\ code = candidate w k /\
                w1 = draws (ROOM_CODE_LENGTH * S k) w
  | Throw e w1 => exists n, w1 = draws n w
  end.
Proof.
  unfold getUniqueRoomCode.
  pose proof (getUniqueRoomCode_loop_run 1000 w) as Hloop.
  destruct (getUniqueRoomCode_loop 1000 w) as [code w1|e w1].
  - destruct Hloop as (k & Hk & Hcode & Hfree & _ & Hw1).
    split; [exact Hfree|]. exists k. repeat split; assumption.
  - destruct Hloop as (_ & _ & Hw1). eexists. exact Hw1.
Qed.

(** The creation route once the code is picked. *)
Lemma create_room_picked (pick : M string) (v : JsVal) (w w1 : World)
    (code : string) :
  pick w = Ok code w1 ->
  same_core w w1 -> outbox w1 = outbox w -> clock_reads w1 = clock_reads w ->
  rooms w !! code = None ->
  let requested := trim (Js.ToString NumberToString (or_else v (JStr ""))) in
  exists w' st',
    try_catch
      (let* code := pick in
       let requestedVideoId :=
         trim (Js.ToString NumberToString (or_else v (JStr ""))) in
       let* state := getOrCreateRoom code in
       let* state :=
         if truthy (JStr requestedVideoId) then
           let* state := assign code state (set_videoId (JStr requestedVideoId)) in
           let* state := assign code state (set_currentTime PrimFloat.zero) in
           let* state := assign code state (set_isPlaying false) in
           let* now := Date_now in
           assign code state (set_lastUpdatedAt now)
         else ret state in
       emit HttpReply (HttpCreated code (videoId state)))
      (fun _ => emit HttpReply (HttpMessage 500 "Failed to create room")) w
    = Ok tt w' /\
    rooms w' = <[code := st']> (rooms w) /\
    room_order w' = (room_order w ++ [code])%list /\
    sockets w' = sockets w /\
    members w' = members w /\
    outbox w' = (outbox w ++ [http_reply (HttpCreated code (videoId st'))])%list /\
    roomCode st' = code /\
    videoId st' = JStr (if requested =? "" then "dQw4w9WgXcQ" else requested) /\
    isPlaying st' = false /\
    currentTime st' = PrimFloat.zero /\
    chat st' = [] /\
    lastUpdatedAt st' =
      date_source (if requested =? "" then clock_reads w else S (clock_reads w)).
Proof.
  intros Hpick (Hr & Ho & Hs & Hm) Hout Hclock Hfree requested.
  unfold try_catch. unfold bind at 1. rewrite Hpick.
  unfold bind at 1. rewrite getOrCreateRoom_absent by (rewrite Hr; exact Hfree).
  fold requested. simpl truthy.
  destruct (requested =? "") eqn:Hreq; cbn [negb];
    cbv beta iota zeta delta [bind assign modify ret Date_now emit];
    eexists _, _; (split; [reflexivity|]);
    cbn [rooms room_order sockets members outbox clock_reads with_rooms
         with_room_order send tick_clock recipients];
    rewrite ?insert_insert_eq, Hr, Ho, Hs, Hm, Hout, Hclock;
    repeat split.
Qed.

Lemma create_room_failed (pick : M string) (v : JsVal) (w w1 : World)
    (e : JsError) :
  pick w = Throw e w1 ->
  try_catch
    (let* code := pick in
     let requestedVideoId :=
       trim (Js.ToString NumberToString (or_else v (JStr ""))) in
     let* state := getOrCreateRoom code in
     let* state :=
       if truthy (JStr requestedVideoId) then
         let* state := assign code state (set_videoId (JStr requestedVideoId)) in
         let* state := assign code state (set_currentTime PrimFloat.zero) in
         let* state := assign code state (set_isPlaying false) in
         let* now := Date_now in
         assign code state (set_lastUpdatedAt now)
       else ret state in
     emit HttpReply (HttpCreated code (videoId state)))
    (fun _ => emit HttpReply (HttpMessage 500 "Failed to create room")) w
  = Ok tt (send (http_reply (HttpMessage 500 "Failed to create room")) w1).
Proof.
  intros Hpick. unfold try_catch. unfold bind at 1. rewrite Hpick. reflexivity.
Qed.

End Registry.

Section Steps.
Context {host : Host}.

Lemma grounded_room (w : World) (sid : nat) (data : SocketData) (code : string) :
  grounded w -> sockets w !! sid = Some data -> sd_roomCode data = Some code ->
  code <> "" /\ exists st, rooms w !! code = Some st.
Proof.
  intros Hg Hs Hc. destruct (Hg sid data code Hs Hc) as (Hv & [st Hst] & _).
  split; [apply valid_code_nonempty, Hv | eauto].
Qed.

Lemma joined_code (data : SocketData) :
  joined data = true -> exists code, sd_roomCode data = Some code /\ code <> "".
Proof.
  unfold joined. destruct (sd_roomCode data) as [code|]; [|discriminate].
  intros H. exists code. split; [reflexivity|]. intros ->. discriminate H.
Qed.

Lemma disconnect_run (sid : nat) (data : SocketData) (w : World) :
  sockets w !! sid = Some data ->
  exists w',
    handle (Disconnect sid) w = Ok tt w' /\
    rooms w' = rooms w /\ room_order w' = room_order w /\
    sockets w' = delete sid (sockets w) /\
    members w' = (fun s : gset nat => s ∖ {[ sid ]}) <$> members w /\
    (joined data = false -> outbox w' = outbox w) /\
    (forall code name,
       sd_roomCode data = Some code -> code <> "" ->
       sd_username data = Some name -> name <> "" ->
       outbox w' =
         (outbox w ++
          [{| em_target := ToRoom code;
              em_recipients := default ∅ (members w !! code) ∖ {[ sid ]};
              em_message := SystemMessage (name ++ " left")
                              (date_source (clock_reads w)) |}])%list).
Proof.
  intros Hs. simpl handle. rewrite (connected_run _ _ _ _ Hs).
  cbv beta iota zeta delta [bind leave_all modify on_disconnect socket_data gets].
  cbn [sockets with_members]. rewrite Hs. cbn [default from_option id].
  unfold joined.
  destruct (truthy (js_opt (sd_roomCode data))) eqn:Hj;
    [destruct (truthy (js_opt (sd_username data))) eqn:Hu|]; cbn [negb orb].
  - eexists. split; [reflexivity|]. do 4 (split; [reflexivity|]).
    split; [discriminate|].
    intros code name Hc Hne Hn Hnn. rewrite Hc, Hn.
    cbv beta iota zeta delta [bind Date_now emit modify].
    assert (Hrec : default ∅ ((fun s : gset nat => s ∖ {[ sid ]}) <$> members w !! code)
                   = default ∅ (members w !! code) ∖ {[ sid ]})
.
    { destruct (members w !! code); cbn; [reflexivity|].
      apply set_eq. intros x. rewrite elem_of_difference.
      split; [intros Hx | intros [Hx _]]; exfalso; exact (not_elem_of_empty x Hx). }
    cbn. rewrite lookup_fmap, Hrec. reflexivity.
  - eexists. split; [reflexivity|]. do 4 (split; [reflexivity|]).
    split; [discriminate|].
    intros code name Hc Hne Hn Hnn. rewrite Hn in Hu. cbn in Hu.
    apply negb_false_iff, String.eqb_eq in Hu. contradiction.
  - eexists. split; [reflexivity|]. do 4 (split; [reflexivity|]).
    split; [reflexivity|].
    intros code name Hc Hne Hn Hnn. rewrite Hc in Hj. cbn in Hj.
    apply negb_false_iff, String.eqb_eq in Hj. contradiction.
Qed.

Lemma heartbeat_loop_run (codes : list string) (w0 w : World) :
  same_core w0 w -> clock_reads w0 <= clock_reads w ->
  Forall (fun code => is_Some (rooms w0 !! code)) codes ->
  exists w' beats,
    heartbeat_loop codes w = Ok tt w' /\
    same_core w0 w' /\
    outbox w' = (outbox w ++ beats)%list /\
    Forall2 (beat_of w0) codes beats.
Proof.
  intros Hcore Hclock Hall. revert w Hcore Hclock.
  induction Hall as [|code rest [st Hst] _ IH]; intros w Hcore Hclock.
  - exists w, []. rewrite app_nil_r. repeat split; try apply Hcore. constructor.
  - destruct Hcore as (Hr & Ho & Hs & Hm).
    cbn [heartbeat_loop]. unfold bind at 1. unfold bind at 1, gets.
    rewrite Hr, Hst. unfold bind at 1. rewrite buildSyncPayload_run.
    unfold emit, modify.
    match goal with |- context [heartbeat_loop rest ?w1] =>
      destruct (IH w1) as (w' & beats & Hrun & Hcore' & Hout & Hbeats) end.
    { destruct (same_core_ticks (payload_reads st) w) as (A & B & C & D).
      unfold same_core. cbn [rooms room_order sockets members send].
      repeat split; congruence. }
    { cbn [clock_reads send]. rewrite ticks_clock. lia. }
    eexists w', (_ :: beats). split; [exact Hrun|]. split; [exact Hcore'|].
    split.
    { rewrite Hout. cbn [outbox send]. rewrite ticks_outbox, <- app_assoc.
      reflexivity. }
    constructor; [|exact Hbeats].
    exists st, (sync_payload_at st (clock_reads w)).
    split; [exact Hst|]. split.
    { cbn [recipients]. rewrite ticks_members, Hm. reflexivity. }
    unfold sync_payload_at. destruct (isPlaying st); cbn.
    + split; [reflexivity|]. split; [discriminate|].
      intros _. exists (clock_reads w). split; [exact Hclock | reflexivity].
    + split; [reflexivity|]. split; [reflexivity | discriminate].
Qed.

Lemma heartbeat_loop_core (codes : list string) (w : World) :
  exists w', heartbeat_loop codes w = Ok tt w' /\ same_core w w'.
Proof.
  revert w. induction codes as [|code rest IH]; intros w.
  - exists w. split; [reflexivity | apply same_core_refl].
  - cbn [heartbeat_loop]. unfold bind, gets.
    destruct (rooms w !! code) as [st|].
    + rewrite buildSyncPayload_run. unfold emit, modify.
      match goal with |- context [heartbeat_loop rest ?w1] =>
        destruct (IH w1) as (w' & Hrun & Hcore) end.
      exists w'. split; [exact Hrun|].
      eapply same_core_trans; [|exact Hcore].
      eapply same_core_trans; [apply same_core_ticks | apply same_core_send].
    + unfold ret. apply IH.
Qed.

Lemma set_video_cases (sid : nat) (v : JsVal) (w : World) :
  connected sid (on_set_video sid v) w = Ok tt w \/
  exists data, sockets w !! sid = Some data /\ joined data = true /\ truthy v = true.
Proof.
  destruct (joined_at w sid && truthy v) eqn:Hj.
  - right. apply andb_prop in Hj as [Hj Hv]. unfold joined_at in Hj.
    destruct (sockets w !! sid) as [data|]; [|discriminate]. eauto.
  - left. apply unjoined_set_video, Hj.
Qed.

Lemma sync_cases (name : string) (playing : option bool) (sid : nat)
    (v : JsVal) (w : World) :
  connected sid (on_sync name playing sid v) w = Ok tt w \/
  exists data, sockets w !! sid = Some data /\ joined data = true.
Proof.
  destruct (joined_at w sid) eqn:Hj.
  - right. unfold joined_at in Hj.
    destruct (sockets w !! sid) as [data|]; [|discriminate]. eauto.
  - left. apply unjoined_sync, Hj.
Qed.

Lemma chat_cases (sid : nat) (text : JsVal) (w : World) :
  final_world (connected sid (on_chat_message sid text) w) = w \/
  exists data code name s,
    text = JStr s /\ sockets w !! sid = Some data /\
    sd_roomCode data = Some code /\ code <> "" /\
    sd_username data = Some name /\ name <> "" /\ trim s <> "".
Proof.
  destruct (joined_at w sid && negb (text_missing text)) eqn:Hj.
  2:{ left. rewrite (unjoined_chat _ _ _ Hj). reflexivity. }
  apply andb_prop in Hj as [Hj Ht]. apply negb_true_iff in Ht.
  unfold joined_at in Hj. destruct (sockets w !! sid) as [data|] eqn:Hs; [|discriminate].
  destruct (joined_code _ Hj) as (code & Hc & Hne).
  rewrite (connected_run _ _ _ _ Hs).
  destruct (sd_username data) as [name|] eqn:Hn.
  2:{ left. unfold on_chat_message, socket_data, bind at 1, gets.
      rewrite Hs. cbn [default from_option id]. rewrite Hc, Hn.
      cbn [js_opt]. rewrite (truthy_JStr _ Hne). reflexivity. }
  destruct (String.eqb_spec name "") as [->|Hnn].
  { left. unfold on_chat_message, socket_data, bind at 1, gets.
    rewrite Hs. cbn [default from_option id]. rewrite Hc, Hn.
    cbn [js_opt]. rewrite (truthy_JStr _ Hne). reflexivity. }
  destruct text as [| |b|x|s]; try discriminate Ht.
  - left. unfold on_chat_message, socket_data, bind at 1, gets.
    rewrite Hs. cbn [default from_option id]. rewrite Hc, Hn.
    cbn [js_opt]. rewrite (truthy_JStr _ Hne), (truthy_JStr _ Hnn).
    reflexivity.
  - left. unfold on_chat_message, socket_data, bind at 1, gets.
    rewrite Hs. cbn [default from_option id]. rewrite Hc, Hn.
    cbn [js_opt]. rewrite (truthy_JStr _ Hne), (truthy_JStr _ Hnn).
    reflexivity.
  - right. cbn [text_missing] in Ht. apply String.eqb_neq in Ht.
    exists data, code, name, s. repeat split; assumption.
Qed.

Lemma store_step (w w' : World) (e : Event) (sid : nat) (data : SocketData)
    (code : string) (st0 st' : RoomState) (w0 : World) :
  grounded w ->
  mutating e = true -> event_sender e = Some sid ->
  sockets w !! sid = Some data -> sd_roomCode data = Some code ->
  getOrCreateRoom code w = Ok st0 w0 ->
  roomCode st' = roomCode st0 ->
  rooms w' = <[code := st']> (rooms w0) ->
  room_order w' = room_order w0 ->
  sockets w' = sockets w0 ->
  members w' = members w0 ->
  core_step w e w'.
Proof.
  intros Hg Hmut Hsender Hs Hc Hget Hcode Hr Ho Hk Hm.
  destruct (grounded_room w sid data code Hg Hs Hc) as (_ & st & Hst).
  rewrite (getOrCreateRoom_present _ _ _ Hst) in Hget. injection Hget as <- <-.
  eapply CStore; eassumption.
Qed.

(** Every event is one of the steps [core_step] lists. *)
Lemma step_core (w : World) (e : Event) :
  grounded w -> core_step w e (step w e).
Proof.
  intros Hg. unfold step.
  destruct e as [sid|sid c u|sid v|sid t|sid t|sid t|sid text|sid|v|p| |sid l].
  - (* connection *)
    simpl handle. unfold bind, gets.
    destruct (sockets w !! sid) as [data|] eqn:Hs.
    + apply CSame, same_core_refl.
    + eapply CConnect; try reflexivity. exact Hs.
  - (* join-room *)
    simpl handle. destruct (sockets w !! sid) as [data|] eqn:Hs.
    2:{ unfold connected, bind, gets. rewrite Hs. apply CSame, same_core_refl. }
    rewrite (connected_run _ _ _ _ Hs).
    destruct ((clean_name u =? "")
              || negb (isValidRoomCode (normalizeRoomCode NumberToString c))) eqn:Hbad.
    { rewrite (on_join_invalid _ _ _ _ Hbad). apply CSame, same_core_send. }
    apply orb_false_elim in Hbad as [Hn Hv]. apply negb_false_iff in Hv.
    destruct (rooms w !! normalizeRoomCode NumberToString c) as [st|] eqn:Hr.
    2:{ rewrite (on_join_missing _ _ _ _ Hn Hv Hr). apply CSame, same_core_send. }
    destruct (on_join_success sid c u w st Hn Hv Hr)
      as (w' & Hrun & Hrooms & Hord & Hsock & Hmem & _).
    rewrite Hrun. cbn [final_world].
    eapply CJoin; try reflexivity; try eassumption.
    + apply String.eqb_neq, Hn.
    + rewrite Hr. eauto.
    + rewrite Hs. eauto.
  - (* set-video *)
    simpl handle. destruct (set_video_cases sid v w) as [Hrun|(data & Hs & Hj & Hv)].
    { rewrite Hrun. apply CSame, same_core_refl. }
    rewrite (connected_run _ _ _ _ Hs).
    destruct (joined_code _ Hj) as (code & Hc & Hne).
    destruct (on_set_video_joined sid v w data Hs Hj Hv)
      as (st0 & w0 & w' & Hget & Hrun & Hrooms & Hord & Hsock & Hmem & _).
    rewrite Hc in Hget, Hrooms. cbn [prop_str default from_option id] in Hget, Hrooms.
    rewrite Hrun. cbn [final_world].
    eapply (store_step w w' (SetVideo sid v) sid data code st0); try eassumption;
      reflexivity.
  - simpl handle. unfold on_sync_play.
    destruct (sync_cases "sync-play" (Some true) sid t w) as [Hrun|(data & Hs & Hj)].
    { rewrite Hrun. apply CSame, same_core_refl. }
    rewrite (connected_run _ _ _ _ Hs).
    destruct (joined_code _ Hj) as (code & Hc & Hne).
    destruct (on_sync_joined "sync-play" (Some true) sid t w data code Hs Hc Hne)
      as (st0 & w0 & w' & Hget & Hrun & Hrooms & Hord & Hsock & Hmem & _).
    rewrite Hrun. cbn [final_world].
    eapply (store_step w w' (SyncPlay sid t) sid data code st0); try eassumption;
      reflexivity.
  - simpl handle. unfold on_sync_pause.
    destruct (sync_cases "sync-pause" (Some false) sid t w) as [Hrun|(data & Hs & Hj)].
    { rewrite Hrun. apply CSame, same_core_refl. }
    rewrite (connected_run _ _ _ _ Hs).
    destruct (joined_code _ Hj) as (code & Hc & Hne).
    destruct (on_sync_joined "sync-pause" (Some false) sid t w data code Hs Hc Hne)
      as (st0 & w0 & w' & Hget & Hrun & Hrooms & Hord & Hsock & Hmem & _).
    rewrite Hrun. cbn [final_world].
    eapply (store_step w w' (SyncPause sid t) sid data code st0); try eassumption;
      reflexivity.
  - simpl handle. unfold on_sync_seek.
    destruct (sync_cases "sync-seek" None sid t w) as [Hrun|(data & Hs & Hj)].
    { rewrite Hrun. apply CSame, same_core_refl. }
    rewrite (connected_run _ _ _ _ Hs).
    destruct (joined_code _ Hj) as (code & Hc & Hne).
    destruct (on_sync_joined "sync-seek" None sid t w data code Hs Hc Hne)
      as (st0 & w0 & w' & Hget & Hrun & Hrooms & Hord & Hsock & Hmem & _).
    rewrite Hrun. cbn [final_world].
    eapply (store_step w w' (SyncSeek sid t) sid data code st0); try eassumption;
      reflexivity.
  - (* chat-message *)
    simpl handle.
    destruct (chat_cases sid text w)
      as [Hrun|(data & code & name & s & -> & Hs & Hc & Hne & Hn & Hnn & Ht)].
    { rewrite Hrun. apply CSame, same_core_refl. }
    rewrite (connected_run _ _ _ _ Hs).
    destruct (on_chat_joined w sid data code name s Hs Hc Hne Hn Hnn Ht)
      as (st0 & w0 & w' & Hget & Hrun & Hrooms & Hord & Hsock & Hmem & _).
    rewrite Hrun. cbn [final_world].
    eapply (store_step w w' (ChatMessageEv sid (JStr s)) sid data code st0);
      try eassumption; reflexivity.
  - (* disconnection *)
    destruct (sockets w !! sid) as [data|] eqn:Hs.
    2:{ simpl handle. unfold connected, bind, gets. rewrite Hs.
        apply CSame, same_core_refl. }
    destruct (disconnect_run sid data w Hs)
      as (w' & Hrun & Hrooms & Hord & Hsock & Hmem & _).
    rewrite Hrun. cbn [final_world].
    eapply CDisconnect; try reflexivity; try eassumption. rewrite Hs. eauto.
  - (* room creation *)
    simpl handle.
    pose proof (getUniqueRoomCode_outcome w) as Hpick.
    destruct (getUniqueRoomCode w) as [code w1|err w1] eqn:Hrun.
    + destruct Hpick as (Hfree & k & _ & Hcode & Hw1).
      destruct (create_room_picked getUniqueRoomCode v w w1 code Hrun)
        as (w' & st' & Hcreate & Hrooms & Hord & Hsock & Hmem & _ & Hkey & _);
        try (rewrite Hw1); try apply same_core_draws; try apply draws_outbox;
        try apply draws_clock; try exact Hfree.
      change (post_rooms_create v w = Ok tt w') in Hcreate.
      rewrite Hcreate. cbn [final_world].
      apply (CCreate w _ w' v code st' k); try assumption; reflexivity.
    + destruct Hpick as (n & Hw1).
      pose proof (create_room_failed getUniqueRoomCode v w w1 err Hrun) as Hfail.
      change (post_rooms_create v w = Ok tt
                (send (http_reply (HttpMessage 500 "Failed to create room")) w1))
        in Hfail.
      rewrite Hfail. cbn [final_world]. apply CSame.
      eapply same_core_trans; [|apply same_core_send].
      rewrite Hw1. apply same_core_draws.
  - (* snapshot route *)
    simpl handle. destruct (get_rooms_run p w) as (em & n & ->).
    cbn [final_world]. apply CSame.
    eapply same_core_trans; [apply same_core_ticks | apply same_core_send].
  - (* heartbeat *)
    simpl handle. unfold heartbeat, bind, gets.
    destruct (heartbeat_loop_core (room_order w) w) as (w' & Hrun & Hcore).
    rewrite Hrun. cbn [final_world]. apply CSame, Hcore.
  - (* no payload *)
    simpl handle. unfold connected, bind, gets.
    destruct (sockets w !! sid); apply CSame, same_core_refl.
Qed.

Lemma core_step_consistent (w w' : World) (e : Event) :
  core_step w e w' -> consistent w -> consistent w'.
Proof.
  intros Hstep Hcons. pose proof Hcons as (Hk & [Hnd Hord] & Hg & Hmc).
  destruct Hstep as
    [Hsame
    |sid data code st st' _ _ Hs Hc Hst Hcode Hr Ho Hk' Hm
    |v code st' k _ _ Hfree Hcode Hr Ho Hk' Hm
    |sid _ Hnone Hr Ho Hk' Hm
    |sid c u code name _ _ _ Hnn Hv [st Hst] [data Hs] Hr Ho Hk' Hm
    |sid _ [data Hs] Hr Ho Hk' Hm].
  - exact (same_core_consistent _ _ Hsame Hcons).
  - (* a room is written in place *)
    assert (Hsome : forall c, is_Some (rooms w' !! c) <-> is_Some (rooms w !! c)).
    { intros c. rewrite Hr. destruct (decide (code = c)) as [<-|Hne].
      - rewrite lookup_insert_eq, Hst. split; eauto.
      - rewrite lookup_insert_ne by exact Hne. reflexivity. }
    split; [|split; [|split]].
    + intros c s Hl. rewrite Hr in Hl. destruct (decide (code = c)) as [<-|Hne].
      * rewrite lookup_insert_eq in Hl. injection Hl as <-.
        rewrite Hcode. exact (Hk _ _ Hst).
      * rewrite lookup_insert_ne in Hl by exact Hne. exact (Hk _ _ Hl).
    + split; rewrite Ho; [exact Hnd|]. intros c. rewrite Hsome. apply Hord.
    + intros sid0 d0 c0 Hs0 Hc0. rewrite Hk' in Hs0. rewrite Hm, Hsome.
      exact (Hg sid0 d0 c0 Hs0 Hc0).
    + intros c sid0. rewrite Hm, Hk'. apply Hmc.
  - (* a room is created *)
    assert (Hfresh : code ∉ room_order w).
    { intros Hin. apply Hord in Hin. rewrite Hfree in Hin.
      exact (is_Some_None Hin). }
    split; [|split; [|split]].
    + intros c s Hl. rewrite Hr in Hl. destruct (decide (code = c)) as [<-|Hne].
      * rewrite lookup_insert_eq in Hl. injection Hl as <-. exact Hcode.
      * rewrite lookup_insert_ne in Hl by exact Hne. exact (Hk _ _ Hl).
    + split; rewrite Ho.
      * apply NoDup_app. split; [exact Hnd|]. split; [|apply NoDup_singleton].
        intros x Hx Hx'. apply list_elem_of_singleton in Hx'. subst x.
        exact (Hfresh Hx).
      * intros c. rewrite elem_of_app, list_elem_of_singleton, Hr, Hord.
        destruct (decide (code = c)) as [<-|Hne].
        -- rewrite lookup_insert_eq. split; eauto.
        -- rewrite lookup_insert_ne by exact Hne.
           split; [intros [H|H]; [exact H | congruence] | eauto].
    + intros sid0 d0 c0 Hs0 Hc0. rewrite Hk' in Hs0. rewrite Hm.
      destruct (Hg sid0 d0 c0 Hs0 Hc0) as (A & B & C & D).
      repeat split; try assumption.
      rewrite Hr. destruct (decide (code = c0)) as [<-|Hne];
        [rewrite lookup_insert_eq; eauto
        |rewrite lookup_insert_ne by exact Hne; exact B].
    + intros c sid0. rewrite Hm, Hk'. apply Hmc.
  - (* a socket connects *)
    split; [|split; [|split]].
    + unfold keyed. rewrite Hr. exact Hk.
    + unfold ordered. rewrite Hr, Ho. split; assumption.
    + intros sid0 d0 c0 Hs0 Hc0. rewrite Hk' in Hs0. rewrite Hr, Hm.
      destruct (decide (sid = sid0)) as [<-|Hne].
      * rewrite lookup_insert_eq in Hs0. injection Hs0 as <-. discriminate Hc0.
      * rewrite lookup_insert_ne in Hs0 by exact Hne. exact (Hg _ _ _ Hs0 Hc0).
    + intros c sid0 Hin. rewrite Hm in Hin. rewrite Hk'.
      destruct (decide (sid = sid0)) as [<-|Hne];
        [rewrite lookup_insert_eq; eauto
        |rewrite lookup_insert_ne by exact Hne; exact (Hmc _ _ Hin)].
  - (* a socket joins *)
    split; [|split; [|split]].
    + unfold keyed. rewrite Hr. exact Hk.
    + unfold ordered. rewrite Hr, Ho. split; assumption.
    + intros sid0 d0 c0 Hs0 Hc0. rewrite Hk' in Hs0. rewrite Hr, Hm.
      destruct (decide (sid = sid0)) as [<-|Hne].
      * rewrite lookup_insert_eq in Hs0. injection Hs0 as <-.
        cbn in Hc0. injection Hc0 as <-.
        split; [exact Hv|]. split; [eauto|]. split; [eauto|].
        rewrite lookup_insert_eq. cbn. apply elem_of_union_l, elem_of_singleton.
        reflexivity.
      * rewrite lookup_insert_ne in Hs0 by exact Hne.
        destruct (Hg _ _ _ Hs0 Hc0) as (A & B & C & D).
        repeat split; try assumption.
        destruct (decide (code = c0)) as [<-|Hne'];
          [rewrite lookup_insert_eq; cbn; apply elem_of_union_r, D
          |rewrite lookup_insert_ne by exact Hne'; exact D].
    + intros rc sid0 Hin. rewrite Hm in Hin. rewrite Hk'.
      destruct (decide (sid = sid0)) as [<-|Hne];
        [rewrite lookup_insert_eq; eauto|].
      rewrite lookup_insert_ne by exact Hne.
      destruct (decide (code = rc)) as [<-|Hne'].
      * rewrite lookup_insert_eq in Hin. cbn in Hin.
        apply elem_of_union in Hin as [Hin|Hin];
          [apply elem_of_singleton in Hin; congruence | exact (Hmc _ _ Hin)].
      * rewrite lookup_insert_ne in Hin by exact Hne'. exact (Hmc _ _ Hin).
  - (* a socket disconnects *)
    assert (Hleft : forall c sid0,
              sid0 ∈ default ∅ (members w' !! c) <->
              sid0 ∈ default ∅ (members w !! c) /\ sid0 <> sid).
    { intros c sid0. rewrite Hm, lookup_fmap.
      destruct (members w !! c) as [s|]; cbn.
      - rewrite elem_of_difference, elem_of_singleton. reflexivity.
      - split; [intros Hx | intros [Hx _]]; exfalso;
          exact (not_elem_of_empty sid0 Hx). }
    split; [|split; [|split]].
    + unfold keyed. rewrite Hr. exact Hk.
    + unfold ordered. rewrite Hr, Ho. split; assumption.
    + intros sid0 d0 c0 Hs0 Hc0. rewrite Hk' in Hs0. rewrite Hr.
      destruct (decide (sid = sid0)) as [<-|Hne];
        [rewrite lookup_delete_eq in Hs0; discriminate|].
      rewrite lookup_delete_ne in Hs0 by exact Hne.
      destruct (Hg _ _ _ Hs0 Hc0) as (A & B & C & D).
      repeat split; try assumption. apply Hleft. split; [exact D | congruence].
    + intros c sid0 Hin. apply Hleft in Hin as [Hin Hne]. rewrite Hk'.
      rewrite lookup_delete_ne by congruence. exact (Hmc _ _ Hin).
Qed.


End Steps.

Section Reachable.
Context {host : Host}.

Lemma run_snoc (w : World) (es : list Event) (e : Event) :
  run w (es ++ [e]) = step (run w es) e.
Proof. unfold run. rewrite foldl_app. reflexivity. Qed.

Lemma reachable_step (w : World) (e : Event) :
  reachable w -> reachable (step w e).
Proof. intros [es ->]. exists (es ++ [e])%list. symmetry. apply run_snoc. Qed.

Lemma reachable_ind (P : World -> Prop) :
  P empty_world ->
  (forall w e, reachable w -> P w -> P (step w e)) ->
  forall w, reachable w -> P w.
Proof.
  intros Hempty Hstep w [es ->].
  induction es as [|e es IH] using rev_ind; [exact Hempty|].
  rewrite run_snoc. apply Hstep; [exists es; reflexivity | exact IH].
Qed.

Lemma consistent_empty : consistent empty_world.
Proof.
  split; [|split; [|split]].
  - intros code st H. cbn in H. rewrite lookup_empty in H. discriminate.
  - split; [apply NoDup_nil_2|]. intros code. cbn. rewrite lookup_empty.
    split; [intros H; inversion H | intros H; exfalso; exact (is_Some_None H)].
  - intros sid data code H. cbn in H. rewrite lookup_empty in H. discriminate.
  - intros code sid H. cbn in H. rewrite lookup_empty in H. cbn in H.
    exfalso. exact (not_elem_of_empty sid H).
Qed.

Lemma reachable_consistent (w : World) : reachable w -> consistent w.
Proof.
  apply reachable_ind; [exact consistent_empty|].
  intros w0 e _ Hc. eapply core_step_consistent; [|exact Hc].
  apply step_core, Hc.
Qed.

(** X1. In every world the server can reach, each room is stored under its
    own code, the iteration order of the registry lists every registered
    code exactly once, every joined socket names a registered room by a
    well-formed code, carries a non-blank user name and sits in the
    transport room of that code, and the transport rooms hold connected
    sockets only. *)
Theorem reachable_worlds_consistent (w : World) :
  reachable w ->
  (forall code st, rooms w !! code = Some st -> roomCode st = code) /\
  NoDup (room_order w) /\
  (forall code, code ∈ room_order w <-> is_Some (rooms w !! code)) /\
  (forall sid data code,
     sockets w !! sid = Some data -> sd_roomCode data = Some code ->
     isValidRoomCode code = true /\
     is_Some (rooms w !! code) /\
     (exists name, sd_username data = Some name /\ name <> "") /\
     sid ∈ default ∅ (members w !! code)) /\
  (forall code sid,
     sid ∈ default ∅ (members w !! code) -> is_Some (sockets w !! sid)).
Proof.
  intros Hreach.
  destruct (reachable_consistent w Hreach) as (Hk & [Hnd Hord] & Hg & Hmc).
  split; [exact Hk|]. split; [exact Hnd|]. split; [exact Hord|].
  split; [exact Hg | exact Hmc].
Qed.

Lemma core_step_dom (w w' : World) (e : Event) (code : string) :
  core_step w e w' ->
  (is_Some (rooms w !! code) -> is_Some (rooms w' !! code)) /\
  (is_Some (rooms w' !! code) -> rooms w !! code = None ->
   exists v k, e = PostRoomsCreate v /\ code = candidate w k).
Proof.
  intros [Hsame
    |sid data code0 st st' _ _ _ _ Hst _ Hr _ _ _
    |v code0 st' k He Hcode Hfree _ Hr _ _ _
    |sid _ _ Hr _ _ _
    |sid c u code0 name _ _ _ _ _ _ _ Hr _ _ _
    |sid _ _ Hr _ _ _];
    try (rewrite Hr; split; [tauto | intros H1 H2; rewrite H2 in H1;
                                    exfalso; exact (is_Some_None H1)]).
  - destruct Hsame as (Hr & _). rewrite Hr.
    split; [tauto | intros H1 H2; rewrite H2 in H1; exfalso; exact (is_Some_None H1)].
  - rewrite Hr. destruct (decide (code0 = code)) as [<-|Hne].
    + rewrite lookup_insert_eq, Hst. split; [eauto | discriminate].
    + rewrite lookup_insert_ne by exact Hne.
      split; [tauto | intros H1 H2; rewrite H2 in H1; exfalso; exact (is_Some_None H1)].
  - rewrite Hr. destruct (decide (code0 = code)) as [<-|Hne].
    + rewrite lookup_insert_eq. split; [eauto | intros _ _; eauto].
    + rewrite lookup_insert_ne by exact Hne.
      split; [tauto | intros H1 H2; rewrite H2 in H1; exfalso; exact (is_Some_None H1)].
Qed.

(** X3. In a reachable world no event removes a room, and the only event
    that adds one is the creation route: the join handler, the mutating
    handlers and the snapshot route never create a room. *)
Theorem only_creation_adds_rooms (w : World) (e : Event) (code : string) :
  reachable w ->
  (is_Some (rooms w !! code) -> is_Some (rooms (step w e) !! code)) /\
  (is_Some (rooms (step w e) !! code) -> rooms w !! code = None ->
   exists v, e = PostRoomsCreate v).
Proof.
  intros Hreach. destruct (reachable_consistent w Hreach) as (_ & _ & Hg & _).
  destruct (core_step_dom w (step w e) e code (step_core w e Hg)) as [Hkeep Hnew].
  split; [exact Hkeep|]. intros H1 H2. destruct (Hnew H1 H2) as (v & k & He & _).
  eauto.
Qed.

Lemma reachable_codes_generated (w : World) :
  (forall n, random_ok (random_source n)) -> reachable w -> codes_generated w.
Proof.
  intros Hok. apply reachable_ind.
  - intros code H. cbn in H. rewrite lookup_empty in H.
    exfalso. exact (is_Some_None H).
  - intros w0 e Hreach Hgen code Hsome.
    destruct (reachable_consistent w0 Hreach) as (_ & _ & Hg & _).
    destruct (core_step_dom w0 (step w0 e) e code (step_core w0 e Hg)) as [_ Hnew].
    destruct (rooms w0 !! code) as [st|] eqn:Hr.
    + apply Hgen. rewrite Hr. eauto.
    + destruct (Hnew Hsome eq_refl) as (v & k & _ & ->).
      apply candidate_wf, Hok.
Qed.

(** X2. With a random source that stays in the unit interval, every code
    registered in a reachable world is six symbols of the 32-symbol
    alphabet, and so is the room code of every joined socket: a join is
    accepted only for such a code. *)
Theorem registered_codes_in_alphabet (w : World) :
  (forall n, random_ok (random_source n)) ->
  reachable w ->
  (forall code, is_Some (rooms w !! code) ->
     String.length code = 6 /\ string_forallb in_charset code = true) /\
  (forall sid data code,
     sockets w !! sid = Some data -> sd_roomCode data = Some code ->
     String.length code = 6 /\ string_forallb in_charset code = true).
Proof.
  intros Hok Hreach. pose proof (reachable_codes_generated w Hok Hreach) as Hgen.
  split; [exact Hgen|]. intros sid data code Hs Hc.
  destruct (reachable_consistent w Hreach) as (_ & _ & Hg & _).
  apply Hgen. apply (Hg sid data code Hs Hc).
Qed.

(** X4. In a reachable world an event changes at most the room of its
    sender: a room whose state differs after the event either was just
    created by the creation route, or is the room the sender of a mutating
    event is joined to. *)
Theorem event_writes_sender_room (w : World) (e : Event) (code : string) :
  reachable w ->
  rooms (step w e) !! code <> rooms w !! code ->
  (exists v, e = PostRoomsCreate v /\ rooms w !! code = None) \/
  (mutating e = true /\
   exists sid data,
     event_sender e = Some sid /\ sockets w !! sid = Some data /\
     sd_roomCode data = Some code).
Proof.
  intros Hreach Hdiff.
  destruct (reachable_consistent w Hreach) as (_ & _ & Hg & _).
  destruct (step_core w e Hg) as
    [Hsame
    |sid data code0 st st' Hmut Hsender Hs Hc Hst _ Hr _ _ _
    |v code0 st' k He Hcode Hfree _ Hr _ _ _
    |sid _ _ Hr _ _ _
    |sid c u code0 name _ _ _ _ _ _ _ Hr _ _ _
    |sid _ _ Hr _ _ _];
    try (rewrite Hr in Hdiff; contradiction).
  - destruct Hsame as (Hr & _). rewrite Hr in Hdiff. contradiction.
  - right. rewrite Hr in Hdiff. destruct (decide (code0 = code)) as [<-|Hne].
    + split; [exact Hmut|]. exists sid, data. repeat split; assumption.
    + rewrite lookup_insert_ne in Hdiff by exact Hne. contradiction.
  - left. rewrite Hr in Hdiff. destruct (decide (code0 = code)) as [<-|Hne].
    + exists v. split; assumption.
    + rewrite lookup_insert_ne in Hdiff by exact Hne. contradiction.
Qed.

(** C4, as the code has it.  In a world the server can reach, with a random
    source in the unit interval, a join request is accepted only if its
    code, once trimmed and upper-cased, is six symbols of the 32-symbol
    alphabet, and so is a snapshot lookup: both are accepted for registered
    codes only, and every registered code was generated.  A code that is not
    of this form is rejected: as invalid when it fails the format check (six
    characters among [A-Z] and [0-9], of which the alphabet is a subset) or,
    for a join, when the user name is blank; as not found otherwise. *)
Theorem accepted_code_in_alphabet (w : World) (sid : nat) (data : SocketData)
    (c u : JsVal) (param : string) :
  (forall n, random_ok (random_source n)) ->
  reachable w ->
  sockets w !! sid = Some data ->
  let joining := normalizeRoomCode NumberToString c in
  let looked_up := normalizeRoomCode NumberToString (JStr param) in
  (join_accepted sid w (step w (JoinRoom sid c u)) ->
     in_alphabet joining /\ is_Some (rooms w !! joining)) /\
  (lookup_accepted w (step w (GetRooms param)) ->
     in_alphabet looked_up /\ is_Some (rooms w !! looked_up)) /\
  (~ in_alphabet joining ->
     handle (JoinRoom sid c u) w =
       Ok tt (send (join_error sid
                      (if isValidRoomCode joining && negb (clean_name u =? "")
                       then "Room does not exist"
                       else "Invalid room code or username")) w)) /\
  (~ in_alphabet looked_up ->
     handle (GetRooms param) w =
       Ok tt (send (http_reply
                      (if isValidRoomCode looked_up
                       then HttpMessage 404 "Room not found"
                       else HttpMessage 400 "Invalid room code format")) w)) /\
  (forall code, in_alphabet code -> isValidRoomCode code = true).
Proof.
  intros Hok Hreach Hs joining looked_up.
  pose proof (reachable_codes_generated w Hok Hreach) as Hgen.
  assert (Hjoin :
    handle (JoinRoom sid c u) w =
      Ok tt (send (join_error sid
                     (if isValidRoomCode joining && negb (clean_name u =? "")
                      then "Room does not exist"
                      else "Invalid room code or username")) w) /\
    rooms w !! joining = None
    \/ (handle (JoinRoom sid c u) w =
          Ok tt (send (join_error sid "Invalid room code or username") w)
        \/ join_accepted sid w (step w (JoinRoom sid c u))) /\
       is_Some (rooms w !! joining)).
  { unfold step. simpl handle. rewrite (connected_run _ _ _ _ Hs).
    destruct ((clean_name u =? "") || negb (isValidRoomCode joining)) eqn:Hbad.
    - rewrite (on_join_invalid _ _ _ _ Hbad).
      assert (Hif : isValidRoomCode joining && negb (clean_name u =? "") = false).
      { destruct (isValidRoomCode joining), (clean_name u =? "");
          try reflexivity; discriminate Hbad. }
      rewrite Hif.
      destruct (rooms w !! joining) eqn:Hr; [right | left]; eauto.
    - apply orb_false_elim in Hbad as [Hn Hv]. apply negb_false_iff in Hv.
      rewrite Hn, Hv. cbn [negb andb].
      destruct (rooms w !! joining) as [st|] eqn:Hr.
      + right. split; [right | eauto].
        destruct (on_join_success sid c u w st Hn Hv Hr)
          as (w' & Hrun & _ & _ & _ & _ & Hout).
        rewrite Hrun. cbn [final_world]. do 5 eexists. exact Hout.
      + left. split; [|reflexivity]. apply on_join_missing; assumption. }
  assert (Hlook :
    handle (GetRooms param) w =
      Ok tt (send (http_reply
                     (if isValidRoomCode looked_up
                      then HttpMessage 404 "Room not found"
                      else HttpMessage 400 "Invalid room code format")) w) /\
    (isValidRoomCode looked_up = true -> rooms w !! looked_up = None)
    \/ is_Some (rooms w !! looked_up)).
  { simpl handle. unfold get_rooms. fold looked_up.
    destruct (isValidRoomCode looked_up) eqn:Hv; cbn [negb].
    - destruct (rooms w !! looked_up) as [st|] eqn:Hr; [right; eauto|].
      left. split; [|reflexivity].
      unfold bind. rewrite rooms_has_run.
      rewrite bool_decide_false by (rewrite Hr; apply is_Some_None).
      reflexivity.
    - left. split; [reflexivity | discriminate]. }
  split; [|split; [|split; [|split]]].
  - intros (code & vid & sync & history & notice & Hout).
    destruct Hjoin as [[Hrun _] | [[Hrun | _] Hsome]].
    + unfold step in Hout. rewrite Hrun in Hout. cbn [final_world send outbox] in Hout.
      apply app_inv_head in Hout. discriminate Hout.
    + unfold step in Hout. rewrite Hrun in Hout. cbn [final_world send outbox] in Hout.
      apply app_inv_head in Hout. discriminate Hout.
    + split; [exact (Hgen _ Hsome) | exact Hsome].
  - intros (code & vid & playing & time & Hout).
    destruct Hlook as [[Hrun _] | Hsome].
    + unfold step in Hout. rewrite Hrun in Hout. cbn [final_world send outbox] in Hout.
      apply app_inv_head in Hout. injection Hout as Hout.
      destruct (isValidRoomCode looked_up); discriminate Hout.
    + split; [exact (Hgen _ Hsome) | exact Hsome].
  - intros Hout. destruct Hjoin as [[Hrun _] | [_ Hsome]]; [exact Hrun|].
    exfalso. exact (Hout (Hgen _ Hsome)).
  - intros Hout. destruct Hlook as [[Hrun _] | Hsome]; [exact Hrun|].
    exfalso. exact (Hout (Hgen _ Hsome)).
  - intros code [Hl Hc]. exact (charset_code_valid code Hl Hc).
Qed.

End Reachable.

Section Handlers.
Context {host : Host}.

(** X5. [getOrCreateRoom] never fails and the room it returns is the one the
    registry holds under the code afterwards; the other codes are untouched.
    A registered room is returned as it is, with the world unchanged (the
    clock is not read); an unknown code gets the default room, stamped with
    the current clock reading and put last in the iteration order.  A second
    call returns the same room and changes nothing. *)
Theorem getOrCreateRoom_lookup (code : string) (w : World) :
  exists st w',
    getOrCreateRoom code w = Ok st w' /\
    rooms w' !! code = Some st /\
    (forall other, other <> code -> rooms w' !! other = rooms w !! other) /\
    (forall st0, rooms w !! code = Some st0 -> st = st0 /\ w' = w) /\
    (rooms w !! code = None ->
     st = fresh_room code (date_source (clock_reads w)) /\
     room_order w' = (room_order w ++ [code])%list /\
     clock_reads w' = S (clock_reads w)) /\
    sockets w' = sockets w /\ members w' = members w /\ outbox w' = outbox w /\
    getOrCreateRoom code w' = Ok st w'.
Proof.
  destruct (rooms w !! code) as [st0|] eqn:Hr.
  - exists st0, w. rewrite (getOrCreateRoom_present _ _ _ Hr).
    split; [reflexivity|]. split; [exact Hr|]. split; [reflexivity|].
    split; [intros st1 [= <-]; split; reflexivity|].
    split; [discriminate|]. repeat split.
  - rewrite (getOrCreateRoom_absent _ _ Hr). eexists _, _.
    split; [reflexivity|]. cbn [rooms with_rooms with_room_order tick_clock].
    split; [apply lookup_insert_eq|].
    split; [intros other Hne; apply lookup_insert_ne; congruence|].
    split; [discriminate|].
    split; [intros _; repeat split|].
    split; [reflexivity|]. split; [reflexivity|]. split; [reflexivity|].
    apply getOrCreateRoom_present. cbn [rooms with_rooms]. apply lookup_insert_eq.
Qed.

(** X6. A [set-video] with a video id from a joined participant whose room
    is registered replaces the room's video, resets the play head to 0,
    pauses the room and stamps it with the clock; the chat log and the
    room's code stay, and so do all other rooms, the sockets and the
    transport rooms.  The change is announced to the whole room, with the
    sender's user name. *)
Theorem set_video_resets_playback (w : World) (sid : nat) (data : SocketData)
    (code : string) (st : RoomState) (v : JsVal) :
  sockets w !! sid = Some data ->
  sd_roomCode data = Some code -> code <> "" ->
  rooms w !! code = Some st ->
  truthy v = true ->
  exists w' st',
    handle (SetVideo sid v) w = Ok tt w' /\
    rooms w' = <[code := st']> (rooms w) /\
    st' = {| roomCode := roomCode st; videoId := v; isPlaying := false;
             currentTime := PrimFloat.zero;
             lastUpdatedAt := date_source (clock_reads w);
             chat := chat st |} /\
    room_order w' = room_order w /\
    sockets w' = sockets w /\
    members w' = members w /\
    outbox w' =
      (outbox w ++
       [{| em_target := ToRoom code;
           em_recipients := default ∅ (members w !! code);
           em_message := VideoChanged v (sd_username data)
                           (date_source (S (clock_reads w))) |}])%list.
Proof.
  intros Hs Hc Hne Hr Hv.
  assert (Hj : joined data = true)
    by (unfold joined; rewrite Hc; apply truthy_JStr, Hne).
  destruct (on_set_video_joined sid v w data Hs Hj Hv)
    as (st0 & w0 & w' & Hget & Hrun & Hrooms & Hord & Hsock & Hmem & Hout).
  rewrite Hc in Hget, Hrooms, Hout.
  cbn [prop_str default from_option id] in Hget, Hrooms, Hout.
  rewrite (getOrCreateRoom_present _ _ _ Hr) in Hget. injection Hget as <- <-.
  exists w'. eexists. simpl handle. rewrite (connected_run _ _ _ _ Hs).
  split; [exact Hrun|]. split; [exact Hrooms|]. split; [reflexivity|].
  repeat split; assumption.
Qed.

(** X7. A [sync-play] or a [sync-pause] from a joined participant sets the
    room's flag as the event says, its play head to the coerced time and its
    stamp to the clock, and leaves the video and the chat log as they were.
    The payload goes to the members of the room other than the sender; it
    carries the new flag and, for a pause, exactly the stored time; for a
    play, the stored time plus the time elapsed between the two clock
    readings of the handler. *)
Theorem sync_play_pause_effect (w : World) (sid : nat) (data : SocketData)
    (code : string) (st : RoomState) (v : JsVal) (play : bool) :
  sockets w !! sid = Some data ->
  sd_roomCode data = Some code -> code <> "" ->
  rooms w !! code = Some st ->
  let e := if play then SyncPlay sid v else SyncPause sid v in
  let time := num_or_zero (Number StringToNumber v) in
  let now := date_source (clock_reads w) in
  exists w' sync,
    handle e w = Ok tt w' /\
    rooms w' =
      <[code := {| roomCode := roomCode st; videoId := videoId st;
                   isPlaying := play; currentTime := time;
                   lastUpdatedAt := now; chat := chat st |}]> (rooms w) /\
    sockets w' = sockets w /\ members w' = members w /\
    outbox w' =
      (outbox w ++
       [{| em_target := ToRoomExcept code sid;
           em_recipients := default ∅ (members w !! code) ∖ {[ sid ]};
           em_message :=
             SyncEvent (if play then "sync-play" else "sync-pause") sync |}])%list /\
    sp_isPlaying sync = play /\
    sp_currentTime sync =
      (if play
       then (time + (date_source (S (clock_reads w)) - now) / 1000)%float
       else time).
Proof.
  intros Hs Hc Hne Hr e time now.
  destruct (on_sync_joined (if play then "sync-play" else "sync-pause")
              (Some play) sid v w data code Hs Hc Hne)
    as (st0 & w0 & w' & Hget & Hrun & Hrooms & _ & Hsock & Hmem & _ & _ & Hout).
  rewrite (getOrCreateRoom_present _ _ _ Hr) in Hget. injection Hget as <- <-.
  cbv zeta in Hrooms, Hout.
  exists w'. eexists.
  split.
  { subst e. destruct play; simpl handle; rewrite (connected_run _ _ _ _ Hs);
      exact Hrun. }
  split; [exact Hrooms|]. split; [exact Hsock|]. split; [exact Hmem|].
  split; [exact Hout|].
  unfold sync_payload_at. cbn [isPlaying set_lastUpdatedAt set_currentTime set_isPlaying].
  destruct play; split; reflexivity.
Qed.

(** X8. A sync event whose time is missing or does not coerce to a number
    is not refused: the play head of the sender's room becomes 0. *)
Theorem sync_time_defaults_to_zero (w : World) (sid : nat) (data : SocketData)
    (code : string) (e : Event) (v : JsVal) :
  sockets w !! sid = Some data ->
  sd_roomCode data = Some code -> code <> "" ->
  e = SyncPlay sid v \/ e = SyncPause sid v \/ e = SyncSeek sid v ->
  PrimFloat.is_nan (Number StringToNumber v) = true ->
  exists st', rooms (step w e) !! code = Some st' /\
              currentTime st' = PrimFloat.zero.
Proof.
  intros Hs Hc Hne He Hnan.
  assert (Hzero : num_or_zero (Number StringToNumber v) = PrimFloat.zero).
  { unfold num_or_zero, num_truthy. rewrite Hnan, orb_true_r. reflexivity. }
  assert (Hany : forall name playing,
            exists st', rooms (final_world (on_sync name playing sid v w)) !! code
                          = Some st' /\ currentTime st' = PrimFloat.zero).
  { intros name playing.
    destruct (on_sync_joined name playing sid v w data code Hs Hc Hne)
      as (st0 & w0 & w' & _ & Hrun & Hrooms & _).
    rewrite Hrun. cbn [final_world]. cbv zeta in Hrooms. rewrite Hrooms.
    eexists. split; [apply lookup_insert_eq|]. exact Hzero. }
  unfold step.
  destruct He as [-> | [-> | ->]]; simpl handle;
    rewrite (connected_run _ _ _ _ Hs); apply Hany.
Qed.

(** X9. A join that succeeds answers the joining socket, and it alone, with
    the room's video, its sync payload and the last 50 entries of the chat
    log (all of it when it is shorter); then it tells the whole room,
    the joiner included, that the user joined.  No room is changed; the
    socket enters the transport room of the code and no other transport
    room changes. *)
Theorem join_snapshot (w : World) (sid : nat) (data : SocketData)
    (c u : JsVal) (st : RoomState) :
  sockets w !! sid = Some data ->
  clean_name u <> "" ->
  isValidRoomCode (normalizeRoomCode NumberToString c) = true ->
  rooms w !! normalizeRoomCode NumberToString c = Some st ->
  let code := normalizeRoomCode NumberToString c in
  let history := slice_last 50 (chat st) in
  exists w' notice,
    handle (JoinRoom sid c u) w = Ok tt w' /\
    rooms w' = rooms w /\
    outbox w' =
      (outbox w ++
       [{| em_target := ToSocket sid; em_recipients := {[ sid ]};
           em_message := RoomStateMsg code (videoId st)
                           (sync_payload_at st (clock_reads w)) history |};
        notice])%list /\
    length history <= 50 /\
    (exists older, chat st = (older ++ history)%list) /\
    (length (chat st) <= 50 -> history = chat st) /\
    em_target notice = ToRoom code /\
    (exists at_, em_message notice = SystemMessage (clean_name u ++ " joined") at_) /\
    (forall s, s ∈ em_recipients notice <->
               s = sid \/ s ∈ default ∅ (members w !! code)) /\
    sid ∈ default ∅ (members w' !! code) /\
    (forall other, other <> code -> members w' !! other = members w !! other).
Proof.
  intros Hs Hn Hv Hr code history.
  assert (Hn' : (clean_name u =? "") = false) by (apply String.eqb_neq, Hn).
  destruct (on_join_success sid c u w st Hn' Hv Hr)
    as (w' & Hrun & Hrooms & _ & _ & Hmem & Hout).
  exists w'. eexists. simpl handle. rewrite (connected_run _ _ _ _ Hs).
  split; [exact Hrun|]. split; [exact Hrooms|]. split; [exact Hout|].
  split; [unfold history; rewrite slice_last_length; lia|].
  split.
  { exists (take (length (chat st) - 50) (chat st)). unfold history, slice_last.
    symmetry. apply take_drop. }
  split; [intros Hl; apply slice_last_short, Hl|].
  split; [reflexivity|]. split; [eauto|].
  split.
  { intros s. cbn [em_recipients]. rewrite elem_of_union, elem_of_singleton.
    reflexivity. }
  split.
  { rewrite Hmem. fold code. rewrite lookup_insert_eq. cbn.
    apply elem_of_union_l, elem_of_singleton. reflexivity. }
  intros other Hne. rewrite Hmem. apply lookup_insert_ne. fold code. congruence.
Qed.

(** X10. Joining does not leave.  When a participant joined to one room
    joins another on the same connection, its socket data names the new
    room, but the socket is still in the transport room of the old one: what
    is sent to the old room (chat, video changes, heartbeats) keeps reaching
    it. *)
Theorem rejoin_keeps_old_room (w : World) (sid : nat) (data : SocketData)
    (old : string) (c u : JsVal) (st : RoomState) :
  reachable w ->
  sockets w !! sid = Some data ->
  sd_roomCode data = Some old ->
  clean_name u <> "" ->
  isValidRoomCode (normalizeRoomCode NumberToString c) = true ->
  rooms w !! normalizeRoomCode NumberToString c = Some st ->
  let code := normalizeRoomCode NumberToString c in
  let w' := step w (JoinRoom sid c u) in
  (sd_roomCode <$> sockets w' !! sid) = Some (Some code) /\
  sid ∈ recipients (members w') (ToRoom code) /\
  sid ∈ recipients (members w') (ToRoom old).
Proof.
  intros Hreach Hs Hc Hn Hv Hr code w'.
  destruct (reachable_consistent w Hreach) as (_ & _ & Hg & _).
  destruct (Hg sid data old Hs Hc) as (_ & _ & _ & Hin).
  assert (Hn' : (clean_name u =? "") = false) by (apply String.eqb_neq, Hn).
  destruct (on_join_success sid c u w st Hn' Hv Hr)
    as (w1 & Hrun & _ & _ & Hsock & Hmem & _).
  assert (Hw' : w' = w1).
  { unfold w', step. simpl handle. rewrite (connected_run _ _ _ _ Hs), Hrun.
    reflexivity. }
  rewrite Hw', Hsock, Hmem. fold code. cbn [recipients].
  split; [rewrite lookup_insert_eq; reflexivity|].
  split.
  - rewrite lookup_insert_eq. cbn. apply elem_of_union_l, elem_of_singleton.
    reflexivity.
  - destruct (decide (code = old)) as [<-|Hne].
    + rewrite lookup_insert_eq. cbn. apply elem_of_union_r, Hin.
    + rewrite lookup_insert_ne by exact Hne. exact Hin.
Qed.

Lemma slice_to_length (n : nat) (s : string) :
  String.length (slice_to n s) = Nat.min n (String.length s).
Proof.
  unfold slice_to. revert s. induction n as [|n IH]; intros s.
  - destruct s; reflexivity.
  - destruct s as [|c s]; [reflexivity|]. cbn. rewrite IH. reflexivity.
Qed.

Lemma slice_to_short (n : nat) (s : string) :
  String.length s <= n -> slice_to n s = s.
Proof.
  unfold slice_to. revert s. induction n as [|n IH]; intros s Hl.
  - destruct s; [reflexivity | cbn in Hl; lia].
  - destruct s as [|c s]; [reflexivity|]. cbn in *. rewrite IH by lia. reflexivity.
Qed.

Lemma slice_to_prefix (n : nat) (s : string) :
  exists rest, s = slice_to n s ++ rest.
Proof.
  unfold slice_to. revert s. induction n as [|n IH]; intros s.
  - exists s. destruct s; reflexivity.
  - destruct s as [|c s]; [exists ""; reflexivity|].
    destruct (IH s) as [rest Hrest]. exists rest.
    change (String c s = String c (substring 0 n s ++ rest)). f_equal. exact Hrest.
Qed.

(** X11. A non-blank chat text from a joined participant is stored trimmed
    and cut to its first 500 characters (unchanged when it is no longer),
    under the sender's user name, at the end of the room's log, which is then
    cut to its last 200 entries.  The same message is sent to the whole room;
    in a reachable world that includes the sender. *)
Theorem chat_message_stored (w : World) (sid : nat) (data : SocketData)
    (code name text : string) (st : RoomState) :
  sockets w !! sid = Some data ->
  sd_roomCode data = Some code -> code <> "" ->
  sd_username data = Some name -> name <> "" ->
  rooms w !! code = Some st ->
  trim text <> "" ->
  exists w' m,
    handle (ChatMessageEv sid (JStr text)) w = Ok tt w' /\
    rooms w' = <[code := set_chat (slice_last 200 (chat st ++ [m])) st]> (rooms w) /\
    m_username m = name /\
    m_text m = slice_to 500 (trim text) /\
    String.length (m_text m) <= 500 /\
    (exists rest, trim text = m_text m ++ rest) /\
    (String.length (trim text) <= 500 -> m_text m = trim text) /\
    outbox w' =
      (outbox w ++
       [{| em_target := ToRoom code;
           em_recipients := default ∅ (members w !! code);
           em_message := ChatEvent m |}])%list /\
    sockets w' = sockets w /\ members w' = members w /\
    (reachable w -> sid ∈ default ∅ (members w !! code)).
Proof.
  intros Hs Hc Hne Hn Hnn Hr Ht.
  destruct (on_chat_joined w sid data code name text Hs Hc Hne Hn Hnn Ht)
    as (st0 & w0 & w' & Hget & Hrun & Hrooms & _ & Hsock & Hmem & _ & _ & Hout).
  rewrite (getOrCreateRoom_present _ _ _ Hr) in Hget. injection Hget as <- <-.
  cbv zeta in Hrooms, Hout.
  exists w', (chat_message_at data text (clock_reads w) (random_draws w)).
  simpl handle. rewrite (connected_run _ _ _ _ Hs).
  split; [exact Hrun|].
  split.
  { rewrite Hrooms. unfold chat_push.
    destruct (Nat.ltb_spec 200 (length (chat st ++ [chat_message_at data text
                (clock_reads w) (random_draws w)]))) as [Hgt|Hle];
      [reflexivity | rewrite (slice_last_short 200) by exact Hle; reflexivity]. }
  cbn [m_username m_text chat_message_at].
  split; [rewrite Hn; reflexivity|]. split; [reflexivity|].
  split; [rewrite slice_to_length; lia|].
  split; [apply slice_to_prefix|].
  split; [apply slice_to_short|].
  split; [exact Hout|]. split; [exact Hsock|]. split; [exact Hmem|].
  intros Hreach. destruct (reachable_consistent w Hreach) as (_ & _ & Hg & _).
  apply (Hg sid data code Hs Hc).
Qed.

(** X12. One tick of the heartbeat, in a reachable world, sends one
    [sync-state] per registered room, in the order the rooms were created,
    to all the members of that room; each carries the room's flag and, for a
    paused room, exactly its stored time, for a playing room the stored time
    plus the time elapsed at a clock reading of this tick.  The tick changes
    no room, no socket and no transport room. *)
Theorem heartbeat_beats_every_room (w : World) :
  reachable w ->
  exists w' beats,
    handle Heartbeat w = Ok tt w' /\
    same_core w w' /\
    outbox w' = (outbox w ++ beats)%list /\
    Forall2 (beat_of w) (room_order w) beats /\
    NoDup (room_order w) /\
    (forall code, is_Some (rooms w !! code) <-> code ∈ room_order w).
Proof.
  intros Hreach.
  destruct (reachable_consistent w Hreach) as (_ & [Hnd Hord] & _ & _).
  destruct (heartbeat_loop_run (room_order w) w w (same_core_refl w) (le_n _))
    as (w' & beats & Hrun & Hcore & Hout & Hbeats).
  { apply Forall_forall. intros code Hin. apply Hord, Hin. }
  exists w', beats. simpl handle. unfold heartbeat, bind, gets.
  split; [exact Hrun|]. split; [exact Hcore|]. split; [exact Hout|].
  split; [exact Hbeats|]. split; [exact Hnd|].
  intros code. symmetry. apply Hord.
Qed.

(** X13. When a joined participant disconnects, the room is told that the
    user left and nothing else is emitted; when the participant never
    joined, nothing is emitted at all.  Either way no room changes. *)
Theorem disconnect_notice (w : World) (sid : nat) (data : SocketData) :
  sockets w !! sid = Some data ->
  exists w',
    handle (Disconnect sid) w = Ok tt w' /\
    rooms w' = rooms w /\ room_order w' = room_order w /\
    (sd_roomCode data = None -> outbox w' = outbox w) /\
    (forall code name,
       sd_roomCode data = Some code -> code <> "" ->
       sd_username data = Some name -> name <> "" ->
       exists notice,
         outbox w' = (outbox w ++ [notice])%list /\
         em_target notice = ToRoom code /\
         em_message notice =
           SystemMessage (name ++ " left") (date_source (clock_reads w))).
Proof.
  intros Hs.
  destruct (disconnect_run sid data w Hs)
    as (w' & Hrun & Hrooms & Hord & Hsock & _ & Hquiet & Hloud).
  exists w'. split; [exact Hrun|]. split; [exact Hrooms|]. split; [exact Hord|].
  split.
  - intros Hnone. apply Hquiet. unfold joined. rewrite Hnone. reflexivity.
  - intros code name Hc Hne Hn Hnn. eexists.
    split; [exact (Hloud code name Hc Hne Hn Hnn)|]. split; reflexivity.
Qed.

(** X14. The creation route always answers.  Either the code generator gave
    up and the answer is 500, with the registry as it was; or the answer
    names a code that was not registered, and the registry now holds under
    it a paused room at time 0 with an empty chat log, whose video is the
    requested one (trimmed) or the default when none was requested, all
    other rooms being untouched. *)
Theorem create_room_reply (w : World) (v : JsVal) :
  let requested := trim (Js.ToString NumberToString (or_else v (JStr ""))) in
  exists w',
    handle (PostRoomsCreate v) w = Ok tt w' /\
    sockets w' = sockets w /\ members w' = members w /\
    ((rooms w' = rooms w /\ room_order w' = room_order w /\
      outbox w' =
        (outbox w ++ [http_reply (HttpMessage 500 "Failed to create room")])%list)
     \/
     exists code st',
       rooms w !! code = None /\
       rooms w' = <[code := st']> (rooms w) /\
       room_order w' = (room_order w ++ [code])%list /\
       outbox w' = (outbox w ++ [http_reply (HttpCreated code (videoId st'))])%list /\
       roomCode st' = code /\
       videoId st' = JStr (if requested =? "" then "dQw4w9WgXcQ" else requested) /\
       isPlaying st' = false /\
       currentTime st' = PrimFloat.zero /\
       chat st' = []).
Proof.
  intros requested. simpl handle.
  pose proof (getUniqueRoomCode_outcome w) as Hpick.
  destruct (getUniqueRoomCode w) as [code w1|err w1] eqn:Hrun.
  - destruct Hpick as (Hfree & k & _ & _ & Hw1).
    destruct (create_room_picked getUniqueRoomCode v w w1 code Hrun)
      as (w' & st' & Hcreate & Hrooms & Hord & Hsock & Hmem & Hout & Hkey
          & Hvid & Hplay & Htime & Hchat & _);
      try (rewrite Hw1); try apply same_core_draws; try apply draws_outbox;
      try apply draws_clock; try exact Hfree.
    change (post_rooms_create v w = Ok tt w') in Hcreate.
    exists w'. split; [exact Hcreate|]. split; [exact Hsock|]. split; [exact Hmem|].
    right. exists code, st'. repeat split; assumption.
  - destruct Hpick as (n & Hw1).
    pose proof (create_room_failed getUniqueRoomCode v w w1 err Hrun) as Hfail.
    change (post_rooms_create v w = Ok tt
              (send (http_reply (HttpMessage 500 "Failed to create room")) w1))
      in Hfail.
    eexists. split; [exact Hfail|]. rewrite Hw1.
    destruct (same_core_draws n w) as (A & B & C & D).
    cbn [rooms room_order sockets members outbox send].
    split; [exact C|]. split; [exact D|]. left.
    split; [exact A|]. split; [exact B|]. rewrite draws_outbox. reflexivity.
Qed.

(** X15. The snapshot route only reads.  Whatever the parameter, it changes
    no room, no socket and no transport room, and it answers once: 400 for
    a code that is not well-formed once normalised, 404 for a well-formed
    code that names no room, and otherwise the room's video, flag and
    synced time: the stored time when paused, the stored time plus the
    elapsed time when playing. *)
Theorem snapshot_route_reads (w : World) (param : string) :
  let code := normalizeRoomCode NumberToString (JStr param) in
  exists w' reply,
    handle (GetRooms param) w = Ok tt w' /\
    same_core w w' /\
    outbox w' = (outbox w ++ [http_reply reply])%list /\
    (isValidRoomCode code = false ->
     reply = HttpMessage 400 "Invalid room code format") /\
    (isValidRoomCode code = true -> rooms w !! code = None ->
     reply = HttpMessage 404 "Room not found") /\
    (forall st, isValidRoomCode code = true -> rooms w !! code = Some st ->
     reply = HttpSnapshot code (videoId st) (isPlaying st)
               (if isPlaying st
                then (currentTime st
                      + (date_source (clock_reads w) - lastUpdatedAt st) / 1000)%float
                else currentTime st)).
Proof.
  intros code. simpl handle. unfold get_rooms. fold code.
  destruct (isValidRoomCode code) eqn:Hv; cbn [negb].
  2:{ eexists _, _. split; [reflexivity|]. split; [apply same_core_send|].
      split; [reflexivity|]. split; [reflexivity|]. split; discriminate. }
  unfold bind at 1. rewrite rooms_has_run.
  destruct (rooms w !! code) as [st|] eqn:Hr.
  - rewrite bool_decide_true by eauto. cbn [negb].
    unfold bind at 1. rewrite (getOrCreateRoom_present _ _ _ Hr).
    unfold bind, getSyncedTime.
    destruct (isPlaying st) eqn:Hp; cbn [negb];
      eexists _, _; (split; [reflexivity|]);
      (split; [repeat split|]); (split; [reflexivity|]);
      (split; [discriminate|]); (split; [discriminate|]);
      intros st1 _ [= <-]; rewrite Hp; reflexivity.
  - rewrite bool_decide_false by apply is_Some_None. cbn [negb].
    eexists _, _. split; [reflexivity|]. split; [apply same_core_send|].
    split; [reflexivity|]. split; [discriminate|]. split; [reflexivity|].
    discriminate.
Qed.

End Handlers.

Section Configuration.
Context {host : Host}.

Lemma trimEnd_empty_white (s : string) : trimEnd s = "" <-> all_white s = true.
Proof.
  unfold all_white. induction s as [|c s IH]; simpl; [tauto|].
  destruct (is_white_space c); simpl.
  - destruct (String.eqb_spec (trimEnd s) "") as [He|Hne].
    + split; [intros _; apply IH, He | reflexivity].
    + split; [discriminate | intros H; apply IH in H; contradiction].
  - split; discriminate.
Qed.

Lemma trimStart_white (s : string) : all_white s = true -> trimStart s = "".
Proof.
  unfold all_white. induction s as [|c s IH]; simpl; [reflexivity|].
  intros H. apply andb_prop in H as [Hc Hs]. rewrite Hc. exact (IH Hs).
Qed.

Lemma trimStart_trimEnd (s : string) :
  trimStart (trimEnd s) = trimEnd (trimStart s).
Proof.
  induction s as [|c s IH]; [reflexivity|].
  cbn [trimEnd trimStart].
  destruct (is_white_space c) eqn:Hc; cbn [andb].
  - destruct (String.eqb_spec (trimEnd s) "") as [He|Hne].
    + cbn [trimStart]. apply trimEnd_empty_white in He.
      rewrite (trimStart_white _ He). reflexivity.
    + cbn [trimStart]. rewrite Hc. exact IH.
  - cbn [trimStart trimEnd]. rewrite Hc. reflexivity.
Qed.

Lemma trim_trimEnd (s : string) : trim (trimEnd s) = trim s.
Proof. unfold trim. rewrite trimStart_trimEnd, trimEnd_idem. reflexivity. Qed.

Lemma trim_starts_clean (s : string) : starts_clean (trim s).
Proof. apply trimEnd_clean, trimStart_clean. Qed.

Lemma trimEnd_snoc (s : string) (c : ascii) :
  is_white_space c = false ->
  trimEnd (s ++ String c "") = s ++ String c "".
Proof.
  intros Hc. induction s as [|a s IH].
  - change (trimEnd (String c "") = String c "").
    cbn [trimEnd]. rewrite Hc. reflexivity.
  - change (trimEnd (String a (s ++ String c ""))
            = String a (s ++ String c "")).
    cbn [trimEnd]. rewrite IH.
    destruct s; cbn; rewrite andb_false_r; reflexivity.
Qed.

Lemma strip_decompose (s : string) :
  exists tail, string_forallb is_slash tail = true /\
               s = stripTrailingSlashes s ++ tail.
Proof.
  induction s as [|c s (tail & Ht & Hs)]; [exists ""; split; reflexivity|].
  cbn [stripTrailingSlashes].
  destruct (is_slash c && (stripTrailingSlashes s =? "")) eqn:E.
  - apply andb_prop in E as [Hc He]. apply String.eqb_eq in He.
    rewrite He in Hs. exists (String c tail). cbn. rewrite Hc, Ht.
    split; [reflexivity|]. rewrite Hs at 1. reflexivity.
  - exists tail. split; [exact Ht|].
    change (String c s = String c (stripTrailingSlashes s ++ tail)).
    f_equal. exact Hs.
Qed.

Lemma strip_last (s : string) : last_char (stripTrailingSlashes s) <> Some "/"%char.
Proof.
  induction s as [|c s IH]; [discriminate|].
  cbn [stripTrailingSlashes].
  destruct (is_slash c && (stripTrailingSlashes s =? "")) eqn:E; [discriminate|].
  cbn [last_char]. destruct (stripTrailingSlashes s) as [|c' t] eqn:Ht.
  - cbn in E. rewrite andb_true_r in E. unfold is_slash in E.
    intros [= ->]. discriminate E.
  - exact IH.
Qed.

Lemma strip_snoc_slash (s : string) :
  stripTrailingSlashes (s ++ "/") = stripTrailingSlashes s.
Proof.
  induction s as [|c s IH]; [reflexivity|].
  change (stripTrailingSlashes (String c (s ++ "/"))
          = stripTrailingSlashes (String c s)).
  cbn [stripTrailingSlashes]. rewrite IH. reflexivity.
Qed.

(** X16. [normalizeOrigin] gives ["*"] for a missing, blank or ["*"] value;
    for any other value it gives the trimmed text without its trailing
    slashes: the text is the result followed by slashes only, and the result
    does not end with a slash (it is empty when the text is made of slashes
    only). *)
Theorem normalizeOrigin_strips (value : JsVal) :
  let text := trim (Js.ToString NumberToString (or_else value (JStr ""))) in
  let origin := normalizeOrigin NumberToString value in
  (text = "" \/ text = "*" -> origin = "*") /\
  (text <> "" -> text <> "*" ->
   last_char origin <> Some "/"%char /\
   exists slashes,
     string_forallb is_slash slashes = true /\ text = origin ++ slashes).
Proof.
  intros text origin. subst origin. unfold normalizeOrigin. fold text.
  rewrite truthy_JStr_eqb. split.
  - intros [-> | ->]; reflexivity.
  - intros H1 H2. apply String.eqb_neq in H1, H2. rewrite H1, H2. cbn [orb].
    split; [apply strip_last | apply strip_decompose].
Qed.

(** X17. One trailing slash more makes no difference: an origin written
    without surrounding white space normalises to the same text with and
    without a slash appended. *)
Theorem normalizeOrigin_trailing_slash (s : string) :
  s <> "" -> trim s = s ->
  normalizeOrigin NumberToString (JStr (s ++ "/"))
  = normalizeOrigin NumberToString (JStr s).
Proof.
  intros Hne Htrim.
  assert (Hclean : starts_clean s) by (rewrite <- Htrim; apply trim_starts_clean).
  assert (Hlong : s ++ "/" <> "" /\ s ++ "/" <> "*").
  { destruct s as [|c [|c' s]]; [contradiction| |]; split; discriminate. }
  destruct Hlong as [Hne' Hstar].
  assert (Htrim' : trim (s ++ "/") = s ++ "/").
  { unfold trim. rewrite trimStart_of_clean.
    - apply trimEnd_snoc. reflexivity.
    - destruct s as [|c s]; [contradiction | exact Hclean]. }
  unfold normalizeOrigin, or_else.
  rewrite (truthy_JStr _ Hne'), (truthy_JStr _ Hne). cbn [Js.ToString].
  rewrite Htrim', Htrim, !truthy_JStr_eqb.
  apply String.eqb_neq in Hne', Hstar, Hne. rewrite Hne', Hstar, Hne.
  cbn [orb]. rewrite strip_snoc_slash.
  destruct (String.eqb_spec s "*") as [->|_]; reflexivity.
Qed.

Lemma env_truthy_lookup (env env' : gmap string string) (key : string) :
  env' !! key = env !! key -> env_truthy env' key = env_truthy env key.
Proof. unfold env_truthy. intros ->. reflexivity. Qed.

(** A line changes the environment at one name at most, and only at a name
    that reads falsy. *)
Lemma applyEnvLine_effect (env : gmap string string) (line : string) :
  applyEnvLine env line = env \/
  exists key value,
    env_truthy env key = false /\ applyEnvLine env line = <[key := value]> env.
Proof.
  unfold applyEnvLine.
  destruct (negb (truthy (JStr (trim line))) || startsWithHash (trim line));
    [left; reflexivity|].
  destruct (indexOfEq (trim line)) as [[|n]|]; try (left; reflexivity).
  destruct (negb (truthy (JStr (trim (slice_to (S n) (trim line))))))
    ; cbn [orb]; [left; reflexivity|].
  destruct (env_truthy env (trim (slice_to (S n) (trim line)))) eqn:E;
    [left; reflexivity|].
  right. eauto.
Qed.

Lemma applyEnvLine_keeps (env : gmap string string) (line key : string) :
  (env_truthy env key = true -> applyEnvLine env line !! key = env !! key) /\
  (is_Some (env !! key) -> is_Some (applyEnvLine env line !! key)).
Proof.
  destruct (applyEnvLine_effect env line) as [-> | (k & v & Hk & ->)];
    [split; auto|].
  destruct (decide (k = key)) as [->|Hne].
  - split; [congruence | intros _; rewrite lookup_insert_eq; eauto].
  - rewrite lookup_insert_ne by exact Hne. split; auto.
Qed.

Lemma foldl_env_keeps (lines : list string) (env : gmap string string)
    (key : string) :
  (env_truthy env key = true ->
   foldl applyEnvLine env lines !! key = env !! key) /\
  (is_Some (env !! key) -> is_Some (foldl applyEnvLine env lines !! key)).
Proof.
  revert env. induction lines as [|line lines IH]; intros env; [split; auto|].
  cbn [foldl]. destruct (applyEnvLine_keeps env line key) as [Hkeep Hsome].
  destruct (IH (applyEnvLine env line)) as [IHkeep IHsome]. split.
  - intros Ht. rewrite IHkeep; [exact (Hkeep Ht)|].
    rewrite (env_truthy_lookup env _ key (Hkeep Ht)). exact Ht.
  - intros Hs. exact (IHsome (Hsome Hs)).
Qed.

(** X18. Loading the local environment files never overrides the
    environment: a name that reads truthy (a variable set to a non-empty
    value) has the same value afterwards, whatever the files hold, and no
    variable is ever removed. *)
Theorem env_never_overridden (env : gmap string string)
    (files : list (option string)) (key : string) :
  (env_truthy env key = true ->
   loadLocalEnvFile env files !! key = env !! key) /\
  (is_Some (env !! key) -> is_Some (loadLocalEnvFile env files !! key)).
Proof.
  unfold loadLocalEnvFile. revert env.
  induction files as [|file files IH]; intros env; [split; auto|].
  cbn [foldl].
  assert (Hfile : (env_truthy env key = true ->
                   loadEnvFile env file !! key = env !! key) /\
                  (is_Some (env !! key) -> is_Some (loadEnvFile env file !! key))).
  { destruct file as [content|]; [apply foldl_env_keeps | split; auto]. }
  destruct Hfile as [Hkeep Hsome].
  destruct (IH (loadEnvFile env file)) as [IHkeep IHsome]. split.
  - intros Ht. rewrite IHkeep; [exact (Hkeep Ht)|].
    rewrite (env_truthy_lookup env _ key (Hkeep Ht)). exact Ht.
  - intros Hs. exact (IHsome (Hsome Hs)).
Qed.

Lemma indexOfEq_none (s : string) : no_equals s = true -> indexOfEq s = None.
Proof.
  unfold no_equals. induction s as [|c s IH]; [reflexivity|].
  cbn [string_mem indexOfEq]. rewrite (Ascii.eqb_sym "=" c).
  destruct (Ascii.eqb c "="); [discriminate|]. cbn [orb].
  intros H. rewrite (IH H). reflexivity.
Qed.

Lemma indexOfEq_app (key rest : string) :
  no_equals key = true ->
  indexOfEq (key ++ String "=" rest) = Some (String.length key).
Proof.
  unfold no_equals. induction key as [|c key IH]; [reflexivity|].
  intros H.
  change (indexOfEq (String c (key ++ String "=" rest))
          = Some (S (String.length key))).
  cbn [indexOfEq]. cbn [string_mem] in H. rewrite (Ascii.eqb_sym "=" c) in H.
  destruct (Ascii.eqb c "="); [discriminate H|]. cbn [orb] in H.
  rewrite (IH H). reflexivity.
Qed.

Lemma slice_to_app (key rest : string) :
  slice_to (String.length key) (key ++ rest) = key.
Proof.
  unfold slice_to. induction key as [|c key IH].
  - destruct rest; reflexivity.
  - change (substring 0 (S (String.length key)) (String c (key ++ rest))
            = String c key).
    cbn [substring]. rewrite IH. reflexivity.
Qed.

Lemma slice_from_app (key rest : string) (c : ascii) :
  slice_from (S (String.length key)) (key ++ String c rest) = rest.
Proof.
  induction key as [|a key IH]; [reflexivity|].
  change (slice_from (S (S (String.length key))) (String a (key ++ String c rest))
          = rest).
  cbn [slice_from]. exact IH.
Qed.

Lemma trimEnd_anchor (a b : string) (c : ascii) :
  is_white_space c = false ->
  trimEnd (a ++ String c b) = a ++ String c (trimEnd b).
Proof.
  intros Hc. induction a as [|x a IH].
  - change (trimEnd (String c b) = String c (trimEnd b)).
    cbn [trimEnd]. rewrite Hc. reflexivity.
  - change (trimEnd (String x (a ++ String c b))
            = String x (a ++ String c (trimEnd b))).
    cbn [trimEnd]. rewrite IH.
    destruct a; cbn; rewrite andb_false_r; reflexivity.
Qed.

Lemma trim_clean_nonempty (s : string) :
  s <> "" -> starts_clean s -> trim s <> "".
Proof.
  intros Hne Hclean. unfold trim. rewrite (trimStart_of_clean _ Hclean).
  destruct s as [|c s]; [contradiction|]. cbn in Hclean. cbn [trimEnd].
  rewrite Hclean. discriminate.
Qed.

(** X19. A line ["KEY=VALUE"], possibly indented, sets the variable named by
    the key to the value, both trimmed, provided the name does not read
    truthy yet; the line is cut at its first equals sign, so the value may
    hold further ones. *)
Theorem env_line_assigns (env : gmap string string) (pad key value : string) :
  all_white pad = true ->
  key <> "" -> starts_clean key ->
  startsWithHash key = false ->
  no_equals key = true ->
  env_truthy env (trim key) = false ->
  applyEnvLine env (pad ++ key ++ "=" ++ value)
  = <[trim key := trim value]> env.
Proof.
  intros Hpad Hne Hclean Hhash Hnoeq Hfalsy.
  assert (Htrim : trim (pad ++ key ++ "=" ++ value)
                  = key ++ String "=" (trimEnd value)).
  { unfold trim. rewrite (trimStart_pad _ _ Hpad).
    rewrite trimStart_of_clean
      by (destruct key; [contradiction | exact Hclean]).
    apply (trimEnd_anchor key value "="). reflexivity. }
  unfold applyEnvLine. rewrite Htrim.
  assert (Hnonempty : key ++ String "=" (trimEnd value) <> "")
    by (destruct key; discriminate).
  rewrite (truthy_JStr _ Hnonempty). cbn [negb orb].
  assert (Hh : startsWithHash (key ++ String "=" (trimEnd value)) = false)
    by (destruct key; [contradiction | exact Hhash]).
  rewrite Hh, (indexOfEq_app _ _ Hnoeq).
  destruct (String.length key) as [|n] eqn:Hlen;
    [destruct key; [contradiction | discriminate Hlen]|].
  rewrite <- Hlen, slice_to_app, slice_from_app, trim_trimEnd.
  rewrite (truthy_JStr _ (trim_clean_nonempty _ Hne Hclean)), Hfalsy.
  reflexivity.
Qed.

(** X20. The loader skips what is not an assignment: a blank line, a comment
    (a line whose first character that is not white space is [#]), a line
    without an equals sign and a line that begins with one leave the
    environment as it is. *)
Theorem env_line_ignored (env : gmap string string) (line : string) :
  trim line = "" \/ startsWithHash (trim line) = true \/
  no_equals (trim line) = true \/ (exists rest, trim line = String "=" rest) ->
  applyEnvLine env line = env.
Proof.
  unfold applyEnvLine. intros [H | [H | [H | [rest H]]]].
  - rewrite H. reflexivity.
  - rewrite H, orb_true_r. reflexivity.
  - rewrite (indexOfEq_none _ H).
    destruct (negb (truthy (JStr (trim line))) || startsWithHash (trim line));
      reflexivity.
  - rewrite H. reflexivity.
Qed.

End Configuration.

(** * The video search proxy *)

Section Proxy.
Context {host : Host}.
Variable YOUTUBE_API_KEY : option string.
Variable fetch : Request -> Upstream.

Lemma query_text (q : option string) :
  Js.ToString NumberToString (or_else (js_opt q) (JStr "")) = default "" q.
Proof.
  destruct q as [s|]; [|reflexivity].
  unfold or_else. cbn [js_opt truthy].
  destruct (String.eqb_spec s ""); subst; reflexivity.
Qed.

Lemma key_missing :
  negb (truthy (js_opt YOUTUBE_API_KEY)) = (prop_str YOUTUBE_API_KEY =? "").
Proof.
  destruct YOUTUBE_API_KEY as [k|]; [|reflexivity].
  cbn [js_opt prop_str default]. apply truthy_JStr_eqb.
Qed.

Lemma json_or_text (a : Json) :
  json_or a (JsString "") = JsString "" \/ json_truthy (json_or a (JsString "")) = true.
Proof.
  unfold json_or. destruct (json_truthy a) eqn:E; [right; exact E | left; reflexivity].
Qed.

Lemma json_or_text2 (a b : Json) :
  json_or a (json_or b (JsString "")) = JsString "" \/
  json_truthy (json_or a (json_or b (JsString ""))) = true.
Proof.
  unfold json_or at 1 3. destruct (json_truthy a) eqn:E;
    [right; exact E | apply json_or_text].
Qed.

Lemma mapped_ids (items : list Json) :
  List.map vi_videoId (mapYouTubeItems items) =
  List.filter json_truthy
    (List.map (fun item => prop (prop item "id") "videoId") items).
Proof.
  unfold mapYouTubeItems.
  induction items as [|item items IH]; [reflexivity|].
  cbn [List.map List.filter]. cbn [mapItem vi_videoId].
  destruct (json_truthy (prop (prop item "id") "videoId"));
    cbn [List.map]; [f_equal|]; exact IH.
Qed.

Lemma mapped_in (items : list Json) (r : VideoItem) :
  In r (mapYouTubeItems items) ->
  json_truthy (vi_videoId r) = true /\ exists item, In item items /\ r = mapItem item.
Proof.
  unfold mapYouTubeItems. intros H.
  apply List.filter_In in H as [H1 H2]. split; [exact H2|].
  apply List.in_map_iff in H1 as (item & <- & Hin). exists item. auto.
Qed.

Lemma other_video_true (videoId : string) (r : VideoItem) :
  other_video videoId r = true -> vi_videoId r <> JsString videoId.
Proof.
  unfold other_video. intros H E. rewrite E in H.
  rewrite String.eqb_refl in H. discriminate.
Qed.

Lemma items_of_in (body : option Json) (results : list VideoItem) (r : VideoItem) :
  items_of body = Some results -> In r results ->
  json_truthy (vi_videoId r) = true.
Proof.
  unfold items_of. intros H Hin.
  destruct body as [data|]; [|discriminate].
  destruct (prop_strict data "items") as [items|]; [|discriminate].
  destruct (as_array _) as [arr|]; [|discriminate].
  injection H as <-. exact (proj1 (mapped_in _ _ Hin)).
Qed.

Lemma upstream_error_status (status : nat) (body : option Json)
    (fallback : string) (st : nat) (m : Json) :
  fallback <> "" ->
  upstream_error status body fallback = ReplyMessage st m ->
  (st = 429 /\ status = 403 \/ st = 502 /\ status <> 403) /\ json_truthy m = true.
Proof.
  unfold upstream_error. intros Hf H. injection H as <- <-. split.
  - destruct (Nat.eqb_spec status 403); [left | right]; auto.
  - unfold json_or.
    destruct (json_truthy (prop (prop (default (JsObject []) body) "error") "message"))
      eqn:E; [exact E|].
    cbn [json_truthy]. destruct (String.eqb_spec fallback ""); [contradiction | reflexivity].
Qed.

(** X21.  [mapYouTubeItems] keeps, in their order, exactly the items whose
    [id.videoId] is truthy, and the kept entries never have a missing field:
    the channel id, the title, the channel title and the thumbnail are each
    the empty string or a truthy value. *)
Theorem mapYouTubeItems_keeps_identified (items : list Json) :
  List.map vi_videoId (mapYouTubeItems items) =
    List.filter json_truthy
      (List.map (fun item => prop (prop item "id") "videoId") items) /\
  forall r, In r (mapYouTubeItems items) ->
    json_truthy (vi_videoId r) = true /\
    (vi_channelId r = JsString "" \/ json_truthy (vi_channelId r) = true) /\
    (vi_title r = JsString "" \/ json_truthy (vi_title r) = true) /\
    (vi_channelTitle r = JsString "" \/ json_truthy (vi_channelTitle r) = true) /\
    (vi_thumbnail r = JsString "" \/ json_truthy (vi_thumbnail r) = true).
Proof.
  split; [apply mapped_ids|].
  intros r Hin. destruct (mapped_in _ _ Hin) as (Hid & item & _ & ->).
  split; [exact Hid|]. cbn [mapItem vi_channelId vi_title vi_channelTitle vi_thumbnail].
  repeat split; try apply json_or_text. apply json_or_text2.
Qed.

(** X22.  The search route asks the upstream at most once, and not at all
    exactly when the trimmed query is empty (status 400) or the API key is
    missing or empty (status 500, the query being checked first). *)
Theorem search_checks_before_fetch (q : option string) :
  let text := trim (default "" q) in
  let key := prop_str YOUTUBE_API_KEY in
  (text = "" ->
   get_youtube_search YOUTUBE_API_KEY fetch q =
     ([], ReplyMessage 400 (JsString "Query is required"))) /\
  (text <> "" -> key = "" ->
   get_youtube_search YOUTUBE_API_KEY fetch q =
     ([], ReplyMessage 500 (JsString "YOUTUBE_API_KEY is missing on backend"))) /\
  (text <> "" -> key <> "" ->
   (get_youtube_search YOUTUBE_API_KEY fetch q).1 = [search_request text key]).
Proof.
  cbn zeta. unfold get_youtube_search. rewrite query_text, truthy_JStr_eqb, key_missing.
  repeat split.
  - intros ->. reflexivity.
  - intros H1 H2. rewrite H2.
    destruct (String.eqb_spec (trim (default "" q)) ""); [contradiction | reflexivity].
  - intros H1 H2.
    destruct (String.eqb_spec (trim (default "" q)) ""); [contradiction|].
    destruct (String.eqb_spec (prop_str YOUTUBE_API_KEY) ""); [contradiction|].
    reflexivity.
Qed.

(** X23.  Whatever the upstream does, the search route replies: with
    results, each of a truthy video id, only when the upstream answered with
    an ok status; otherwise with a non-empty message and one of the statuses
    400, 500, 429 and 502, the status 429 only when the upstream answered
    403. *)
Theorem search_reply_shape (q : option string) :
  match (get_youtube_search YOUTUBE_API_KEY fetch q).2 with
  | ReplyResults results source =>
      source = None /\
      (exists status body,
         fetch (search_request (trim (default "" q)) (prop_str YOUTUBE_API_KEY)) =
           Responded status body /\ status_ok status = true) /\
      forall r, In r results -> json_truthy (vi_videoId r) = true
  | ReplyMessage status message =>
      json_truthy message = true /\
      (status = 400 \/ status = 500 \/ status = 502 \/
       status = 429 /\
       exists body,
         fetch (search_request (trim (default "" q)) (prop_str YOUTUBE_API_KEY)) =
           Responded 403 body)
  end.
Proof.
  unfold get_youtube_search. rewrite query_text, truthy_JStr_eqb, key_missing.
  destruct (trim (default "" q) =? ""); [cbn; auto|].
  destruct (prop_str YOUTUBE_API_KEY =? ""); [cbn; auto|].
  cbn [snd or_unavailable].
  destruct (fetch _) as [|status body] eqn:Ef; [cbn; auto 6|].
  destruct (status_ok status) eqn:Eok; cbn [negb].
  - destruct (items_of body) as [results|] eqn:Ei; [|cbn; auto 6].
    cbn [default]. split; [reflexivity|]. split; [eauto|].
    intros r Hr. exact (items_of_in _ _ _ Ei Hr).
  - cbn [default].
    destruct (upstream_error status body "YouTube API request failed")
      as [st m|] eqn:Eu; [|discriminate Eu].
    apply upstream_error_status in Eu as [[[-> ->]|[-> Hn]] Hm]; [| |discriminate].
    + split; [exact Hm|]. right. right. right. eauto.
    + split; [exact Hm|]. auto.
Qed.

Lemma related_from_channel_reply (videoId : string) (channelId : Json)
    (requests : list Request) (reply : Reply) :
  related_from_channel YOUTUBE_API_KEY fetch videoId channelId =
    (requests, Some (Some reply)) ->
  exists results,
    reply = ReplyResults results (Some "channel") /\ results <> [] /\
    forall r, In r results ->
      json_truthy (vi_videoId r) = true /\ vi_videoId r <> JsString videoId.
Proof.
  unfold related_from_channel. intros H.
  destruct (json_truthy channelId); [|discriminate].
  destruct (fetch _) as [|status body]; [discriminate|].
  destruct (status_ok status); [|discriminate].
  destruct (items_of body) as [results|] eqn:Ei; [|discriminate].
  destruct (List.filter (other_video videoId) results) as [|r0 rest] eqn:Ef;
    [discriminate|].
  cbn in H. injection H as _ <-. exists (r0 :: rest).
  split; [reflexivity|]. split; [discriminate|].
  intros r Hr. rewrite <- Ef in Hr. apply List.filter_In in Hr as [Hr Ho].
  split; [exact (items_of_in _ _ _ Ei Hr) | exact (other_video_true _ _ Ho)].
Qed.

Lemma related_fallback_reply (videoId : string) (requests : list Request)
    (results : list VideoItem) (source : option string) :
  related_fallback YOUTUBE_API_KEY fetch videoId =
    (requests, Some (ReplyResults results source)) ->
  source = Some "related-fallback" /\
  forall r, In r results ->
    json_truthy (vi_videoId r) = true /\ vi_videoId r <> JsString videoId.
Proof.
  unfold related_fallback. intros H.
  destruct (fetch _) as [|status body]; [discriminate|].
  destruct (status_ok status); cbn [negb] in H; [|discriminate].
  destruct (items_of body) as [all|] eqn:Ei; [|discriminate].
  injection H as _ <- <-. split; [reflexivity|].
  intros r Hr. apply List.filter_In in Hr as [Hr Ho].
  split; [exact (items_of_in _ _ _ Ei Hr) | exact (other_video_true _ _ Ho)].
Qed.

(** X24.  The related route never lists the video it was asked about, nor an
    item without a video id; results marked as coming from the channel are
    never empty, and every other list is marked as the fallback. *)
Theorem related_excludes_requested (videoId channelId : option string)
    (results : list VideoItem) (source : option string) :
  (get_youtube_related YOUTUBE_API_KEY fetch videoId channelId).2 =
    ReplyResults results source ->
  (source = Some "channel" /\ results <> [] \/ source = Some "related-fallback") /\
  forall r, In r results ->
    json_truthy (vi_videoId r) = true /\
    vi_videoId r <> JsString (trim (default "" videoId)).
Proof.
  unfold get_youtube_related. rewrite !query_text.
  destruct (negb (truthy (JStr (trim (default "" videoId))))); [discriminate|].
  destruct (negb (truthy (js_opt YOUTUBE_API_KEY))); [discriminate|].
  destruct (related_channel _ _ _ _) as [requests1 [channel|]]; [|discriminate].
  destruct (related_from_channel _ _ _ _) as [requests2 [[reply|]|]] eqn:E2;
    [| |discriminate].
    intros H. change (reply = ReplyResults results source) in H. subst reply.
    apply related_from_channel_reply in E2 as (rs & E & Hne & Hall).
    injection E as <- <-. split; [left; auto | exact Hall].
  - destruct (related_fallback _ _ _) as [requests3 [reply|]] eqn:E3; [|discriminate].
    intros H. change (reply = ReplyResults results source) in H. subst reply.
    apply related_fallback_reply in E3 as [-> Hall]. split; [right; reflexivity | exact Hall].
Qed.

(** X25.  When the caller names a channel, the related route does not look
    the video up: its first request is the channel's video list, and it makes
    at most two requests; without one it makes at most three, the first being
    the video lookup. *)
Theorem related_requests_bounded (videoId channelId : option string) :
  let vid := trim (default "" videoId) in
  let cid := trim (default "" channelId) in
  let key := prop_str YOUTUBE_API_KEY in
  let requests := (get_youtube_related YOUTUBE_API_KEY fetch videoId channelId).1 in
  vid <> "" -> key <> "" ->
  (cid <> "" ->
   head requests = Some (channel_request (JsString cid) key) /\
   (length requests <= 2)%nat) /\
  (cid = "" ->
   head requests = Some (details_request vid key) /\
   (length requests <= 3)%nat).
Proof.
  cbn zeta. intros Hv Hk.
  unfold get_youtube_related. rewrite !query_text, truthy_JStr_eqb, key_missing.
  destruct (String.eqb_spec (trim (default "" videoId)) ""); [contradiction|].
  destruct (String.eqb_spec (prop_str YOUTUBE_API_KEY) ""); [contradiction|].
  cbn [fst or_unavailable].
  assert (Hlen2 : forall c,
    (length (related_from_channel YOUTUBE_API_KEY fetch
               (trim (default "" videoId)) c).1 <= 1)%nat).
  { intros c. unfold related_from_channel.
    destruct (json_truthy c); [|cbn; lia]. cbn [fst length]. lia. }
  split; intros Hc.
  - unfold related_channel. rewrite (truthy_JStr _ Hc).
    assert (Hhead : (related_from_channel YOUTUBE_API_KEY fetch
               (trim (default "" videoId))
               (JsString (trim (default "" channelId)))).1 =
             [channel_request (JsString (trim (default "" channelId)))
                (prop_str YOUTUBE_API_KEY)]).
    { unfold related_from_channel. cbn [json_truthy].
      destruct (String.eqb_spec (trim (default "" channelId)) "");
        [contradiction | reflexivity]. }
    destruct (related_from_channel _ _ _ _) as [requests2 [[reply|]|]];
      cbn [fst] in Hhead; subst requests2; cbn; split; try reflexivity; lia.
  - unfold related_channel. rewrite Hc. cbn [truthy String.eqb negb].
    destruct (fetch (details_request _ _)) as [|status body];
      [cbn; split; [reflexivity | lia]|].
    destruct (if status_ok status then _ else _) as [c|];
      [|cbn; split; [reflexivity | lia]].
    specialize (Hlen2 c).
    destruct (related_from_channel _ _ _ _) as [requests2 [[reply|]|]];
      cbn [fst] in Hlen2; cbn [fst app head]; (split; [reflexivity|]);
      cbn [length]; rewrite ?length_app; cbn [related_fallback length fst];
      try lia.
    unfold related_fallback. cbn [length]. rewrite List.length_app. cbn [length]. lia.
Qed.

(** X26.  A channel listing that fails is not reported.  Whether the channel
    was named by the caller or found by the video lookup, when the upstream
    answers the channel request with a status that is not ok, the related
    route goes on to the fallback request and replies with its outcome. *)
Theorem related_channel_failure_falls_back (videoId channelId : option string)
    (channel : Json) (lookup : list Request) (status : nat)
    (body : option Json) :
  let vid := trim (default "" videoId) in
  let cid := trim (default "" channelId) in
  let key := prop_str YOUTUBE_API_KEY in
  vid <> "" -> key <> "" ->
  (cid <> "" /\ channel = JsString cid /\ lookup = []) \/
  (cid = "" /\ lookup = [details_request vid key] /\
   json_truthy channel = true /\
   exists found data,
     fetch (details_request vid key) = Responded found (Some data) /\
     status_ok found = true /\
     channel =
       json_or (prop (prop (index0 (prop data "items")) "snippet") "channelId")
         (JsString "")) ->
  fetch (channel_request channel key) = Responded status body ->
  status_ok status = false ->
  get_youtube_related YOUTUBE_API_KEY fetch videoId channelId =
    or_unavailable
      ((lookup ++
        channel_request channel key ::
          (related_fallback YOUTUBE_API_KEY fetch vid).1)%list,
       (related_fallback YOUTUBE_API_KEY fetch vid).2).
Proof.
  cbn zeta. intros Hv Hk Hchannel Hf Hok.
  unfold get_youtube_related. rewrite !query_text, truthy_JStr_eqb, key_missing.
  destruct (String.eqb_spec (trim (default "" videoId)) ""); [contradiction|].
  destruct (String.eqb_spec (prop_str YOUTUBE_API_KEY) ""); [contradiction|].
  assert (Hlisting :
    related_from_channel YOUTUBE_API_KEY fetch (trim (default "" videoId)) channel
    = ([channel_request channel (prop_str YOUTUBE_API_KEY)], Some None) /\
    related_channel YOUTUBE_API_KEY fetch (trim (default "" videoId))
      (trim (default "" channelId)) = (lookup, Some channel)).
  { destruct Hchannel as [(Hc & -> & ->) | (Hc & -> & Ht & found & data & Hd & Hfound & Hch)].
    - split.
      + unfold related_from_channel. cbn [json_truthy].
        destruct (String.eqb_spec (trim (default "" channelId)) "");
          [contradiction|].
        cbn [negb]. rewrite Hf, Hok. reflexivity.
      + unfold related_channel. rewrite (truthy_JStr _ Hc). reflexivity.
    - split.
      + unfold related_from_channel. rewrite Ht, Hf, Hok. reflexivity.
      + unfold related_channel. rewrite Hc. cbn [truthy String.eqb negb].
        rewrite Hd, Hfound, <- Hch. reflexivity. }
  destruct Hlisting as [Hlist Hfirst]. rewrite Hfirst, Hlist.
  destruct (related_fallback _ _ _) as [requests3 reply]. reflexivity.
Qed.

End Proxy.

(** * The properties on the sample session *)

Lemma sample_room_reachable : reachable (host := sample_host) sample_room.
Proof.
  exists [PostRoomsCreate (JStr "v1"); PostRoomsCreate JUndefined;
          Connect 1; Connect 2; JoinRoom 1 (JStr " abcdef ") (JStr "Ann")].
  reflexivity.
Defined.

Lemma reachable_worlds_consistent_witness : NoDup (room_order sample_room).
Proof.
  exact (proj1 (proj2 (reachable_worlds_consistent (host := sample_host)
                         sample_room sample_room_reachable))).
Defined.

Lemma registered_codes_in_alphabet_witness :
  String.length "GHJKLM" = 6 /\ string_forallb in_charset "GHJKLM" = true.
Proof.
  apply (proj1 (registered_codes_in_alphabet (host := sample_host) sample_room
                  sample_random_ok sample_room_reachable)).
  vm_compute. eexists. reflexivity.
Defined.

Lemma only_creation_adds_rooms_witness :
  is_Some (rooms (step (host := sample_host) sample_room
                    (JoinRoom 2 (JStr "GHJKLM") (JStr "Bo"))) !! "GHJKLM").
Proof.
  apply (proj1 (only_creation_adds_rooms (host := sample_host) sample_room
                  (JoinRoom 2 (JStr "GHJKLM") (JStr "Bo")) "GHJKLM"
                  sample_room_reachable)).
  vm_compute. eexists. reflexivity.
Defined.

Lemma event_writes_sender_room_witness :
  exists sid data,
    event_sender (SyncPlay 1 (JNum 30)) = Some sid /\
    sockets sample_room !! sid = Some data /\
    sd_roomCode data = Some "ABCDEF".
Proof.
  destruct (event_writes_sender_room (host := sample_host) sample_room
              (SyncPlay 1 (JNum 30)) "ABCDEF" sample_room_reachable) as
    [(v & Hv & _) | (_ & H)].
  - intros H.
    apply (f_equal (fun o => match o with
                             | Some st => isPlaying st
                             | None => false
                             end)) in H.
    vm_compute in H. discriminate H.
  - discriminate Hv.
  - exact H.
Defined.

Lemma getOrCreateRoom_lookup_witness :
  exists st w',
    getOrCreateRoom (host := sample_host) "ZZZZZZ" sample_room = Ok st w' /\
    rooms w' !! "ZZZZZZ" = Some st.
Proof.
  destruct (getOrCreateRoom_lookup (host := sample_host) "ZZZZZZ" sample_room)
    as (st & w' & H1 & H2 & _).
  exists st, w'. split; assumption.
Defined.

Lemma set_video_resets_playback_witness :
  exists w' st',
    handle (host := sample_host) (SetVideo 1 (JStr "v9")) sample_room = Ok tt w' /\
    rooms w' !! "ABCDEF" = Some st' /\
    isPlaying st' = false /\ videoId st' = JStr "v9".
Proof.
  destruct (set_video_resets_playback (host := sample_host) sample_room 1
              sample_data "ABCDEF" sample_state (JStr "v9")
              ltac:(vm_compute; reflexivity) ltac:(reflexivity)
              ltac:(discriminate) ltac:(vm_compute; reflexivity)
              ltac:(reflexivity))
    as (w' & st' & Hrun & Hrooms & Hst & _).
  exists w', st'. split; [exact Hrun|].
  split; [rewrite Hrooms; apply lookup_insert_eq|].
  rewrite Hst. split; reflexivity.
Defined.

Lemma sync_play_pause_effect_witness :
  exists w' sync,
    handle (host := sample_host) (SyncPlay 1 (JNum 30)) sample_room = Ok tt w' /\
    sockets w' = sockets sample_room /\
    sp_isPlaying sync = true.
Proof.
  pose proof (sync_play_pause_effect (host := sample_host) sample_room 1
                sample_data "ABCDEF" sample_state (JNum 30) true
                ltac:(vm_compute; reflexivity) ltac:(reflexivity)
                ltac:(discriminate) ltac:(vm_compute; reflexivity)) as H.
  cbv zeta in H. destruct H as (w' & sync & Hrun & _ & Hs & _ & _ & Hp & _).
  exists w', sync. split; [exact Hrun|]. split; [exact Hs | exact Hp].
Defined.

Lemma sync_time_defaults_to_zero_witness :
  exists st',
    rooms (step (host := sample_host) sample_room (SyncSeek 1 (JStr "abc")))
      !! "ABCDEF" = Some st' /\
    currentTime st' = PrimFloat.zero.
Proof.
  apply (sync_time_defaults_to_zero (host := sample_host) sample_room 1
           sample_data "ABCDEF" (SyncSeek 1 (JStr "abc")) (JStr "abc")
           ltac:(vm_compute; reflexivity) ltac:(reflexivity)
           ltac:(discriminate) (or_intror (or_intror eq_refl))
           ltac:(vm_compute; reflexivity)).
Defined.

Lemma join_snapshot_witness :
  exists w',
    handle (host := sample_host) (JoinRoom 2 (JStr "ghjklm") (JStr "Bo"))
      sample_room = Ok tt w' /\
    rooms w' = rooms sample_room /\
    2 ∈ default ∅ (members w' !! "GHJKLM").
Proof.
  assert (E : exists st, rooms sample_room !! "GHJKLM" = Some st)
    by (vm_compute; eexists; reflexivity).
  destruct E as [st E].
  pose proof (join_snapshot (host := sample_host) sample_room 2
                {| sd_roomCode := None; sd_username := None |}
                (JStr "ghjklm") (JStr "Bo") st
                ltac:(vm_compute; reflexivity) ltac:(vm_compute; discriminate)
                ltac:(vm_compute; reflexivity) E) as H.
  cbv zeta in H.
  destruct H as (w' & notice & Hrun & Hrooms & _ & _ & _ & _ & _ & _ & _ & Hin & _).
  exists w'. split; [exact Hrun|]. split; [exact Hrooms | exact Hin].
Defined.

Lemma rejoin_keeps_old_room_witness :
  1 ∈ recipients
        (members (step (host := sample_host) sample_room
                    (JoinRoom 1 (JStr "ghjklm") (JStr "Ann"))))
        (ToRoom "ABCDEF").
Proof.
  assert (E : exists st, rooms sample_room !! "GHJKLM" = Some st)
    by (vm_compute; eexists; reflexivity).
  destruct E as [st E].
  exact (proj2 (proj2 (rejoin_keeps_old_room (host := sample_host) sample_room 1
                         sample_data "ABCDEF" (JStr "ghjklm") (JStr "Ann") st
                         sample_room_reachable
                         ltac:(vm_compute; reflexivity) ltac:(reflexivity)
                         ltac:(vm_compute; discriminate)
                         ltac:(vm_compute; reflexivity) E))).
Defined.

Lemma chat_message_stored_witness :
  exists w' m,
    handle (host := sample_host) (ChatMessageEv 1 (JStr " hi ")) sample_room
      = Ok tt w' /\
    m_username m = "Ann" /\ m_text m = "hi".
Proof.
  destruct (chat_message_stored (host := sample_host) sample_room 1 sample_data
              "ABCDEF" "Ann" " hi " sample_state
              ltac:(vm_compute; reflexivity) ltac:(reflexivity)
              ltac:(discriminate) ltac:(reflexivity) ltac:(discriminate)
              ltac:(vm_compute; reflexivity) ltac:(vm_compute; discriminate))
    as (w' & m & Hrun & _ & Hu & Ht & _).
  exists w', m. split; [exact Hrun|]. split; [exact Hu | exact Ht].
Defined.

Lemma heartbeat_beats_every_room_witness :
  exists w' beats,
    handle (host := sample_host) Heartbeat sample_room = Ok tt w' /\
    outbox w' = (outbox sample_room ++ beats)%list /\
    length beats = 2.
Proof.
  destruct (heartbeat_beats_every_room (host := sample_host) sample_room
              sample_room_reachable)
    as (w' & beats & Hrun & _ & Hout & Hall & _).
  exists w', beats. split; [exact Hrun|]. split; [exact Hout|].
  rewrite <- (Forall2_length _ _ _ Hall). reflexivity.
Defined.

Lemma disconnect_notice_witness :
  exists w' notice,
    handle (host := sample_host) (Disconnect 1) sample_room = Ok tt w' /\
    outbox w' = (outbox sample_room ++ [notice])%list /\
    em_target notice = ToRoom "ABCDEF".
Proof.
  destruct (disconnect_notice (host := sample_host) sample_room 1 sample_data
              ltac:(vm_compute; reflexivity))
    as (w' & Hrun & _ & _ & _ & Hn).
  destruct (Hn "ABCDEF" "Ann" ltac:(reflexivity) ltac:(discriminate)
              ltac:(reflexivity) ltac:(discriminate))
    as (notice & Hout & Ht & _).
  exists w', notice. split; [exact Hrun|]. split; [exact Hout | exact Ht].
Defined.

Lemma create_room_reply_witness :
  exists w',
    handle (host := sample_host) (PostRoomsCreate (JStr " v7 ")) sample_room
      = Ok tt w' /\
    sockets w' = sockets sample_room /\ members w' = members sample_room.
Proof.
  pose proof (create_room_reply (host := sample_host) sample_room (JStr " v7 ")) as H.
  cbv zeta in H. destruct H as (w' & Hrun & Hs & Hm & _).
  exists w'. split; [exact Hrun|]. split; [exact Hs | exact Hm].
Defined.

Lemma snapshot_route_reads_witness :
  exists w' reply,
    handle (host := sample_host) (GetRooms "abcdef") sample_room = Ok tt w' /\
    outbox w' = (outbox sample_room ++ [http_reply reply])%list /\
    reply = HttpSnapshot "ABCDEF" (JStr "v1") false PrimFloat.zero.
Proof.
  pose proof (snapshot_route_reads (host := sample_host) sample_room "abcdef") as H.
  cbv zeta in H. destruct H as (w' & reply & Hrun & _ & Hout & _ & _ & Hr).
  exists w', reply. split; [exact Hrun|]. split; [exact Hout|].
  exact (Hr sample_state ltac:(vm_compute; reflexivity)
           ltac:(vm_compute; reflexivity)).
Defined.

Lemma normalizeOrigin_strips_witness :
  last_char (normalizeOrigin (NumberToString (Host := sample_host))
               (JStr " http://a.example// "))
  <> Some "/"%char.
Proof.
  pose proof (normalizeOrigin_strips (host := sample_host)
                (JStr " http://a.example// ")) as H.
  cbv zeta in H.
  exact (proj1 (proj2 H ltac:(vm_compute; discriminate)
                  ltac:(vm_compute; discriminate))).
Defined.

Lemma normalizeOrigin_trailing_slash_witness :
  normalizeOrigin (NumberToString (Host := sample_host)) (JStr "http://a.example/")
  = normalizeOrigin (NumberToString (Host := sample_host)) (JStr "http://a.example").
Proof.
  exact (normalizeOrigin_trailing_slash (host := sample_host) "http://a.example"
           ltac:(discriminate) ltac:(vm_compute; reflexivity)).
Defined.

Lemma env_never_overridden_witness :
  loadLocalEnvFile sample_env [None; Some sample_env_file] !! "PORT"
  = sample_env !! "PORT".
Proof.
  apply (proj1 (env_never_overridden sample_env [None; Some sample_env_file] "PORT")).
  vm_compute. reflexivity.
Defined.

Lemma env_line_assigns_witness :
  applyEnvLine sample_env "  KEY = a=b " = <["KEY" := "a=b"]> sample_env.
Proof.
  exact (env_line_assigns sample_env "  " "KEY " " a=b "
           ltac:(vm_compute; reflexivity) ltac:(discriminate)
           ltac:(vm_compute; reflexivity) ltac:(vm_compute; reflexivity)
           ltac:(vm_compute; reflexivity) ltac:(vm_compute; reflexivity)).
Defined.

Lemma env_line_ignored_witness :
  applyEnvLine sample_env "  # PORT=9" = sample_env.
Proof.
  apply (env_line_ignored sample_env "  # PORT=9").
  right. left. vm_compute. reflexivity.
Defined.

Lemma mapYouTubeItems_keeps_identified_witness :
  List.map vi_videoId (mapYouTubeItems sample_items)
  = [JsString "v1"; JsString "v2"].
Proof.
  exact (proj1 (mapYouTubeItems_keeps_identified sample_items)).
Defined.

Lemma search_checks_before_fetch_witness :
  get_youtube_search (host := sample_host) (Some "k") sample_fetch (Some "  ")
  = ([], ReplyMessage 400 (JsString "Query is required")).
Proof.
  pose proof (search_checks_before_fetch (host := sample_host) (Some "k")
                sample_fetch (Some "  ")) as H.
  cbv zeta in H. exact (proj1 H ltac:(vm_compute; reflexivity)).
Defined.

Lemma search_reply_shape_witness :
  exists status body,
    sample_fetch (search_request "cats" "k") = Responded status body /\
    status_ok status = true.
Proof.
  exact (proj1 (proj2 (search_reply_shape (host := sample_host) (Some "k")
                         sample_fetch (Some " cats ")))).
Defined.

Lemma related_excludes_requested_witness :
  json_truthy (vi_videoId (mapItem (sample_video "v2" "c1"))) = true /\
  vi_videoId (mapItem (sample_video "v2" "c1")) <> JsString "v1".
Proof.
  apply (proj2 (related_excludes_requested (host := sample_host) (Some "k")
                  sample_fetch (Some "v1") (Some "c1")
                  (List.filter (other_video "v1") (mapYouTubeItems sample_items))
                  (Some "channel") ltac:(vm_compute; reflexivity))).
  vm_compute. left. reflexivity.
Defined.

Lemma related_requests_bounded_witness :
  (length (get_youtube_related (host := sample_host) (Some "k") sample_fetch
             (Some "v1") (Some "c1")).1 <= 2)%nat.
Proof.
  pose proof (related_requests_bounded (host := sample_host) (Some "k")
                sample_fetch (Some "v1") (Some "c1")) as H.
  cbv zeta in H.
  exact (proj2 (proj1 (H ltac:(vm_compute; discriminate)
                         ltac:(vm_compute; discriminate))
                  ltac:(vm_compute; discriminate))).
Defined.

Lemma related_channel_failure_falls_back_witness :
  (get_youtube_related (host := sample_host) (Some "k") quota_fetch
     (Some "v1") None).1
  = [details_request "v1" "k"; channel_request (JsString "c1") "k";
     related_request "v1" "k"].
Proof.
  pose proof (related_channel_failure_falls_back (host := sample_host) (Some "k")
                quota_fetch (Some "v1") None (JsString "c1")
                [details_request "v1" "k"] 403 None) as H.
  cbv zeta in H.
  rewrite (H ltac:(vm_compute; discriminate) ltac:(vm_compute; discriminate)
             ltac:(right; split; [reflexivity|]; split; [reflexivity|];
                   split; [reflexivity|];
                   exists 200, (JsObject [("items", JsArray sample_items)]);
                   split; [reflexivity|]; split; reflexivity)
             ltac:(vm_compute; reflexivity) ltac:(vm_compute; reflexivity)).
  reflexivity.
Defined.

Lemma accepted_code_in_alphabet_witness :
  handle (host := sample_host) (JoinRoom 2 (JStr "abc-de") (JStr "Bo")) sample_room
    = Ok tt (send (join_error 2 "Invalid room code or username") sample_room) /\
  handle (host := sample_host) (GetRooms "OIL010") sample_room
    = Ok tt (send (http_reply (HttpMessage 404 "Room not found")) sample_room).
Proof.
  pose proof (accepted_code_in_alphabet (host := sample_host) sample_room 2
                {| sd_roomCode := None; sd_username := None |}
                (JStr "abc-de") (JStr "Bo") "OIL010"
                sample_random_ok sample_room_reachable
                ltac:(vm_compute; reflexivity)) as H.
  cbv zeta in H. destruct H as (_ & _ & Hjoin & Hlook & _).
  split.
  - apply Hjoin. intros [_ Hc]. vm_compute in Hc. discriminate Hc.
  - apply Hlook. intros [_ Hc]. vm_compute in Hc. discriminate Hc.
Defined.

